(** * Hybrid retrieval: a shallow embedding of [app/rag/hybrid_retriever.py]

    The development follows the Python module class by class.  Module
    [HybridRetriever] holds [__init__], [_get_relevant_documents],
    [_combine_results] and [_get_doc_id]; module [AdvancedHybridRetriever]
    holds [__init__], [_get_relevant_documents], [_expand_query],
    [_deduplicate_docs], [_rerank_documents] and the local function
    [calculate_relevance_score].  The factory [create_hybrid_retriever]
    follows, and module [HybridChain] holds the callers in
    [app/rag/hybrid_chain.py]: [format_docs] and
    [compare_retrieval_methods].

    - Python [str] is a sequence of Unicode code points: [str := list N].
    - Python [float] is IEEE binary64.  The code is embedded over the
      interface [PyFloat] of the float operations it uses, with two
      instances: [binary64], the kernel's primitive floats, which compute
      bit for bit what CPython computes, and [exact], rational arithmetic,
      the idealisation in which the numeric properties are stated.
      Properties of the structure of the results are proved for every
      instance.
    - Exceptions are an error monad.  The arithmetic of the module raises
      [ZeroDivisionError]; the constructors raise [ValueError], because the
      retriever classes are pydantic models and assign attributes that are
      not declared fields.
    - [dict] is an insertion-ordered association list, as in CPython >= 3.7.
    - The builtin [hash], [str.lower] and the regular-expression class [\w]
      depend on the interpreter (hash secret, Unicode database); they form
      the interface [PyRuntime].
    - The two backends are external; a backend is the function from its
      arguments to the list it returns.
    - The methods read the attributes of [self]; they are functions of the
      record [t] of these attributes, whichever way an object came to hold
      them. *)

From Stdlib Require Import List ZArith NArith QArith Qabs Lia Bool String Ascii.
From Stdlib Require Import Permutation Sorted Floats.
Import ListNotations.

Set Implicit Arguments.
Set Warnings "-inexact-float".

#[local] Open Scope Z_scope.

(* ================================================================== *)
(** ** Python strings *)

Module PyStr.

(** A [str] is its sequence of code points. *)
Definition str := list N.

Definition str_eq_dec : forall (a b : str), {a = b} + {a <> b} :=
  list_eq_dec N.eq_dec.

Definition str_eqb (a b : str) : bool :=
  if str_eq_dec a b then true else false.

(** [s.startswith(p)] *)
Fixpoint startswith (p s : str) : bool :=
  match p, s with
  | [], _ => true
  | _ :: _, [] => false
  | a :: p', b :: s' => N.eqb a b && startswith p' s'
  end.

(** [sub in s] *)
Fixpoint contains (sub s : str) : bool :=
  startswith sub s ||
  match s with
  | [] => false
  | _ :: s' => contains sub s'
  end.

(** Left-to-right scan shared by [replace] and [count]: [skip] is the number
    of characters of the current match still to be consumed. *)
Fixpoint replace_from (old new : str) (skip : nat) (s : str) : str :=
  match s with
  | [] => []
  | c :: s' =>
      match skip with
      | S n => replace_from old new n s'
      | O =>
          if startswith old s
          then new ++ replace_from old new (Nat.pred (List.length old)) s'
          else c :: replace_from old new O s'
      end
  end.

(** [s.replace(old, new)]: every non-overlapping occurrence, leftmost first.
    For the empty pattern Python inserts [new] around every character. *)
Definition replace (old new s : str) : str :=
  match old with
  | [] => new ++ flat_map (fun c => c :: new) s
  | _ :: _ => replace_from old new O s
  end.

Fixpoint count_from (sub : str) (skip : nat) (s : str) : Z :=
  match s with
  | [] => 0
  | _ :: s' =>
      match skip with
      | S n => count_from sub n s'
      | O =>
          if startswith sub s
          then 1 + count_from sub (Nat.pred (List.length sub)) s'
          else count_from sub O s'
      end
  end.

(** [s.count(sub)]: the number of non-overlapping occurrences. *)
Definition count (sub s : str) : Z :=
  match sub with
  | [] => Z.of_nat (List.length s) + 1
  | _ :: _ => count_from sub O s
  end.

(** [s[:n]] for a non-negative literal [n]. *)
Definition prefix (n : nat) (s : str) : str := firstn n s.

(** *** Literals

    String literals of the Python source are UTF-8 in the file; [u] decodes
    a literal into its code points. *)

Definition cont (b : N) : N := N.land b 63.

Fixpoint utf8_decode (fuel : nat) (bs : list N) : str :=
  match fuel with
  | O => []
  | S fuel' =>
      match bs with
      | [] => []
      | b0 :: r0 =>
          if (b0 <? 128)%N then b0 :: utf8_decode fuel' r0
          else if (b0 <? 224)%N then
            match r0 with
            | b1 :: r1 =>
                (N.shiftl (N.land b0 31) 6 + cont b1)%N :: utf8_decode fuel' r1
            | _ => []
            end
          else if (b0 <? 240)%N then
            match r0 with
            | b1 :: b2 :: r2 =>
                (N.shiftl (N.land b0 15) 12 + N.shiftl (cont b1) 6 + cont b2)%N
                  :: utf8_decode fuel' r2
            | _ => []
            end
          else
            match r0 with
            | b1 :: b2 :: b3 :: r3 =>
                (N.shiftl (N.land b0 7) 18 + N.shiftl (cont b1) 12
                 + N.shiftl (cont b2) 6 + cont b3)%N :: utf8_decode fuel' r3
            | _ => []
            end
      end
  end.

Definition u (s : string) : str :=
  let bs := map N_of_ascii (list_ascii_of_string s) in
  utf8_decode (List.length bs) bs.

End PyStr.
Import PyStr.

(* ================================================================== *)
(** ** The builtin [hash] on [str] (CPython >= 3.11: SipHash-1-3)

    [hash(s)] hashes the string's internal buffer (1, 2 or 4 bytes per code
    point, little endian) with SipHash-1-3 keyed by the interpreter's hash
    secret [(k0, k1)].  The secret is drawn at interpreter start-up: from the
    operating system's random source by default, all zero under
    [PYTHONHASHSEED=0], from a linear congruential generator under
    [PYTHONHASHSEED=n]. *)

Module PyHash.

Definition mask64 : Z := 2 ^ 64 - 1.
Definition wrap64 (x : Z) : Z := Z.land x mask64.
Definition add64 (a b : Z) : Z := wrap64 (a + b).
Definition rotl64 (x : Z) (b : Z) : Z :=
  Z.lor (wrap64 (Z.shiftl x b)) (Z.shiftr x (64 - b)).

Record sipstate := { v0 : Z; v1 : Z; v2 : Z; v3 : Z }.

(** [HALF_ROUND(a,b,c,d,s,t)] returns the updated [(a, b, c, d)]. *)
Definition half_round (a b c d s t : Z) : Z * Z * Z * Z :=
  let a := add64 a b in
  let c := add64 c d in
  let b := Z.lxor (rotl64 b s) a in
  let d := Z.lxor (rotl64 d t) c in
  let a := rotl64 a 32 in
  (a, b, c, d).

(** [SINGLE_ROUND(v0,v1,v2,v3)] *)
Definition single_round (st : sipstate) : sipstate :=
  let '(a, b, c, d) := half_round (v0 st) (v1 st) (v2 st) (v3 st) 13 16 in
  let '(c, b, a, d) := half_round c b a d 17 21 in
  {| v0 := a; v1 := b; v2 := c; v3 := d |}.

(** Little-endian value of at most eight bytes. *)
Fixpoint le_bytes (bs : list Z) : Z :=
  match bs with
  | [] => 0
  | b :: r => Z.lor b (Z.shiftl (le_bytes r) 8)
  end.

Definition absorb (st : sipstate) (m : Z) : sipstate :=
  let st := {| v0 := v0 st; v1 := v1 st; v2 := v2 st; v3 := Z.lxor (v3 st) m |} in
  let st := single_round st in
  {| v0 := Z.lxor (v0 st) m; v1 := v1 st; v2 := v2 st; v3 := v3 st |}.

(** The main loop: full 8-byte words, then the tail word carrying the
    length in its top byte. *)
Fixpoint sip_blocks (fuel : nat) (len : Z) (st : sipstate) (bs : list Z) : sipstate :=
  match fuel with
  | O => st
  | S fuel' =>
      match bs with
      | b0 :: b1 :: b2 :: b3 :: b4 :: b5 :: b6 :: b7 :: r =>
          sip_blocks fuel' len (absorb st (le_bytes [b0; b1; b2; b3; b4; b5; b6; b7])) r
      | tail =>
          absorb st (Z.lor (wrap64 (Z.shiftl len 56)) (le_bytes tail))
      end
  end.

Definition siphash13 (k0 k1 : Z) (bs : list Z) : Z :=
  let st := {| v0 := Z.lxor k0 0x736f6d6570736575;
               v1 := Z.lxor k1 0x646f72616e646f6d;
               v2 := Z.lxor k0 0x6c7967656e657261;
               v3 := Z.lxor k1 0x7465646279746573 |} in
  let st := sip_blocks (S (List.length bs)) (Z.of_nat (List.length bs)) st bs in
  let st := {| v0 := v0 st; v1 := v1 st; v2 := Z.lxor (v2 st) 0xff; v3 := v3 st |} in
  let st := single_round (single_round (single_round st)) in
  Z.lxor (Z.lxor (v0 st) (v1 st)) (Z.lxor (v2 st) (v3 st)).

(** The string's buffer: the narrowest of 1, 2, 4 bytes per code point that
    holds every code point of the string. *)
Definition kind (s : str) : nat :=
  let m := fold_right N.max 0%N s in
  if (m <? 256)%N then 1%nat else if (m <? 65536)%N then 2%nat else 4%nat.

Fixpoint le_encode (width : nat) (c : Z) : list Z :=
  match width with
  | O => []
  | S w => Z.land c 255 :: le_encode w (Z.shiftr c 8)
  end.

Definition buffer (s : str) : list Z :=
  flat_map (fun c => le_encode (kind s) (Z.of_N c)) s.

(** The result is a signed 64-bit [Py_hash_t]; [-1] is reserved. *)
Definition to_signed64 (x : Z) : Z :=
  if x <? 2 ^ 63 then x else x - 2 ^ 64.

Definition secret := (Z * Z)%type.

Definition py_hash (k : secret) (s : str) : Z :=
  match s with
  | [] => 0
  | _ :: _ =>
      let x := to_signed64 (siphash13 (fst k) (snd k) (buffer s)) in
      if x =? -1 then -2 else x
  end.

(** [PYTHONHASHSEED=n] with [n <> 0]: the secret's bytes come from the
    generator [x := x * 214013 + 2531011 (mod 2^32)], one byte [(x >> 16) & 0xff]
    per step. *)
Fixpoint lcg_urandom (n : nat) (x : Z) : list Z :=
  match n with
  | O => []
  | S n' =>
      let x := Z.land (x * 214013 + 2531011) (2 ^ 32 - 1) in
      Z.land (Z.shiftr x 16) 255 :: lcg_urandom n' x
  end.

Definition secret_of_seed (seed : Z) : secret :=
  if seed =? 0 then (0, 0)
  else
    let bs := lcg_urandom 16 seed in
    (le_bytes (firstn 8 bs), le_bytes (skipn 8 bs)).

End PyHash.
Import PyHash.

(* ================================================================== *)
(** ** Exceptions *)

Inductive exn : Set :=
| ZeroDivisionError
| ValueError.

Inductive result (A : Type) : Type :=
| Ok (a : A)
| Raise (e : exn).
Arguments Ok {A} a.
Arguments Raise {A} e.

Definition bind {A B : Type} (m : result A) (f : A -> result B) : result B :=
  match m with
  | Ok a => f a
  | Raise e => Raise e
  end.

Notation "x <- m ;; f" := (bind m (fun x => f))
  (at level 61, m at next level, right associativity).
Notation "' p <- m ;; f" := (bind m (fun x => match x with p => f end))
  (at level 61, p pattern, m at next level, right associativity).

(** [[f(x) for x in l]] with a fallible [f]: the first exception escapes. *)
Fixpoint mapM {A B : Type} (f : A -> result B) (l : list A) : result (list B) :=
  match l with
  | [] => Ok []
  | x :: l' => y <- f x ;; ys <- mapM f l' ;; Ok (y :: ys)
  end.

(* ================================================================== *)
(** ** Python floats *)

(** The float operations the module uses.  [f_div] is the quotient for a
    non-zero divisor; the zero check Python performs first is [truediv]. *)
Class PyFloat (F : Type) : Type := {
  f_add : F -> F -> F;
  f_sub : F -> F -> F;
  f_mul : F -> F -> F;
  f_div : F -> F -> F;
  f_abs : F -> F;
  f_ltb : F -> F -> bool;
  f_eqb : F -> F -> bool;
  f_of_int : Z -> F;          (* float(n) *)
  f_0 : F;                    (* 0.0 *)
  f_1 : F;                    (* 1.0 *)
  f_1e_6 : F;                 (* 1e-6 *)
  f_0_7 : F;                  (* 0.7 *)
  f_0_3 : F                   (* 0.3 *)
}.

(** IEEE binary64, as CPython computes.  [float(n)] is exact for
    [|n| < 2^53] and correctly rounded below [2^63], the range of lengths and
    ranks. *)
#[export] Instance binary64 : PyFloat float := {
  f_add := PrimFloat.add;
  f_sub := PrimFloat.sub;
  f_mul := PrimFloat.mul;
  f_div := PrimFloat.div;
  f_abs := PrimFloat.abs;
  f_ltb := PrimFloat.ltb;
  f_eqb := PrimFloat.eqb;
  f_of_int := fun n =>
    if n <? 0 then PrimFloat.opp (PrimFloat.of_uint63 (Uint63.of_Z (- n)))
    else PrimFloat.of_uint63 (Uint63.of_Z n);
  f_0 := 0%float;
  f_1 := 1%float;
  f_1e_6 := 1e-6%float;
  f_0_7 := 0.7%float;
  f_0_3 := 0.3%float
}.

(** Exact rational arithmetic: floats without rounding, overflow or NaN. *)
#[export] Instance exact : PyFloat Q := {
  f_add := Qplus;
  f_sub := Qminus;
  f_mul := Qmult;
  f_div := Qdiv;
  f_abs := Qabs;
  f_ltb := fun x y => negb (Qle_bool y x);
  f_eqb := Qeq_bool;
  f_of_int := inject_Z;
  f_0 := 0%Q;
  f_1 := 1%Q;
  f_1e_6 := (1 # 1000000)%Q;
  f_0_7 := (7 # 10)%Q;
  f_0_3 := (3 # 10)%Q
}.

Section FloatOps.
Context {F : Type} {FO : PyFloat F}.

(** [x / y] on floats: [ZeroDivisionError] when [y == 0.0]. *)
Definition truediv (x y : F) : result F :=
  if f_eqb y f_0 then Raise ZeroDivisionError else Ok (f_div x y).

(** [x / n] with [x] a float and [n] an int: [n] is converted, and the
    divisor is zero exactly when [n == 0]. *)
Definition truediv_float_int (x : F) (n : Z) : result F :=
  if n =? 0 then Raise ZeroDivisionError else Ok (f_div x (f_of_int n)).

(** [a / b] on ints: true division, [ZeroDivisionError] when [b == 0].  The
    quotient is that of the converted operands, which is what Python returns
    for operands below [2^53] such as lengths and counts. *)
Definition truediv_int (a b : Z) : result F :=
  if b =? 0 then Raise ZeroDivisionError
  else Ok (f_div (f_of_int a) (f_of_int b)).

(** [x > y] *)
Definition f_gtb (x y : F) : bool := f_ltb y x.

End FloatOps.

(* ================================================================== *)
(** ** Interpreter-dependent builtins *)

Class PyRuntime : Type := {
  hash : str -> Z;            (* hash(s), fixed for the life of the process *)
  lower : str -> str;         (* s.lower() *)
  is_word : N -> bool         (* the class \w of module re *)
}.

(** A runtime with hash secret [k].  The Unicode tables are given for ASCII
    and the CJK unified ideographs (letters without case). *)
Definition ascii_lower (c : N) : N :=
  if ((65 <=? c) && (c <=? 90))%N then (c + 32)%N else c.

Definition word_char (c : N) : bool :=
  (((48 <=? c) && (c <=? 57)) || ((65 <=? c) && (c <=? 90))
   || ((97 <=? c) && (c <=? 122)) || (c =? 95)
   || ((0x4E00 <=? c) && (c <=? 0x9FFF)))%N.

Definition cpython (k : secret) : PyRuntime := {|
  hash := py_hash k;
  lower := map ascii_lower;
  is_word := word_char
|}.

(* ================================================================== *)
(** ** [list.sort(key=..., reverse=True)] and slicing *)

Section Builtins.
Context {F : Type} {FO : PyFloat F}.
Variable A : Type.
Variable key : A -> F.

(** Stable insertion into a descending list: [x] goes behind every element
    with a strictly greater key and in front of the rest. *)
Fixpoint insert_desc (x : A) (l : list A) : list A :=
  match l with
  | [] => [x]
  | y :: l' =>
      if f_ltb (key x) (key y) then y :: insert_desc x l'
      else x :: l
  end.

(** The stable descending sort.  Python's sort is stable also under
    [reverse=True]; on keys that are totally pre-ordered by [<] (floats
    without NaN) its result is this list. *)
Fixpoint sort_desc (l : list A) : list A :=
  match l with
  | [] => []
  | x :: l' => insert_desc x (sort_desc l')
  end.

(** [l[:n]] for an int [n]: a negative [n] counts from the end. *)
Definition slice_to (l : list A) (n : Z) : list A :=
  if n <? 0 then firstn (List.length l - Z.to_nat (- n)) l
  else firstn (Z.to_nat n) l.

End Builtins.

(* ================================================================== *)
(** ** Insertion-ordered [dict] keyed by hash values *)

Section Dict.
Variable V : Type.

Definition dict := list (Z * V).

Fixpoint dict_get (d : dict) (key : Z) : option V :=
  match d with
  | [] => None
  | (k', v) :: d' => if k' =? key then Some v else dict_get d' key
  end.

(** [key in d] *)
Definition dict_mem (d : dict) (key : Z) : bool :=
  match dict_get d key with Some _ => true | None => false end.

(** [d[key] = v]: an existing key keeps its position, a new key goes last. *)
Fixpoint dict_set (d : dict) (key : Z) (v : V) : dict :=
  match d with
  | [] => [(key, v)]
  | (k', v') :: d' =>
      if k' =? key then (k', v) :: d' else (k', v') :: dict_set d' key v
  end.

Definition dict_keys (d : dict) : list Z := map fst d.

End Dict.

(* ================================================================== *)
(** ** Documents and the retriever *)

Record Document : Type := {
  page_content : str;
  metadata : list (str * str)
}.

(** *** The pydantic model under the retriever classes

    [class HybridRetriever(BaseRetriever)]: [BaseRetriever] is a pydantic
    model.  Its [__setattr__] accepts the names of the declared fields and
    raises [ValueError] ("object has no field ...") for every other name.
    The fields are those of [BaseRetriever] ([name], [tags], [metadata]);
    the class bodies of [HybridRetriever] and [AdvancedHybridRetriever]
    declare none. *)
Definition model_fields : list string := ["name"; "tags"; "metadata"]%string.

(** [self.<name> = value] *)
Definition __setattr__ (name : string) : result unit :=
  if existsb (String.eqb name) model_fields then Ok tt else Raise ValueError.

Module HybridRetriever.

Section Retriever.
Context {F : Type} {FO : PyFloat F} {RT : PyRuntime}.

(** The two backends are external: the vector store answers
    [similarity_search_with_score(query, k)] with (document, distance)
    pairs, the BM25 retriever answers [get_relevant_documents(query)]. *)
Record t : Type := {
  vectorstore : str -> Z -> list (Document * F);
  bm25_retriever : str -> list Document;
  vector_weight : F;
  bm25_weight : F;
  k : Z
}.

(** [__init__]: [super().__init__()] takes no argument and sets the
    inherited fields to their defaults; the five assignments follow, then the
    rescaling of the weights. *)
Definition __init__ (vs : str -> Z -> list (Document * F))
    (bm : str -> list Document) (vw bw : F) (kk : Z)
  : result t :=
  ' tt <- __setattr__ "vectorstore" ;;
  ' tt <- __setattr__ "bm25_retriever" ;;
  ' tt <- __setattr__ "vector_weight" ;;
  ' tt <- __setattr__ "bm25_weight" ;;
  ' tt <- __setattr__ "k" ;;
  let total_weight := f_add vw bw in
  if f_gtb (f_abs (f_sub total_weight f_1)) f_1e_6 then
    vw' <- truediv vw total_weight ;;
    ' tt <- __setattr__ "vector_weight" ;;
    bw' <- truediv bw total_weight ;;
    ' tt <- __setattr__ "bm25_weight" ;;
    Ok {| vectorstore := vs; bm25_retriever := bm;
          vector_weight := vw'; bm25_weight := bw'; k := kk |}
  else
    Ok {| vectorstore := vs; bm25_retriever := bm;
          vector_weight := vw; bm25_weight := bw; k := kk |}.

(** [_get_doc_id] *)
Definition _get_doc_id (doc : Document) : Z :=
  let content_preview := prefix 100 (page_content doc) in
  hash content_preview.

(** The value of one [doc_scores] entry. *)
Record Scores : Type := {
  doc : Document;
  vector_score : F;
  bm25_score : F
}.

(** First loop of [_combine_results]: the vector hits. *)
Fixpoint vector_pass (vector_docs : list (Document * F))
    (doc_scores : dict Scores) : result (dict Scores) :=
  match vector_docs with
  | [] => Ok doc_scores
  | (d, score) :: rest =>
      let doc_id := _get_doc_id d in
      normalized_score <- truediv f_1 (f_add f_1 score) ;;
      vector_pass rest
        (dict_set doc_scores doc_id
           {| doc := d; vector_score := normalized_score; bm25_score := f_0 |})
  end.

(** Second loop: [for i, doc in enumerate(bm25_docs)]. *)
Fixpoint bm25_pass (i : Z) (bm25_docs : list Document)
    (doc_scores : dict Scores) : result (dict Scores) :=
  match bm25_docs with
  | [] => Ok doc_scores
  | d :: rest =>
      let doc_id := _get_doc_id d in
      score <- truediv_float_int f_1 (i + 1) ;;
      bm25_pass (i + 1) rest
        match dict_get doc_scores doc_id with
        | Some s =>
            dict_set doc_scores doc_id
              {| doc := doc s; vector_score := vector_score s; bm25_score := score |}
        | None =>
            dict_set doc_scores doc_id
              {| doc := d; vector_score := f_0; bm25_score := score |}
        end
  end.

(** [doc_scores] after both loops. *)
Definition fuse (vector_docs : list (Document * F)) (bm25_docs : list Document)
  : result (dict Scores) :=
  doc_scores <- vector_pass vector_docs [] ;;
  bm25_pass 0 bm25_docs doc_scores.

Definition combined_score (r : t) (s : Scores) : F :=
  f_add (f_mul (vector_weight r) (vector_score s))
        (f_mul (bm25_weight r) (bm25_score s)).

(** [scored_docs] before sorting, in the dict's iteration order. *)
Definition scored_docs (r : t) (doc_scores : dict Scores)
  : list (Document * F) :=
  map (fun item => (doc (snd item), combined_score r (snd item))) doc_scores.

(** [_combine_results] (the query argument is unused by the source). *)
Definition _combine_results (r : t)
    (vector_docs : list (Document * F)) (bm25_docs : list Document)
  : result (list Document) :=
  doc_scores <- fuse vector_docs bm25_docs ;;
  Ok (map fst (sort_desc snd (scored_docs r doc_scores))).

(** [_get_relevant_documents] *)
Definition _get_relevant_documents (r : t) (query : str)
  : result (list Document) :=
  let vector_docs := vectorstore r query (k r * 2) in
  let bm25_docs := bm25_retriever r query in
  combined_docs <- _combine_results r vector_docs bm25_docs ;;
  Ok (slice_to combined_docs (k r)).

End Retriever.

End HybridRetriever.
Import HybridRetriever.

(* ================================================================== *)
(** ** The advanced retriever *)

Module AdvancedHybridRetriever.

Section Advanced.
Context {F : Type} {FO : PyFloat F} {RT : PyRuntime}.

(** The object: the base object and the two switches its
    constructor sets. *)
Record t : Type := {
  base : HybridRetriever.t (F := F);
  query_expansion : bool;
  rerank : bool
}.

(** [__init__]: the constructor of the base class with the same arguments,
    then the two assignments. *)
Definition __init__ (vs : str -> Z -> list (Document * F))
    (bm : str -> list Document) (vw bw : F) (kk : Z)
  : result t :=
  r <- HybridRetriever.__init__ vs bm vw bw kk ;;
  ' tt <- __setattr__ "query_expansion" ;;
  ' tt <- __setattr__ "rerank" ;;
  Ok {| base := r; query_expansion := true; rerank := true |}.

(** The synonym table of [_expand_query], in the order of the literal. *)
Definition synonyms : list (str * list str) :=
  [ (u "股票", [u "股价"; u "股份"; u "证券"; u "投资"]);
    (u "公司", [u "企业"; u "机构"; u "组织"]);
    (u "表现", [u "业绩"; u "成绩"; u "结果"; u "情况"]) ].

(** The inner loop [for syn in syns]. *)
Definition expand_with (query original : str) (syns : list str)
    (expansions : list str) : list str :=
  fold_left
    (fun expansions syn =>
       let expanded := replace original syn query in
       if existsb (str_eqb expanded) expansions then expansions
       else expansions ++ [expanded])
    syns expansions.

(** [_expand_query] over a given table. *)
Definition expand_query_with (table : list (str * list str)) (query : str)
  : list str :=
  fold_left
    (fun expansions entry =>
       let '(original, syns) := entry in
       if contains original query
       then expand_with query original syns expansions
       else expansions)
    table [query].

(** [_expand_query] *)
Definition _expand_query (query : str) : list str :=
  expand_query_with synonyms query.

(** [_deduplicate_docs]: [seen] is the set of identifiers met so far. *)
Fixpoint deduplicate_from (seen : list Z) (docs : list Document)
  : list Document :=
  match docs with
  | [] => []
  | d :: rest =>
      let doc_id := _get_doc_id d in
      if existsb (Z.eqb doc_id) seen then deduplicate_from seen rest
      else d :: deduplicate_from (doc_id :: seen) rest
  end.

Definition _deduplicate_docs (docs : list Document) : list Document :=
  deduplicate_from [] docs.

(** [re.findall(r'\w+', s)]: the maximal runs of word characters, left to
    right; [cur] is the run being read. *)
Definition flush (cur : str) : list str :=
  match cur with [] => [] | _ :: _ => [cur] end.

Fixpoint findall_from (cur : str) (s : str) : list str :=
  match s with
  | [] => flush cur
  | c :: s' =>
      if is_word c then findall_from (cur ++ [c]) s'
      else flush cur ++ findall_from [] s'
  end.

Definition findall_words (s : str) : list str := findall_from [] s.

(** [set(re.findall(r'\w+', s.lower()))]; a set is a duplicate-free list,
    and only its size and membership are used below. *)
Definition term_set (s : str) : list str :=
  nodup str_eq_dec (findall_words (lower s)).

Definition set_inter (a b : list str) : list str :=
  filter (fun t => existsb (str_eqb t) b) a.

Definition set_union (a b : list str) : list str :=
  nodup str_eq_dec (a ++ b).

Definition len {A : Type} (l : list A) : Z := Z.of_nat (List.length l).

(** [sum(doc_text.count(term) for term in query_terms)] *)
Definition occurrences (query_terms : list str) (doc_text : str) : Z :=
  fold_right Z.add 0 (map (fun term => count term doc_text) query_terms).

(** The local function [calculate_relevance_score] with its free variable
    [query_terms]. *)
Definition calculate_relevance_score (query_terms : list str) (d : Document)
  : result F :=
  let doc_terms := term_set (page_content d) in
  let overlap := len (set_inter query_terms doc_terms) in
  let total_terms := len (set_union query_terms doc_terms) in
  if total_terms =? 0 then Ok f_0
  else
    jaccard_sim <- truediv_int overlap total_terms ;;
    let doc_text := lower (page_content d) in
    term_density <- truediv_int (occurrences query_terms doc_text) (len doc_text) ;;
    Ok (f_add (f_mul f_0_7 jaccard_sim) (f_mul f_0_3 term_density)).

(** [_rerank_documents] *)
Definition _rerank_documents (docs : list Document) (query : str)
  : result (list Document) :=
  let query_terms := term_set query in
  scored_docs <-
    mapM (fun d => score <- calculate_relevance_score query_terms d ;;
                   Ok (d, score)) docs ;;
  Ok (map fst (sort_desc snd scored_docs)).

(** The loop over the query variants, accumulating into [all_docs]. *)
Fixpoint retrieve_variants (r : HybridRetriever.t) (queries : list str)
    (all_docs : list Document) : result (list Document) :=
  match queries with
  | [] => Ok all_docs
  | q :: rest =>
      let vector_docs := vectorstore r q (k r) in
      let bm25_docs := bm25_retriever r q in
      combined_docs <- _combine_results r vector_docs bm25_docs ;;
      retrieve_variants r rest (all_docs ++ combined_docs)
  end.

(** [_get_relevant_documents] *)
Definition _get_relevant_documents (a : t)
    (query : str) : result (list Document) :=
  let expanded_queries :=
    if query_expansion a then _expand_query query else [query] in
  all_docs <- retrieve_variants (base a) expanded_queries [] ;;
  let unique_docs := _deduplicate_docs all_docs in
  unique_docs <-
    (if rerank a then _rerank_documents unique_docs query else Ok unique_docs) ;;
  Ok (slice_to unique_docs (k (base a))).

End Advanced.

End AdvancedHybridRetriever.
Import AdvancedHybridRetriever.

(* ================================================================== *)
(** ** [create_hybrid_retriever] and the public entry point *)

Section Factory.
Context {F : Type} {FO : PyFloat F} {RT : PyRuntime}.

(** An object of one of the two retriever classes. *)
Inductive Retriever : Type :=
| Basic (r : HybridRetriever.t (F := F))
| Advanced (a : AdvancedHybridRetriever.t (F := F)).

(** [create_hybrid_retriever].  [BM25Retriever.from_documents(documents)]
    is external and may raise; the retriever it returns is the function
    from its attribute [k] and a query to the documents it returns, and
    [bm25_retriever.k = k] sets that attribute ([k] is a declared field of
    [BM25Retriever]). *)
Definition create_hybrid_retriever
    (bm25_from_documents :
       list Document -> result (Z -> str -> list Document))
    (vs : str -> Z -> list (Document * F)) (documents : list Document)
    (vw bw : F) (kk : Z) (advanced : bool) : result Retriever :=
  bm25 <- bm25_from_documents documents ;;
  let bm25_retriever := bm25 kk in
  if advanced then
    a <- AdvancedHybridRetriever.__init__ vs bm25_retriever vw bw kk ;;
    Ok (Advanced a)
  else
    r <- HybridRetriever.__init__ vs bm25_retriever vw bw kk ;;
    Ok (Basic r).

(** [BaseRetriever.get_relevant_documents]: the public method runs the
    [_get_relevant_documents] of the object's class. *)
Definition get_relevant_documents (retriever : Retriever) (query : str)
  : result (list Document) :=
  match retriever with
  | Basic r => HybridRetriever._get_relevant_documents r query
  | Advanced a => AdvancedHybridRetriever._get_relevant_documents a query
  end.

End Factory.

(* ================================================================== *)
(** ** The callers in [app/rag/hybrid_chain.py] *)

Module HybridChain.

(** [sep.join(parts)] *)
Fixpoint join (sep : str) (parts : list str) : str :=
  match parts with
  | [] => []
  | p :: rest =>
      match rest with
      | [] => p
      | _ :: _ => p ++ sep ++ join sep rest
      end
  end.

(** The literal ["【片段】\n"] that opens every chunk. *)
Definition chunk_header : str := u "【片段】" ++ [10%N].

(** [format_docs] *)
Definition format_docs (docs : list Document) : str :=
  join [10%N; 10%N] (map (fun d => chunk_header ++ page_content d) docs).

(** The exceptions of this module: [load_documents()] is called without its
    required argument, and the factory and retrieval can raise. *)
Inductive error : Set :=
| TypeError
| Raised (e : exn).

Definition lift {A : Type} (m : result A) : error + A :=
  match m with
  | Ok a => inr a
  | Raise e => inl (Raised e)
  end.

Definition and_then {A B : Type} (m : error + A) (f : A -> error + B)
  : error + B :=
  match m with
  | inr a => f a
  | inl e => inl e
  end.

(** One entry of the dictionary [compare_retrieval_methods] returns:
    [{"docs": [doc.page_content[:200] + "..." for doc in docs],
      "count": len(docs)}]. *)
Record method_result : Type := {
  docs : list str;
  count : Z
}.

Definition summarize (ds : list Document) : method_result :=
  {| docs := map (fun d => prefix 200 (page_content d) ++ u "...") ds;
     count := len ds |}.

Record comparison : Type := {
  query : str;
  vector_only : method_result;
  hybrid_balanced : method_result;
  hybrid_vector_heavy : method_result;
  hybrid_keyword_heavy : method_result;
  hybrid_advanced : method_result
}.

Section Compare.
Context {RT : PyRuntime}.

(** The retrieval of one hybrid method: build the retriever, query it. *)
Definition run_method
    (bm25_from_documents :
       list Document -> result (Z -> str -> list Document))
    (vs : str -> Z -> list (Document * float)) (documents : list Document)
    (vw bw : float) (advanced : bool) (q : str) : error + list Document :=
  lift (retriever <-
          create_hybrid_retriever bm25_from_documents vs documents
            vw bw 5 advanced ;;
        get_relevant_documents retriever q).

(** [compare_retrieval_methods].  The vector store of [get_vectorstore()] is
    external: [vs] is its [similarity_search_with_score], [as_retriever k] the
    retriever [vectorstore.as_retriever(search_kwargs={"k": k})].  The
    argument [llm] is not used by the source. *)
Definition compare_retrieval_methods
    (as_retriever : Z -> str -> list Document)
    (bm25_from_documents :
       list Document -> result (Z -> str -> list Document))
    (vs : str -> Z -> list (Document * float))
    (q : str) (documents : option (list Document)) : error + comparison :=
  and_then
    match documents with
    | None => inl TypeError            (* load_documents() *)
    | Some ds => inr ds
    end
    (fun documents =>
  let vector_docs := as_retriever 5 q in
  and_then (run_method bm25_from_documents vs documents
              0.5%float 0.5%float false q) (fun hybrid_docs =>
  and_then (run_method bm25_from_documents vs documents
              0.8%float 0.2%float false q) (fun vector_heavy_docs =>
  and_then (run_method bm25_from_documents vs documents
              0.2%float 0.8%float false q) (fun keyword_heavy_docs =>
  and_then (run_method bm25_from_documents vs documents
              0.7%float 0.3%float true q) (fun advanced_docs =>
  inr {| query := q;
         vector_only := summarize vector_docs;
         hybrid_balanced := summarize hybrid_docs;
         hybrid_vector_heavy := summarize vector_heavy_docs;
         hybrid_keyword_heavy := summarize keyword_heavy_docs;
         hybrid_advanced := summarize advanced_docs |}))))).

End Compare.

End HybridChain.

(* ================================================================== *)
(** ** Vocabulary of the statements *)

(** A document with the given content and no metadata. *)
Definition mkdoc (content : string) : Document :=
  {| page_content := u content; metadata := [] |}.

(** The query of scenario B. *)
Definition scenario_B_query : str := u "苹果公司股票表现".

Section Vocabulary.
Context {F : Type} {FO : PyFloat F} {RT : PyRuntime}.

(** The identifiers of the hits of both backends, vector hits first. *)
Definition matched_ids (vector_docs : list (Document * F))
    (bm25_docs : list Document) : list Z :=
  map (fun h => _get_doc_id (fst h)) vector_docs ++ map _get_doc_id bm25_docs.

(** The unique matched documents: one identifier per document. *)
Definition unique_matched (vector_docs : list (Document * F))
    (bm25_docs : list Document) : list Z :=
  nodup Z.eq_dec (matched_ids vector_docs bm25_docs).

(** The distance [d] is one the normalisation [1.0 / (1.0 + d)] accepts. *)
Definition normalizable (d : F) : Prop := f_eqb (f_add f_1 d) f_0 = false.

(** The last vector hit with identifier [id]. *)
Fixpoint last_hit (id : Z) (vector_docs : list (Document * F))
  : option (Document * F) :=
  match vector_docs with
  | [] => None
  | h :: rest =>
      match last_hit id rest with
      | Some h' => Some h'
      | None => if _get_doc_id (fst h) =? id then Some h else None
      end
  end.

(** The last rank, counted from [i], at which the keyword list holds a
    document with identifier [id]. *)
Fixpoint last_rank (i : Z) (id : Z) (bm25_docs : list Document) : option Z :=
  match bm25_docs with
  | [] => None
  | d :: rest =>
      match last_rank (i + 1) id rest with
      | Some r => Some r
      | None => if _get_doc_id d =? id then Some i else None
      end
  end.

(** The first keyword document with identifier [id]. *)
Definition first_doc (id : Z) (bm25_docs : list Document) : option Document :=
  find (fun d => _get_doc_id d =? id) bm25_docs.

(** The normalised scores. *)
Definition similarity (d : F) : F := f_div f_1 (f_add f_1 d).
Definition rank_score (r : Z) : F := f_div f_1 (f_of_int (r + 1)).

(** What the keyword loop makes of the entry [prior] of identifier [id]. *)
Definition bm25_update (i : Z) (id : Z) (bm25_docs : list Document)
    (prior : option Scores) : option Scores :=
  match last_rank i id bm25_docs, prior, first_doc id bm25_docs with
  | Some r, Some s, _ =>
      Some {| doc := doc s; vector_score := vector_score s;
              bm25_score := rank_score r |}
  | Some r, None, Some d =>
      Some {| doc := d; vector_score := f_0; bm25_score := rank_score r |}
  | _, _, _ => prior
  end.

(** The entry of identifier [id] in the fused table. *)
Definition fused_entry (vector_docs : list (Document * F))
    (bm25_docs : list Document) (id : Z) : option Scores :=
  bm25_update 0 id bm25_docs
    match last_hit id vector_docs with
    | Some h =>
        Some {| doc := fst h; vector_score := similarity (snd h);
                bm25_score := f_0 |}
    | None => None
    end.

(** Identifiers in order of first appearance. *)
Definition add_key (keys : list Z) (id : Z) : list Z :=
  if existsb (Z.eqb id) keys then keys else keys ++ [id].

Definition first_occurrences (ids : list Z) : list Z :=
  fold_left add_key ids [].

(** Descending order of a scored list. *)
Definition descending (l : list (Document * F)) : Prop :=
  StronglySorted (fun a b => f_ltb (snd a) (snd b) = false) l.

End Vocabulary.

(** *** A small corpus for the examples

    The vector store returns two hits; the keyword retriever returns an
    independently built chunk with the text of the second one, and a third
    document. *)

Definition demo_runtime : PyRuntime := cpython (secret_of_seed 0).

Definition doc_a : Document := mkdoc "alpha report".
Definition doc_b : Document := mkdoc "beta report".
Definition doc_b_bm25 : Document :=
  {| page_content := u "beta report"; metadata := [(u "source", u "bm25")] |}.
Definition doc_c : Document := mkdoc "gamma report".

Definition demo_bm25_docs : list Document := [doc_b_bm25; doc_c].

Definition demo_vector_docs : list (Document * float) :=
  [(doc_a, 0.1%float); (doc_b, 0.3%float)].

Definition demo_retriever : HybridRetriever.t (F := float) :=
  {| vectorstore := fun _ _ => demo_vector_docs;
     bm25_retriever := fun _ => demo_bm25_docs;
     vector_weight := 0.7%float; bm25_weight := 0.3%float; k := 2 |}.

Definition demo_vector_docs_exact : list (Document * Q) :=
  [(doc_a, (1 # 10)%Q); (doc_b, (3 # 10)%Q)].

Definition demo_retriever_exact : HybridRetriever.t (F := Q) :=
  {| vectorstore := fun _ _ => demo_vector_docs_exact;
     bm25_retriever := fun _ => demo_bm25_docs;
     vector_weight := (7 # 10)%Q; bm25_weight := (3 # 10)%Q; k := 2 |}.


(** The retriever of the small corpus with [k = -1]. *)
Definition demo_retriever_negative_k : HybridRetriever.t (F := float) :=
  {| vectorstore := fun _ _ => demo_vector_docs;
     bm25_retriever := fun _ => demo_bm25_docs;
     vector_weight := 0.7%float; bm25_weight := 0.3%float; k := -1 |}.

(** *** Order preservation *)








Definition pure_keyword_retriever_exact : HybridRetriever.t (F := Q) :=
  {| vectorstore := fun _ _ => demo_vector_docs_exact;
     bm25_retriever := fun _ => demo_bm25_docs;
     vector_weight := 0%Q; bm25_weight := 1%Q; k := 2 |}.

(** *** The body of the loop of [_expand_query], and objects for the
    examples *)

(** The loop over the table, from any accumulated list. *)
Definition expand_step (query : str) (expansions : list str)
    (entry : str * list str) : list str :=
  let '(original, syns) := entry in
  if contains original query
  then expand_with query original syns expansions
  else expansions.

(** In the keyword list read from rank [i], [d] has an earlier last rank
    than [d']. *)
Definition ranked_before {RT : PyRuntime} (i : Z) (bm25_docs : list Document)
    (d d' : Document) : Prop :=
  exists r r',
    last_rank i (_get_doc_id d) bm25_docs = Some r
    /\ last_rank i (_get_doc_id d') bm25_docs = Some r'
    /\ i <= r /\ r < r'.

(** The document the fused table keeps for a keyword hit [d]: the last vector
    hit with its identifier if there is one, the keyword hit otherwise. *)
Definition kept_document {F : Type} {RT : PyRuntime}
    (vector_docs : list (Document * F)) (d : Document) : Document :=
  match last_hit (_get_doc_id d) vector_docs with
  | Some h => fst h
  | None => d
  end.

(** An advanced retriever over the small corpus. *)
Definition demo_advanced : AdvancedHybridRetriever.t (F := float) :=
  {| base := demo_retriever; query_expansion := true; rerank := true |}.

(* ================================================================== *)
(** * Properties *)

(** ** Query expansion *)

Section QueryExpansion.

(** C4, as stated, fails: all three keys of the synonym table occur in the
    query of scenario B, so the expansion has 12 variants, not 5. *)
Lemma C4_counterexample :
  List.length (_expand_query scenario_B_query) <> 5%nat.
Proof. vm_compute. discriminate. Qed.

(** C4, amended: on the query of scenario B [_expand_query] returns 12
    variants, the original first, then the 4 substitutions for 股票, the 3
    for 公司 and the 4 for 表现, in table order and without duplicates; with
    a table holding only the entry for 股票 the result is the original
    followed by the 4 substitutions for 股票. *)
Theorem C4_expand_query_scenario_B :
  _expand_query scenario_B_query =
    [ u "苹果公司股票表现";
      u "苹果公司股价表现"; u "苹果公司股份表现";
      u "苹果公司证券表现"; u "苹果公司投资表现";
      u "苹果企业股票表现"; u "苹果机构股票表现"; u "苹果组织股票表现";
      u "苹果公司股票业绩"; u "苹果公司股票成绩";
      u "苹果公司股票结果"; u "苹果公司股票情况" ]
  /\ NoDup (_expand_query scenario_B_query)
  /\ expand_query_with
       [ (u "股票", [u "股价"; u "股份"; u "证券"; u "投资"]) ]
       scenario_B_query =
     [ u "苹果公司股票表现";
       u "苹果公司股价表现"; u "苹果公司股份表现";
       u "苹果公司证券表现"; u "苹果公司投资表现" ].
Proof.
  split; [vm_compute; reflexivity|].
  split; [|vm_compute; reflexivity].
  apply (NoDup_count_occ' str_eq_dec).
  intros x Hx.
  vm_compute in Hx.
  repeat (destruct Hx as [<- | Hx]; [vm_compute; reflexivity|]).
  destruct Hx.
Qed.

Lemma existsb_str_eqb_In (x : str) (l : list str) :
  existsb (str_eqb x) l = true <-> In x l.
Proof.
  rewrite existsb_exists. unfold str_eqb. split.
  - intros [y [Hin E]]. destruct (str_eq_dec x y); [now subst|discriminate].
  - intros Hin. exists x. split; [exact Hin|].
    destruct (str_eq_dec x x); [reflexivity|contradiction].
Qed.

(** The inner loop only appends, and never a variant already present. *)
Lemma expand_with_spec (query original : str) (syns expansions : list str) :
  exists added,
    expand_with query original syns expansions = expansions ++ added
    /\ (NoDup expansions -> NoDup (expansions ++ added)).
Proof.
  unfold expand_with. revert expansions.
  induction syns as [|syn syns IH]; intros expansions; cbn [fold_left].
  - exists []. rewrite app_nil_r. split; [reflexivity|trivial].
  - destruct (existsb (str_eqb (replace original syn query)) expansions) eqn:E.
    + apply IH.
    + destruct (IH (expansions ++ [replace original syn query]))
        as [added [Heq Hnd]].
      exists (replace original syn query :: added).
      rewrite Heq, <- app_assoc. split; [reflexivity|].
      intros Hnd0. rewrite <- app_assoc in Hnd. apply Hnd.
      apply NoDup_app; [exact Hnd0|repeat constructor; intros []|].
      intros x Hin [<- |[]].
      apply existsb_str_eqb_In in Hin. congruence.
Qed.

(** For every query and table the expansion starts with the original query
    and has no duplicates. *)
Lemma expand_query_with_spec (table : list (str * list str)) (query : str) :
  exists variants,
    expand_query_with table query = query :: variants
    /\ NoDup (query :: variants).
Proof.
  unfold expand_query_with.
  assert (Hgen : forall expansions,
             exists added,
               fold_left
                 (fun expansions entry =>
                    let '(original, syns) := entry in
                    if contains original query
                    then expand_with query original syns expansions
                    else expansions) table expansions = expansions ++ added
               /\ (NoDup expansions -> NoDup (expansions ++ added))).
  { induction table as [|[original syns] table IH]; intros expansions;
      cbn [fold_left].
    - exists []. rewrite app_nil_r. split; [reflexivity|trivial].
    - destruct (contains original query); [|apply IH].
      destruct (expand_with_spec query original syns expansions)
        as [a1 [E1 N1]].
      rewrite E1. destruct (IH (expansions ++ a1)) as [a2 [E2 N2]].
      exists (a1 ++ a2). rewrite E2, <- app_assoc. split; [reflexivity|].
      intros Hnd. rewrite <- app_assoc in N2. auto. }
  destruct (Hgen [query]) as [added [E N]].
  exists added. split; [exact E|].
  apply N. repeat constructor. intros [].
Qed.

(** A query that contains no key of the table is returned alone. *)
Lemma expand_query_with_no_match (table : list (str * list str)) (query : str) :
  Forall (fun entry => contains (fst entry) query = false) table ->
  expand_query_with table query = [query].
Proof.
  unfold expand_query_with. generalize [query] as acc.
  induction table as [|[original syns] table IH]; intros acc Hno;
    cbn [fold_left]; [reflexivity|].
  inversion Hno as [|? ? Hhd Htl]; subst. cbn in Hhd. rewrite Hhd.
  now apply IH.
Qed.

End QueryExpansion.

(** ** Document identity *)

Section Identity.

(** C6, as stated, fails across runs: the identifier is the builtin [hash]
    of the content prefix, which is keyed by the interpreter's hash secret.
    Under [PYTHONHASHSEED=0] and [PYTHONHASHSEED=1] the same document gets
    4644417185603328019 and -3012895188637184397. *)
Lemma C6_counterexample :
  _get_doc_id (RT := cpython (secret_of_seed 0)) (mkdoc "a")
  <> _get_doc_id (RT := cpython (secret_of_seed 1)) (mkdoc "a").
Proof. vm_compute. discriminate. Qed.

(** C6, amended: within one run of the program (one interpreter, hence one
    [hash] function) the identifier is a function of the first 100 characters
    of the content alone: two documents whose contents agree on that prefix,
    in particular two documents with identical content, have equal
    identifiers, whatever their metadata. *)
Theorem C6_doc_id_function_of_prefix :
  forall (RT : PyRuntime) (d1 d2 : Document),
    prefix 100 (page_content d1) = prefix 100 (page_content d2) ->
    _get_doc_id d1 = _get_doc_id d2.
Proof.
  intros RT d1 d2 Hpre. unfold _get_doc_id. now rewrite Hpre.
Qed.

Lemma C6_doc_id_function_of_prefix_witness :
  prefix 100 (page_content (mkdoc "alpha"))
  = prefix 100 (page_content {| page_content := u "alpha";
                                metadata := [(u "source", u "b.pdf")] |})
  /\ _get_doc_id (RT := cpython (secret_of_seed 0)) (mkdoc "alpha")
     = _get_doc_id (RT := cpython (secret_of_seed 0))
         {| page_content := u "alpha"; metadata := [(u "source", u "b.pdf")] |}.
Proof.
  split; [reflexivity|].
  apply (@C6_doc_id_function_of_prefix (cpython (secret_of_seed 0))).
  reflexivity.
Defined.

End Identity.

(** ** Exact arithmetic: the comparisons of the [exact] instance *)

Section ExactFacts.

Lemma exact_gtb_true (x y : Q) : f_gtb (F := Q) x y = true <-> (y < x)%Q.
Proof.
  unfold f_gtb; cbn. rewrite negb_true_iff.
  split; intros Hxy.
  - apply Qnot_le_lt. intros Hle. apply Qle_bool_iff in Hle. congruence.
  - destruct (Qle_bool x y) eqn:E; [|reflexivity].
    apply Qle_bool_iff in E. exfalso. apply (Qlt_not_le _ _ Hxy E).
Qed.

Lemma exact_gtb_false (x y : Q) : f_gtb (F := Q) x y = false <-> (x <= y)%Q.
Proof.
  unfold f_gtb; cbn. rewrite negb_false_iff. apply Qle_bool_iff.
Qed.

Lemma exact_ltb_false (x y : Q) : f_ltb (PyFloat := exact) x y = false <-> (y <= x)%Q.
Proof. apply (exact_gtb_false y x). Qed.

Lemma exact_ltb_true (x y : Q) : f_ltb (PyFloat := exact) x y = true <-> (x < y)%Q.
Proof. apply (exact_gtb_true y x). Qed.

Lemma exact_truediv_zero (x y : Q) :
  (y == 0)%Q -> truediv x y = Raise ZeroDivisionError.
Proof.
  intros Hy. unfold truediv; cbn.
  apply Qeq_bool_iff in Hy. now rewrite Hy.
Qed.

Lemma exact_truediv_nonzero (x y : Q) :
  ~ (y == 0)%Q -> truediv x y = Ok (x / y)%Q.
Proof.
  intros Hy. unfold truediv; cbn.
  destruct (Qeq_bool y 0) eqn:E; [|reflexivity].
  apply Qeq_bool_iff in E. contradiction.
Qed.

End ExactFacts.

(** ** Construction *)

Section Construction.

(** None of the attributes the constructors assign is a field of the
    model. *)
Lemma setattr_rejects_the_attributes :
  Forall (fun name => __setattr__ name = Raise ValueError)
    ["vectorstore"; "bm25_retriever"; "vector_weight"; "bm25_weight"; "k";
     "query_expansion"; "rerank"]%string.
Proof. repeat constructor. Qed.

(** C2: the constructor does not get as far as the weights.  Its first
    assignment, [self.vectorstore = vectorstore], raises [ValueError] for
    every pair of weights, in any float arithmetic: no object is
    constructed, so no weights are stored, rescaled or not.  The rescaling
    under the comment that the weights sum to 1 is never reached. *)
Theorem C2_constructor_raises_before_the_weights_are_stored :
  forall (F : Type) (FO : PyFloat F) vs bm (vw bw : F) (kk : Z),
    HybridRetriever.__init__ vs bm vw bw kk = Raise ValueError.
Proof. intros F FO vs bm vw bw kk. reflexivity. Qed.

(** C5: the well-formed configuration [(0.7, 0.3, k = 10)] is rejected, with
    [ValueError]; so is every other configuration of either class, the
    weights [(0.0, 0.0)] included, and none is constructed. *)
Theorem C5_well_formed_configuration_is_rejected :
  (forall vs bm,
      HybridRetriever.__init__ (F := float) vs bm 0.7%float 0.3%float 10
      = Raise ValueError)
  /\ (forall vs bm (kk : Z),
         HybridRetriever.__init__ (F := float) vs bm 0%float 0%float kk
         = Raise ValueError)
  /\ (forall (F : Type) (FO : PyFloat F) vs bm (vw bw : F) (kk : Z),
         (forall r, HybridRetriever.__init__ vs bm vw bw kk <> Ok r)
         /\ (forall a, AdvancedHybridRetriever.__init__ vs bm vw bw kk <> Ok a)).
Proof.
  split; [reflexivity|]. split; [reflexivity|].
  intros F FO vs bm vw bw kk. split; intros x; discriminate.
Qed.

End Construction.

(** ** The relevance score of the reranker *)

Section RelevanceScore.
Context {F : Type} {FO : PyFloat F} {RT : PyRuntime}.

Lemma len_zero_iff (A : Type) (l : list A) : len l = 0 <-> l = [].
Proof.
  unfold len. destruct l as [|x l]; cbn [List.length]; split; intros E;
    try reflexivity; try discriminate E; lia.
Qed.

Lemma set_inter_nil_r (a : list str) : set_inter a [] = [].
Proof.
  unfold set_inter. induction a as [|t a IH]; cbn; [reflexivity|exact IH].
Qed.

Lemma term_set_NoDup (s : str) : NoDup (term_set s).
Proof. apply NoDup_nodup. Qed.

Lemma set_union_nil_r (a : list str) : NoDup a -> set_union a [] = a.
Proof.
  intros Ha. unfold set_union. rewrite app_nil_r. now apply nodup_fixed_point.
Qed.

Lemma truediv_int_nonzero (a b : Z) :
  b <> 0 -> truediv_int a b = Ok (f_div (f_of_int a) (f_of_int b)).
Proof.
  intros Hb. unfold truediv_int.
  destruct (Z.eqb_spec b 0) as [E|_]; [contradiction|reflexivity].
Qed.

Lemma truediv_int_zero (a : Z) : truediv_int a 0 = Raise ZeroDivisionError.
Proof. reflexivity. Qed.

(** On a document without text the score is [0.0] when the query has no
    term, and the division by the text length raises otherwise. *)
Lemma relevance_score_empty_text (query_terms : list str) (d : Document) :
  lower [] = [] -> NoDup query_terms -> page_content d = [] ->
  calculate_relevance_score query_terms d =
    match query_terms with
    | [] => Ok f_0
    | _ :: _ => Raise ZeroDivisionError
    end.
Proof.
  intros Hlow Hnd Hd. unfold calculate_relevance_score, term_set.
  rewrite Hd, Hlow. cbn [findall_words findall_from flush nodup].
  rewrite set_inter_nil_r, (set_union_nil_r Hnd).
  destruct query_terms as [|t q]; [reflexivity|].
  destruct (Z.eqb_spec (len (t :: q)) 0) as [E|Hne].
  - apply len_zero_iff in E. discriminate E.
  - rewrite (truediv_int_nonzero _ Hne). reflexivity.
Qed.

(** On a document with text every division has a non-zero divisor. *)
Lemma relevance_score_nonempty_text (query_terms : list str) (d : Document) :
  lower (page_content d) <> [] ->
  exists score, calculate_relevance_score query_terms d = Ok score.
Proof.
  intros Hd. unfold calculate_relevance_score.
  destruct (Z.eqb_spec (len (set_union query_terms (term_set (page_content d)))) 0)
    as [_|Hne]; [eexists; reflexivity|].
  rewrite (truediv_int_nonzero _ Hne). cbn [bind].
  rewrite truediv_int_nonzero.
  - eexists; reflexivity.
  - intros E. apply len_zero_iff in E. contradiction.
Qed.

(** C10: on a document whose content is the empty string the relevance
    computation returns [0.0] only when the query has no term; for every
    query with at least one term the division of the term count by the text
    length raises [ZeroDivisionError].  On every document with text the
    computation returns a score.  ([str.lower] maps the empty string, and
    only the empty string, to the empty string.) *)
Theorem C10_relevance_score_total_only_on_nonempty_text :
  (forall s, lower s = [] <-> s = []) ->
  forall (query : str) (d : Document),
    (page_content d = [] -> term_set query <> [] ->
     calculate_relevance_score (term_set query) d = Raise ZeroDivisionError)
    /\ (page_content d = [] -> term_set query = [] ->
        calculate_relevance_score (term_set query) d = Ok f_0)
    /\ (page_content d <> [] ->
        exists score, calculate_relevance_score (term_set query) d = Ok score).
Proof.
  intros Hlow query d.
  assert (Hnil : lower [] = []) by now apply Hlow.
  split; [|split].
  - intros Hd Hq.
    rewrite (relevance_score_empty_text d Hnil (term_set_NoDup query) Hd).
    destruct (term_set query) as [|t q] eqn:E; [now elim Hq|reflexivity].
  - intros Hd Hq.
    rewrite (relevance_score_empty_text d Hnil (term_set_NoDup query) Hd).
    now rewrite Hq.
  - intros Hd. apply relevance_score_nonempty_text.
    intros E. apply (proj1 (Hlow _)) in E. contradiction.
Qed.

End RelevanceScore.

Section RelevanceScoreInstances.

Lemma cpython_lower_empty (k : secret) (s : str) :
  lower (PyRuntime := cpython k) s = [] <-> s = [].
Proof.
  cbn. split; intros E.
  - now apply map_eq_nil in E.
  - now rewrite E.
Qed.

Lemma C10_relevance_score_total_only_on_nonempty_text_witness :
  (forall s, lower (PyRuntime := cpython (secret_of_seed 0)) s = [] <-> s = [])
  /\ calculate_relevance_score (F := float) (RT := cpython (secret_of_seed 0))
       (term_set (RT := cpython (secret_of_seed 0)) (u "stock price"))
       (mkdoc "")
     = Raise ZeroDivisionError.
Proof.
  split; [exact (cpython_lower_empty (secret_of_seed 0))|].
  apply (proj1 (@C10_relevance_score_total_only_on_nonempty_text
                  float binary64 (cpython (secret_of_seed 0))
                  (cpython_lower_empty (secret_of_seed 0))
                  (u "stock price") (mkdoc ""))).
  - reflexivity.
  - vm_compute. discriminate.
Defined.

(** C8 fails on the code at this input: a candidate list holding a document
    with empty content, and a query with a term.  The score computation
    raises, so [_rerank_documents] returns no list at all. *)
Theorem C8_rerank_raises_on_empty_document :
  _rerank_documents (F := float) (RT := cpython (secret_of_seed 0))
    [mkdoc ""] (u "a")
  = Raise ZeroDivisionError.
Proof. vm_compute. reflexivity. Qed.

End RelevanceScoreInstances.

(** ** The insertion-ordered dictionary *)

Section DictFacts.
Variable V : Type.
Implicit Types (d : dict V) (key : Z) (v : V).

Lemma dict_get_set d key v key' :
  dict_get (dict_set d key v) key' =
    if key =? key' then Some v else dict_get d key'.
Proof.
  induction d as [|[k0 v0] d IH]; cbn.
  - destruct (Z.eqb_spec key key'); reflexivity.
  - destruct (Z.eqb_spec k0 key) as [E|N]; cbn.
    + subst k0. destruct (Z.eqb_spec key key'); reflexivity.
    + destruct (Z.eqb_spec k0 key') as [E'|N'].
      * subst k0. destruct (Z.eqb_spec key key'); [congruence|reflexivity].
      * exact IH.
Qed.

Lemma dict_mem_existsb d key :
  dict_mem d key = existsb (Z.eqb key) (dict_keys d).
Proof.
  unfold dict_mem. induction d as [|[k0 v0] d IH]; cbn; [reflexivity|].
  rewrite (Z.eqb_sym key k0).
  destruct (k0 =? key); cbn; [reflexivity|exact IH].
Qed.

Lemma dict_keys_set d key v :
  dict_keys (dict_set d key v) = add_key (dict_keys d) key.
Proof.
  unfold add_key, dict_keys. induction d as [|[k0 v0] d IH]; cbn; [reflexivity|].
  rewrite (Z.eqb_sym key k0).
  destruct (k0 =? key); cbn; [reflexivity|].
  rewrite IH. now destruct (existsb (Z.eqb key) (map fst d)).
Qed.

Lemma dict_get_None d key :
  dict_get d key = None <-> ~ In key (dict_keys d).
Proof.
  induction d as [|[k0 v0] d IH]; cbn.
  - tauto.
  - destruct (Z.eqb_spec k0 key) as [E|N].
    + split; [discriminate|]. intros Hn. exfalso. apply Hn. now left.
    + rewrite IH. tauto.
Qed.


Lemma dict_In_get d key v :
  NoDup (dict_keys d) -> In (key, v) d -> dict_get d key = Some v.
Proof.
  induction d as [|[k0 v0] d IH]; cbn; intros Hnd Hin; [contradiction|].
  inversion Hnd as [|? ? Hnotin Hnd']; subst.
  destruct Hin as [E|Hin].
  - injection E as -> ->. now rewrite Z.eqb_refl.
  - destruct (Z.eqb_spec k0 key) as [E|_]; [|now apply IH].
    subst. exfalso. apply Hnotin. now apply (in_map fst) in Hin.
Qed.

Lemma dict_get_In d key v : dict_get d key = Some v -> In (key, v) d.
Proof.
  induction d as [|[k0 v0] d IH]; cbn; [discriminate|].
  destruct (Z.eqb_spec k0 key) as [E|_].
  - intros E'. injection E' as ->. left. now subst.
  - intros E'. right. now apply IH.
Qed.

End DictFacts.

(** ** Identifiers in order of first appearance *)

Section FirstOccurrences.

Lemma existsb_eqb_In (x : Z) (l : list Z) :
  existsb (Z.eqb x) l = true <-> In x l.
Proof.
  rewrite existsb_exists. split.
  - intros [y [Hin E]]. apply Z.eqb_eq in E. now subst.
  - intros Hin. exists x. split; [exact Hin|apply Z.eqb_refl].
Qed.

Lemma add_key_In (keys : list Z) (id x : Z) :
  In x (add_key keys id) <-> In x keys \/ x = id.
Proof.
  unfold add_key. destruct (existsb (Z.eqb id) keys) eqn:E.
  - apply existsb_eqb_In in E. split; [tauto|].
    intros [Hin| ->]; assumption.
  - rewrite in_app_iff. cbn. intuition congruence.
Qed.

Lemma add_key_NoDup (keys : list Z) (id : Z) :
  NoDup keys -> NoDup (add_key keys id).
Proof.
  intros Hnd. unfold add_key. destruct (existsb (Z.eqb id) keys) eqn:E.
  - exact Hnd.
  - apply NoDup_app; [exact Hnd|repeat constructor; intros []|].
    intros x Hin [<- |[]].
    apply existsb_eqb_In in Hin. congruence.
Qed.

Lemma fold_add_key_In (ids keys : list Z) (x : Z) :
  In x (fold_left add_key ids keys) <-> In x keys \/ In x ids.
Proof.
  revert keys. induction ids as [|id ids IH]; intros keys; cbn.
  - tauto.
  - rewrite IH, add_key_In. intuition congruence.
Qed.

Lemma fold_add_key_NoDup (ids keys : list Z) :
  NoDup keys -> NoDup (fold_left add_key ids keys).
Proof.
  revert keys. induction ids as [|id ids IH]; intros keys Hnd; cbn.
  - exact Hnd.
  - apply IH. now apply add_key_NoDup.
Qed.



Lemma first_occurrences_length (ids : list Z) :
  List.length (first_occurrences ids) = List.length (nodup Z.eq_dec ids).
Proof.
  apply Permutation_length, NoDup_Permutation.
  - apply fold_add_key_NoDup. constructor.
  - apply NoDup_nodup.
  - intros x. unfold first_occurrences.
    rewrite fold_add_key_In, nodup_In. cbn. tauto.
Qed.

End FirstOccurrences.

(** ** The two loops of [_combine_results] *)

Section FusionFacts.
Context {F : Type} {FO : PyFloat F} {RT : PyRuntime}.
Implicit Types (vector_docs : list (Document * F)) (bm25_docs : list Document).

Lemma truediv_normalizable (d : F) :
  normalizable d -> truediv f_1 (f_add f_1 d) = Ok (similarity d).
Proof. intros Hd. unfold truediv. now rewrite Hd. Qed.

Lemma truediv_rank (i : Z) :
  0 <= i -> truediv_float_int f_1 (i + 1) = Ok (rank_score i).
Proof.
  intros Hi. unfold truediv_float_int.
  destruct (Z.eqb_spec (i + 1) 0) as [E|_]; [lia|reflexivity].
Qed.

Lemma last_hit_Some id vector_docs h :
  last_hit id vector_docs = Some h ->
  In h vector_docs /\ _get_doc_id (fst h) = id.
Proof.
  induction vector_docs as [|h0 rest IH]; cbn; [discriminate|].
  destruct (last_hit id rest) as [h'|].
  - intros E. injection E as <-. destruct (IH eq_refl). tauto.
  - destruct (Z.eqb_spec (_get_doc_id (fst h0)) id) as [E|_]; [|discriminate].
    intros E'. injection E' as <-. tauto.
Qed.

Lemma last_hit_None id vector_docs :
  last_hit id vector_docs = None <->
  ~ In id (map (fun h => _get_doc_id (fst h)) vector_docs).
Proof.
  induction vector_docs as [|h0 rest IH]; cbn; [tauto|].
  destruct (last_hit id rest) as [h'|].
  - split; [discriminate|]. intros Hn. exfalso.
    destruct IH as [_ IH]. assert (Some h' = None); [|discriminate].
    apply IH. tauto.
  - destruct (Z.eqb_spec (_get_doc_id (fst h0)) id) as [E|N].
    + split; [discriminate|tauto].
    + destruct IH as [IH _]. specialize (IH eq_refl). tauto.
Qed.

Lemma last_rank_Some i id bm25_docs r :
  last_rank i id bm25_docs = Some r ->
  i <= r /\ exists d, first_doc id bm25_docs = Some d.
Proof.
  revert i. induction bm25_docs as [|d0 rest IH]; intros i; cbn; [discriminate|].
  destruct (last_rank (i + 1) id rest) as [r'|] eqn:Hrest.
  - intros E. injection E as <-. destruct (IH _ Hrest) as [Hle [d Hd]].
    split; [lia|]. destruct (_get_doc_id d0 =? id); eauto.
  - destruct (_get_doc_id d0 =? id); [|discriminate].
    intros E. injection E as <-. split; [lia|eauto].
Qed.

Lemma last_rank_None i id bm25_docs :
  last_rank i id bm25_docs = None <-> ~ In id (map _get_doc_id bm25_docs).
Proof.
  revert i. induction bm25_docs as [|d0 rest IH]; intros i; cbn; [tauto|].
  destruct (last_rank (i + 1) id rest) as [r'|] eqn:Hrest.
  - split; [discriminate|]. intros Hn. exfalso.
    assert (Some r' = None); [|discriminate].
    rewrite <- Hrest. apply IH. tauto.
  - apply IH in Hrest.
    destruct (Z.eqb_spec (_get_doc_id d0) id) as [E|N].
    + split; [discriminate|tauto].
    + tauto.
Qed.

Lemma first_doc_Some id bm25_docs d :
  first_doc id bm25_docs = Some d -> In d bm25_docs /\ _get_doc_id d = id.
Proof.
  unfold first_doc. intros E. apply find_some in E.
  destruct E as [Hin E]. apply Z.eqb_eq in E. tauto.
Qed.

(** The vector loop. *)
Lemma vector_pass_spec vector_docs (d0 : dict Scores) :
  Forall (fun h => normalizable (snd h)) vector_docs ->
  exists out,
    vector_pass vector_docs d0 = Ok out
    /\ dict_keys out =
         fold_left add_key (map (fun h => _get_doc_id (fst h)) vector_docs)
           (dict_keys d0)
    /\ forall id,
         dict_get out id =
           match last_hit id vector_docs with
           | Some h => Some {| doc := fst h; vector_score := similarity (snd h);
                               bm25_score := f_0 |}
           | None => dict_get d0 id
           end.
Proof.
  revert d0. induction vector_docs as [|[d score] rest IH]; intros d0 Hok.
  - exists d0. split; [reflexivity|]. split; [reflexivity|].
    intros id. reflexivity.
  - inversion Hok as [|? ? Hscore Hrest]; subst. cbn in Hscore.
    cbn [vector_pass]. rewrite (truediv_normalizable Hscore). cbn [bind].
    destruct (IH (dict_set d0 (_get_doc_id d)
                    {| doc := d; vector_score := similarity score;
                       bm25_score := f_0 |}) Hrest)
      as [out [Hout [Hkeys Hget]]].
    exists out. split; [exact Hout|]. split.
    + rewrite Hkeys, dict_keys_set. reflexivity.
    + intros id. rewrite Hget, dict_get_set. cbn [last_hit fst snd].
      destruct (last_hit id rest); [reflexivity|].
      destruct (_get_doc_id d =? id); reflexivity.
Qed.

(** The keyword loop. *)
Lemma bm25_pass_spec bm25_docs (i : Z) (d0 : dict Scores) :
  0 <= i ->
  exists out,
    bm25_pass i bm25_docs d0 = Ok out
    /\ dict_keys out = fold_left add_key (map _get_doc_id bm25_docs) (dict_keys d0)
    /\ forall id, dict_get out id = bm25_update i id bm25_docs (dict_get d0 id).
Proof.
  revert i d0. induction bm25_docs as [|d rest IH]; intros i d0 Hi.
  - exists d0. split; [reflexivity|]. split; [reflexivity|].
    intros id. reflexivity.
  - cbn [bm25_pass]. rewrite (truediv_rank Hi). cbn [bind].
    set (d1 := match dict_get d0 (_get_doc_id d) with
               | Some s => dict_set d0 (_get_doc_id d) _
               | None => dict_set d0 (_get_doc_id d) _
               end).
    destruct (IH (i + 1) d1 ltac:(lia)) as [out [Hout [Hkeys Hget]]].
    exists out. split; [exact Hout|]. split.
    + rewrite Hkeys. cbn [map fold_left]. f_equal. subst d1.
      destruct (dict_get d0 (_get_doc_id d)); apply dict_keys_set.
    + intros id. rewrite Hget. unfold bm25_update, first_doc.
      cbn [last_rank find].
      assert (Hd1 : dict_get d1 id =
                    if _get_doc_id d =? id then
                      match dict_get d0 (_get_doc_id d) with
                      | Some s => Some {| doc := doc s;
                                          vector_score := vector_score s;
                                          bm25_score := rank_score i |}
                      | None => Some {| doc := d; vector_score := f_0;
                                        bm25_score := rank_score i |}
                      end
                    else dict_get d0 id).
      { subst d1. destruct (dict_get d0 (_get_doc_id d));
          rewrite dict_get_set; destruct (_get_doc_id d =? id); reflexivity. }
      rewrite Hd1.
      destruct (Z.eqb_spec (_get_doc_id d) id) as [E|N].
      * rewrite E. destruct (last_rank (i + 1) id rest) as [r|];
          destruct (dict_get d0 id) as [s|]; reflexivity.
      * destruct (last_rank (i + 1) id rest) as [r|]; reflexivity.
Qed.

(** The fused table: its keys are the matched identifiers in order of first
    appearance, its values are given by [fused_entry]. *)
Lemma fuse_spec vector_docs bm25_docs :
  Forall (fun h => normalizable (snd h)) vector_docs ->
  exists doc_scores,
    fuse vector_docs bm25_docs = Ok doc_scores
    /\ dict_keys doc_scores = first_occurrences (matched_ids vector_docs bm25_docs)
    /\ forall id, dict_get doc_scores id = fused_entry vector_docs bm25_docs id.
Proof.
  intros Hok. unfold fuse.
  destruct (vector_pass_spec [] Hok) as [d1 [H1 [Hk1 Hg1]]].
  rewrite H1. cbn [bind].
  destruct (bm25_pass_spec bm25_docs d1 (Z.le_refl 0)) as [d2 [H2 [Hk2 Hg2]]].
  exists d2. split; [exact H2|]. split.
  - rewrite Hk2, Hk1. unfold first_occurrences, matched_ids.
    now rewrite fold_left_app.
  - intros id. rewrite Hg2, Hg1. unfold fused_entry. cbn [dict_get].
    reflexivity.
Qed.

Lemma fused_entry_doc_id vector_docs bm25_docs id s :
  fused_entry vector_docs bm25_docs id = Some s -> _get_doc_id (doc s) = id.
Proof.
  unfold fused_entry, bm25_update.
  destruct (last_hit id vector_docs) as [h|] eqn:Hh.
  - apply last_hit_Some in Hh. destruct Hh as [_ Hid].
    destruct (last_rank 0 id bm25_docs); intros E; injection E as <-; exact Hid.
  - destruct (last_rank 0 id bm25_docs); [|discriminate].
    destruct (first_doc id bm25_docs) as [d|] eqn:Hd; [|discriminate].
    apply first_doc_Some in Hd. intros E; injection E as <-. tauto.
Qed.

(** The two score components of a matched identifier. *)
Lemma fused_entry_matched vector_docs bm25_docs id :
  In id (matched_ids vector_docs bm25_docs) ->
  exists s,
    fused_entry vector_docs bm25_docs id = Some s
    /\ vector_score s =
         match last_hit id vector_docs with
         | Some h => similarity (snd h)
         | None => f_0
         end
    /\ bm25_score s =
         match last_rank 0 id bm25_docs with
         | Some r => rank_score r
         | None => f_0
         end.
Proof.
  intros Hin. unfold fused_entry, bm25_update.
  destruct (last_hit id vector_docs) as [h|] eqn:Hh;
    destruct (last_rank 0 id bm25_docs) as [r|] eqn:Hr.
  - eexists. repeat split.
  - eexists. repeat split.
  - destruct (last_rank_Some _ _ _ Hr) as [_ [d Hd]]. rewrite Hd.
    eexists. repeat split.
  - exfalso. apply last_hit_None in Hh. apply last_rank_None in Hr.
    unfold matched_ids in Hin. apply in_app_or in Hin. tauto.
Qed.

Lemma fused_entry_unmatched vector_docs bm25_docs id :
  ~ In id (matched_ids vector_docs bm25_docs) ->
  fused_entry vector_docs bm25_docs id = None.
Proof.
  intros Hn. unfold fused_entry, bm25_update.
  assert (Hh : last_hit id vector_docs = None).
  { apply last_hit_None. intros Hin. apply Hn, in_or_app. now left. }
  assert (Hr : last_rank 0 id bm25_docs = None).
  { apply last_rank_None. intros Hin. apply Hn, in_or_app. now right. }
  now rewrite Hh, Hr.
Qed.

End FusionFacts.

(** ** Sorting and slicing *)

Section SortFacts.
Context {F : Type} {FO : PyFloat F}.
Variable A : Type.
Variable key : A -> F.

Let not_below (a b : A) : Prop := f_ltb (key a) (key b) = false.

Lemma insert_desc_perm (x : A) (l : list A) :
  Permutation (insert_desc key x l) (x :: l).
Proof.
  induction l as [|y l IH]; cbn; [reflexivity|].
  destruct (f_ltb (key x) (key y)); [|reflexivity].
  rewrite IH. apply perm_swap.
Qed.

Lemma sort_desc_perm (l : list A) : Permutation (sort_desc key l) l.
Proof.
  induction l as [|x l IH]; cbn; [reflexivity|].
  rewrite insert_desc_perm. now constructor.
Qed.

Lemma sort_desc_length (l : list A) :
  List.length (sort_desc key l) = List.length l.
Proof. apply Permutation_length, sort_desc_perm. Qed.

(** A list that is already in descending order is left as it is: equal keys
    keep their input order. *)
Lemma sort_desc_sorted (l : list A) :
  Sorted not_below l -> sort_desc key l = l.
Proof.
  induction 1 as [|x l Hl IH Hhd]; cbn; [reflexivity|].
  rewrite IH. destruct Hhd as [|y l' Hxy]; cbn; [reflexivity|].
  unfold not_below in Hxy. now rewrite Hxy.
Qed.

(** The sorted result is in descending order when [<] orders the keys: it
    is asymmetric, and [not (x < y)] passes through every comparable key (for
    binary64: every key that is not NaN). *)
Section Ordered.
Variable comparable : F -> Prop.
Hypothesis ltb_asym : forall x y : F, f_ltb x y = true -> f_ltb y x = false.
Hypothesis ltb_negtrans :
  forall x y z : F,
    comparable y -> f_ltb x y = false -> f_ltb y z = false -> f_ltb x z = false.

Lemma insert_desc_sorted (x : A) (l : list A) :
  Forall (fun a => comparable (key a)) l ->
  StronglySorted not_below l -> StronglySorted not_below (insert_desc key x l).
Proof.
  intros Hc Hs. induction Hs as [|y l Hl IH Hy]; cbn.
  - repeat constructor.
  - inversion Hc as [|? ? Hcy Hcl]; subst.
    destruct (f_ltb (key x) (key y)) eqn:Hxy.
    + constructor; [exact (IH Hcl)|].
      rewrite Forall_forall in *. intros z Hz.
      apply (Permutation_in _ (insert_desc_perm x l)) in Hz.
      destruct Hz as [<- |Hz]; [now apply ltb_asym|now apply Hy].
    + constructor; [now constructor|].
      constructor; [exact Hxy|].
      rewrite Forall_forall in *. intros z Hz.
      apply ltb_negtrans with (y := key y); [exact Hcy|exact Hxy|now apply Hy].
Qed.

Lemma sort_desc_StronglySorted (l : list A) :
  Forall (fun a => comparable (key a)) l ->
  StronglySorted not_below (sort_desc key l).
Proof.
  induction l as [|x l IH]; cbn; intros Hc; [constructor|].
  inversion Hc as [|? ? Hx Hl]; subst.
  apply insert_desc_sorted; [|exact (IH Hl)].
  apply (Permutation_Forall (Permutation_sym (sort_desc_perm l)) Hl).
Qed.

End Ordered.

Lemma slice_to_nonneg (l : list A) (n : Z) :
  0 <= n -> slice_to l n = firstn (Z.to_nat n) l.
Proof.
  intros Hn. unfold slice_to.
  destruct (Z.ltb_spec n 0); [lia|reflexivity].
Qed.

Lemma len_firstn (l : list A) (n : Z) :
  0 <= n -> len (firstn (Z.to_nat n) l) = Z.min n (len l).
Proof.
  intros Hn. unfold len. rewrite length_firstn. lia.
Qed.

End SortFacts.

Section ExactOrder.

Lemma exact_ltb_asym (x y : Q) :
  f_ltb (PyFloat := exact) x y = true -> f_ltb (PyFloat := exact) y x = false.
Proof.
  rewrite exact_ltb_true, exact_ltb_false. apply Qlt_le_weak.
Qed.

Lemma exact_ltb_negtrans (x y z : Q) :
  f_ltb (PyFloat := exact) x y = false ->
  f_ltb (PyFloat := exact) y z = false ->
  f_ltb (PyFloat := exact) x z = false.
Proof.
  rewrite !exact_ltb_false. intros Hyx Hzy. now apply Qle_trans with (y := y).
Qed.

Lemma exact_normalizable (d : Q) : (0 <= d)%Q -> normalizable d.
Proof.
  intros Hd. unfold normalizable. cbn.
  destruct (Qeq_bool (1 + d) 0) eqn:E; [|reflexivity].
  apply Qeq_bool_iff in E. exfalso.
  assert (H1 : (0 < 1 + d)%Q).
  { apply Qlt_le_trans with (y := (1 + 0)%Q); [reflexivity|].
    apply Qplus_le_r. exact Hd. }
  rewrite E in H1. apply (Qlt_irrefl _ H1).
Qed.

Lemma exact_normalizable_all (RT : PyRuntime) (l : list (Document * Q)) :
  Forall (fun h => (0 <= snd h)%Q) l -> Forall (fun h => normalizable (snd h)) l.
Proof.
  apply Forall_impl. intros h. apply exact_normalizable.
Qed.

Lemma descending_exact (l : list (Document * Q)) :
  descending l -> StronglySorted (fun a b => (snd b <= snd a)%Q) l.
Proof.
  unfold descending. induction 1 as [|a l Hl IH Ha]; constructor; [exact IH|].
  revert Ha. apply Forall_impl. intros b. apply exact_ltb_false.
Qed.

End ExactOrder.

(** ** Binary64: the order of the floats *)

Section SpecFloatOrder.

Ltac cmp_cases :=
  repeat match goal with
    | |- context [Pos.compare_cont Eq ?x ?y] =>
        change (Pos.compare_cont Eq x y) with (Pos.compare x y)
    | H : context [Pos.compare_cont Eq ?x ?y] |- _ =>
        change (Pos.compare_cont Eq x y) with (Pos.compare x y) in H
    end;
  repeat match goal with
    | |- context [Z.compare ?x ?y] => destruct (Z.compare_spec x y)
    | H : context [Z.compare ?x ?y] |- _ => destruct (Z.compare_spec x y)
    | |- context [Pos.compare ?x ?y] => destruct (Pos.compare_spec x y)
    | H : context [Pos.compare ?x ?y] |- _ => destruct (Pos.compare_spec x y)
    end;
  cbn in *; subst; try reflexivity; try discriminate; try lia.

Lemma SFcompare_refl (x : spec_float) :
  x <> S754_nan -> SFcompare x x = Some Eq.
Proof.
  destruct x as [s|s| |s m e]; cbn; intros Hx; try congruence.
  - destruct s; reflexivity.
  - destruct s; rewrite Z.compare_refl, Pos.compare_cont_refl; reflexivity.
Qed.

Lemma SFltb_asym (a b : spec_float) : SFltb a b = true -> SFltb b a = false.
Proof.
  unfold SFltb.
  destruct a as [sa|sa| |sa ma ea], b as [sb|sb| |sb mb eb]; cbn;
    try destruct sa; try destruct sb; cbn; try congruence; cmp_cases.
Qed.

Lemma SFltb_negtrans (a b c : spec_float) :
  b <> S754_nan ->
  SFltb a b = false -> SFltb b c = false -> SFltb a c = false.
Proof.
  unfold SFltb. intros Hb.
  destruct a as [sa|sa| |sa ma ea], b as [sb|sb| |sb mb eb],
    c as [sc|sc| |sc mc ec]; cbn;
    try destruct sa; try destruct sb; try destruct sc; cbn;
    try congruence; cmp_cases.
Qed.

Lemma binary64_is_nan (x : float) :
  is_nan x = false <-> Prim2SF x <> S754_nan.
Proof.
  unfold is_nan. rewrite eqb_spec. unfold SFeqb.
  destruct (Prim2SF x) as [s|s| |s m e] eqn:E.
  - rewrite SFcompare_refl by discriminate. split; [discriminate|reflexivity].
  - rewrite SFcompare_refl by discriminate. split; [discriminate|reflexivity].
  - cbn. split; [discriminate|congruence].
  - rewrite SFcompare_refl by discriminate. split; [discriminate|reflexivity].
Qed.

Lemma binary64_ltb_asym (x y : float) :
  f_ltb (PyFloat := binary64) x y = true ->
  f_ltb (PyFloat := binary64) y x = false.
Proof. cbn. rewrite !ltb_spec. apply SFltb_asym. Qed.

Lemma binary64_ltb_negtrans (x y z : float) :
  is_nan y = false ->
  f_ltb (PyFloat := binary64) x y = false ->
  f_ltb (PyFloat := binary64) y z = false ->
  f_ltb (PyFloat := binary64) x z = false.
Proof.
  cbn. rewrite !ltb_spec. intros Hy. apply SFltb_negtrans.
  now apply binary64_is_nan.
Qed.


End SpecFloatOrder.

(** ** Fusion and retrieval *)

Section Retrieval.

Lemma dict_length_keys (V : Type) (d : dict V) :
  List.length d = List.length (dict_keys d).
Proof. unfold dict_keys. now rewrite length_map. Qed.

(** The result of [_get_relevant_documents] in terms of the fused table. *)
Lemma get_relevant_documents_spec
    (F : Type) (FO : PyFloat F) (RT : PyRuntime)
    (r : HybridRetriever.t (F := F)) (query : str) :
  0 <= k r ->
  Forall (fun h => normalizable (snd h)) (vectorstore r query (k r * 2)) ->
  exists doc_scores,
    fuse (vectorstore r query (k r * 2)) (bm25_retriever r query) = Ok doc_scores
    /\ dict_keys doc_scores =
         first_occurrences
           (matched_ids (vectorstore r query (k r * 2)) (bm25_retriever r query))
    /\ HybridRetriever._get_relevant_documents r query =
         Ok (firstn (Z.to_nat (k r))
               (map fst (sort_desc snd (scored_docs r doc_scores)))).
Proof.
  intros Hk Hok.
  destruct (fuse_spec (bm25_retriever r query) Hok) as [ds [Hfuse [Hkeys _]]].
  exists ds. split; [exact Hfuse|]. split; [exact Hkeys|].
  unfold HybridRetriever._get_relevant_documents, _combine_results.
  rewrite Hfuse. cbn [bind]. now rewrite (slice_to_nonneg _ Hk).
Qed.

(** C1, as stated, fails for a negative [k]: nothing rejects it, and
    [combined_docs[:k]] then drops the last [|k|] documents of the fused
    list.  With [k = -1] and three fused documents, two are returned: more
    than [k], and not the minimum of [k] and the number of unique matched
    documents. *)
Lemma C1_counterexample :
  exists out,
    HybridRetriever._get_relevant_documents (RT := demo_runtime)
      demo_retriever_negative_k (u "report") = Ok out
    /\ len out = 2
    /\ ~ len out <= k demo_retriever_negative_k
    /\ len out
       <> Z.min (k demo_retriever_negative_k)
            (len (unique_matched (RT := demo_runtime)
                    (vectorstore demo_retriever_negative_k (u "report")
                       (k demo_retriever_negative_k * 2))
                    (bm25_retriever demo_retriever_negative_k (u "report")))).
Proof.
  eexists. split; [vm_compute; reflexivity|].
  split; [reflexivity|]. split.
  - vm_compute. intros H. apply H. reflexivity.
  - vm_compute. discriminate.
Qed.

(** C1, amended: for a result count [k >= 0] and backend distances on which
    the normalisation is defined, [_get_relevant_documents] returns a list of at
    most [k] documents whose length is the minimum of [k] and the number of
    unique matched documents of both backends.  The list is the first [k]
    documents of the fused entries put in descending order of combined score:
    in exact arithmetic for all distances [>= 0], and in binary64 whenever no
    combined score is NaN. *)
Theorem C1_result_count_and_order :
  (forall (F : Type) (FO : PyFloat F) (RT : PyRuntime)
          (r : HybridRetriever.t (F := F)) (query : str),
      let vector_docs := vectorstore r query (k r * 2) in
      let bm25_docs := bm25_retriever r query in
      0 <= k r ->
      Forall (fun h => normalizable (snd h)) vector_docs ->
      exists out,
        HybridRetriever._get_relevant_documents r query = Ok out
        /\ len out <= k r
        /\ len out = Z.min (k r) (len (unique_matched vector_docs bm25_docs)))
  /\ (forall (RT : PyRuntime) (r : HybridRetriever.t (F := Q)) (query : str),
         let vector_docs := vectorstore r query (k r * 2) in
         let bm25_docs := bm25_retriever r query in
         0 <= k r ->
         Forall (fun h => (0 <= snd h)%Q) vector_docs ->
         exists doc_scores ranked,
           fuse vector_docs bm25_docs = Ok doc_scores
           /\ Permutation ranked (scored_docs r doc_scores)
           /\ StronglySorted (fun a b => (snd b <= snd a)%Q) ranked
           /\ HybridRetriever._get_relevant_documents r query =
                Ok (firstn (Z.to_nat (k r)) (map fst ranked)))
  /\ (forall (RT : PyRuntime) (r : HybridRetriever.t (F := float)) (query : str),
         let vector_docs := vectorstore r query (k r * 2) in
         let bm25_docs := bm25_retriever r query in
         0 <= k r ->
         Forall (fun h => normalizable (snd h)) vector_docs ->
         exists doc_scores,
           fuse vector_docs bm25_docs = Ok doc_scores
           /\ (Forall (fun p => is_nan (snd p) = false)
                 (scored_docs r doc_scores) ->
               exists ranked,
                 Permutation ranked (scored_docs r doc_scores)
                 /\ StronglySorted
                      (fun a b => (snd a <? snd b)%float = false) ranked
                 /\ HybridRetriever._get_relevant_documents r query =
                      Ok (firstn (Z.to_nat (k r)) (map fst ranked)))).
Proof.
  split; [|split].
  - intros F FO RT r query vector_docs bm25_docs Hk Hok.
    destruct (@get_relevant_documents_spec F FO RT r query Hk Hok)
      as [ds [_ [Hkeys Hout]]].
    eexists. split; [exact Hout|].
    assert (Hlen : len (firstn (Z.to_nat (k r))
                          (map fst (sort_desc snd (scored_docs r ds))))
                   = Z.min (k r) (len (unique_matched vector_docs bm25_docs))).
    { rewrite (len_firstn _ Hk). f_equal. unfold len. f_equal.
      rewrite length_map, sort_desc_length. unfold scored_docs.
      rewrite length_map, dict_length_keys, Hkeys.
      apply first_occurrences_length. }
    split; [rewrite Hlen; lia|exact Hlen].
  - intros RT r query vector_docs bm25_docs Hk Hok.
    destruct (@get_relevant_documents_spec Q exact RT r query Hk
                (exact_normalizable_all RT Hok)) as [ds [Hfuse [_ Hout]]].
    exists ds, (sort_desc snd (scored_docs r ds)).
    split; [exact Hfuse|]. split; [apply sort_desc_perm|].
    split; [|exact Hout].
    apply descending_exact.
    apply (@sort_desc_StronglySorted Q exact _ snd (fun _ => True)).
    + exact exact_ltb_asym.
    + intros x y z _. apply exact_ltb_negtrans.
    + apply Forall_forall. intros; exact I.
  - intros RT r query vector_docs bm25_docs Hk Hok.
    destruct (@get_relevant_documents_spec float binary64 RT r query Hk Hok)
      as [ds [Hfuse [_ Hout]]].
    exists ds. split; [exact Hfuse|]. intros Hnan.
    exists (sort_desc snd (scored_docs r ds)).
    split; [apply sort_desc_perm|]. split; [|exact Hout].
    apply (@sort_desc_StronglySorted float binary64 _ snd
             (fun x => is_nan x = false)).
    + exact binary64_ltb_asym.
    + exact binary64_ltb_negtrans.
    + exact Hnan.
Qed.

Lemma C1_result_count_and_order_witness :
  0 <= k demo_retriever
  /\ Forall (fun h => normalizable (snd h))
       (vectorstore demo_retriever (u "report") (k demo_retriever * 2))
  /\ exists out,
       HybridRetriever._get_relevant_documents (RT := demo_runtime)
         demo_retriever (u "report")
         = Ok out
       /\ len out <= k demo_retriever
       /\ len out =
            Z.min (k demo_retriever)
              (len (unique_matched (RT := demo_runtime)
                      (vectorstore demo_retriever (u "report")
                         (k demo_retriever * 2))
                      (bm25_retriever demo_retriever (u "report")))).
Proof.
  assert (Hk : 0 <= k demo_retriever) by (cbn; lia).
  assert (Hok : Forall (fun h => normalizable (snd h))
                  (vectorstore demo_retriever (u "report")
                     (k demo_retriever * 2)))
    by (repeat constructor).
  split; [exact Hk|]. split; [exact Hok|].
  exact (proj1 C1_result_count_and_order float binary64 demo_runtime
           demo_retriever (u "report") Hk Hok).
Defined.


Lemma fuse_keys_NoDup (F : Type) (FO : PyFloat F) (RT : PyRuntime)
    (vector_docs : list (Document * F)) (bm25_docs : list Document)
    (doc_scores : dict (Scores (F := F))) :
  dict_keys doc_scores = first_occurrences (matched_ids vector_docs bm25_docs) ->
  NoDup (dict_keys doc_scores).
Proof.
  intros ->. apply fold_add_key_NoDup. constructor.
Qed.




End Retrieval.

(** ** Lists in order *)

Section OrderFacts.
Variables (A B : Type).


Lemma StronglySorted_map (R : B -> B -> Prop) (f : A -> B) (l : list A) :
  StronglySorted (fun a b => R (f a) (f b)) l -> StronglySorted R (map f l).
Proof.
  induction 1 as [|x l Hl IH Hx]; cbn; constructor; [exact IH|].
  rewrite Forall_forall in *. intros y Hy.
  apply in_map_iff in Hy. destruct Hy as [z [<- Hz]]. now apply Hx.
Qed.

Lemma StronglySorted_weaken (R R' : A -> A -> Prop) (l : list A) :
  (forall a b, In a l -> In b l -> R a b -> R' a b) ->
  StronglySorted R l -> StronglySorted R' l.
Proof.
  intros Himp Hs. induction Hs as [|x l Hl IH Hx]; constructor.
  - apply IH. intros a b Ha Hb. apply Himp; now right.
  - rewrite Forall_forall in *. intros y Hy.
    apply Himp; [now left|now right|now apply Hx].
Qed.

Lemma StronglySorted_all (R : A -> A -> Prop) (l : list A) :
  (forall a b, In a l -> In b l -> R a b) -> StronglySorted R l.
Proof.
  induction l as [|x l IH]; intros Hall; constructor.
  - apply IH. intros a b Ha Hb. apply Hall; now right.
  - rewrite Forall_forall. intros y Hy. apply Hall; [now left|now right].
Qed.




End OrderFacts.

Section DictUnique.
Variable V : Type.


End DictUnique.

(** ** Deduplication across the two backends *)

Section Deduplication.


Lemma rank_score_pos (r : Z) : 0 <= r -> (0 < rank_score (F := Q) r)%Q.
Proof.
  intros Hr. unfold rank_score. cbn.
  assert (H1 : (0 < inject_Z (r + 1))%Q) by (unfold Qlt; cbn; lia).
  apply Qlt_shift_div_l; [exact H1|].
  rewrite Qmult_0_l. reflexivity.
Qed.

(** Every item of the fused table holds a document of the item's key. *)
Lemma fuse_item_doc_id (F : Type) (FO : PyFloat F) (RT : PyRuntime)
    (vector_docs : list (Document * F)) (bm25_docs : list Document)
    (doc_scores : dict (Scores (F := F))) :
  dict_keys doc_scores = first_occurrences (matched_ids vector_docs bm25_docs) ->
  (forall id, dict_get doc_scores id = fused_entry vector_docs bm25_docs id) ->
  forall item, In item doc_scores -> _get_doc_id (doc (snd item)) = fst item.
Proof.
  intros Hkeys Hget [id s] Hin. cbn.
  apply dict_In_get in Hin;
    [|exact (@fuse_keys_NoDup F FO RT vector_docs bm25_docs doc_scores Hkeys)].
  rewrite Hget in Hin. exact (fused_entry_doc_id _ _ _ Hin).
Qed.

(** The documents of [_combine_results] are those of the fused table. *)
Lemma combine_results_perm (F : Type) (FO : PyFloat F) (RT : PyRuntime)
    (r : HybridRetriever.t (F := F))
    (vector_docs : list (Document * F)) (bm25_docs : list Document)
    (doc_scores : dict (Scores (F := F))) :
  fuse vector_docs bm25_docs = Ok doc_scores ->
  exists out,
    _combine_results r vector_docs bm25_docs = Ok out
    /\ Permutation out (map (fun item => doc (snd item)) doc_scores).
Proof.
  intros Hfuse. unfold _combine_results. rewrite Hfuse. cbn [bind].
  eexists. split; [reflexivity|].
  rewrite (sort_desc_perm snd (scored_docs r doc_scores)).
  unfold scored_docs. rewrite map_map. cbn. reflexivity.
Qed.





End Deduplication.

(** ** The pure-vector configuration *)

Section PureVector.



Section Hits.
Context {F : Type} {FO : PyFloat F} {RT : PyRuntime}.





End Hits.




End PureVector.

Section PureVectorExample.


End PureVectorExample.

(** ** Reranking where it returns *)

Section Reranking.
Context {F : Type} {FO : PyFloat F} {RT : PyRuntime}.

Lemma mapM_scored_fst (f : Document -> result F) (docs : list Document)
    (scored : list (Document * F)) :
  mapM (fun d => score <- f d ;; Ok (d, score)) docs = Ok scored ->
  map fst scored = docs.
Proof.
  revert scored. induction docs as [|d docs IH]; cbn; intros scored E.
  - injection E as <-. reflexivity.
  - destruct (f d) as [x|e]; cbn in E; [|discriminate].
    destruct (mapM (fun d0 => score <- f d0 ;; Ok (d0, score)) docs)
      as [ys|e]; cbn in E; [|discriminate].
    injection E as <-. cbn. f_equal. now apply IH.
Qed.

Lemma mapM_scored_total (f : Document -> result F) (docs : list Document) :
  (forall d, In d docs -> exists x, f d = Ok x) ->
  exists scored, mapM (fun d => score <- f d ;; Ok (d, score)) docs = Ok scored.
Proof.
  induction docs as [|d docs IH]; cbn; intros Hall; [eexists; reflexivity|].
  destruct (Hall d (or_introl eq_refl)) as [x ->]. cbn.
  destruct IH as [ys ->]; [intros d' Hd'; apply Hall; now right|].
  cbn. eexists; reflexivity.
Qed.

(** When [_rerank_documents] returns, its result is a rearrangement of the
    candidates. *)
Lemma rerank_documents_permutation (docs out : list Document) (query : str) :
  _rerank_documents docs query = Ok out -> Permutation docs out.
Proof.
  unfold _rerank_documents.
  destruct (mapM _ docs) as [scored|e] eqn:E; cbn; [|discriminate].
  intros E'. injection E' as <-.
  rewrite <- (mapM_scored_fst _ _ E).
  apply Permutation_map. symmetry. apply sort_desc_perm.
Qed.

(** It returns whenever every candidate has text. *)
Lemma rerank_documents_returns (docs : list Document) (query : str) :
  (forall d, In d docs -> lower (page_content d) <> []) ->
  exists out, _rerank_documents docs query = Ok out.
Proof.
  intros Htext. unfold _rerank_documents.
  destruct (mapM_scored_total
              (calculate_relevance_score (term_set query)) docs) as [scored ->].
  - intros d Hd. apply relevance_score_nonempty_text. now apply Htext.
  - cbn. eexists; reflexivity.
Qed.

(** The only exception of the score is that of its divisions. *)
Lemma relevance_score_raises (query_terms : list str) (d : Document) (e : exn) :
  calculate_relevance_score (F := F) query_terms d = Raise e ->
  e = ZeroDivisionError.
Proof.
  unfold calculate_relevance_score, truediv_int.
  repeat match goal with
         | |- context [if ?c then _ else _] => destruct c; cbn [bind]
         end; congruence.
Qed.

Lemma mapM_scored_raises (f : Document -> result F) (docs : list Document)
    (d : Document) :
  (forall d0 e, f d0 = Raise e -> e = ZeroDivisionError) ->
  In d docs -> f d = Raise ZeroDivisionError ->
  mapM (fun d => score <- f d ;; Ok (d, score)) docs = Raise ZeroDivisionError.
Proof.
  intros Hexn.
  induction docs as [|d0 docs IH]; cbn; intros Hin Hd; [contradiction|].
  destruct (f d0) as [x|e] eqn:E0; cbn; [|now rewrite (Hexn d0 e E0)].
  destruct Hin as [-> |Hin]; [congruence|].
  now rewrite (IH Hin Hd).
Qed.

Lemma mapM_scored_exn (f : Document -> result F) (docs : list Document)
    (e : exn) :
  (forall d0 e0, f d0 = Raise e0 -> e0 = ZeroDivisionError) ->
  mapM (fun d => score <- f d ;; Ok (d, score)) docs = Raise e ->
  e = ZeroDivisionError.
Proof.
  intros Hexn. induction docs as [|d0 docs IH]; cbn; [discriminate|].
  destruct (f d0) as [x|e0] eqn:E0; cbn.
  - destruct (mapM (fun d => score <- f d ;; Ok (d, score)) docs) as [ys|e1];
      cbn; [discriminate|].
    intros E. injection E as <-. now apply IH.
  - intros E. injection E as <-. exact (Hexn d0 e0 E0).
Qed.

Lemma rerank_documents_exn (docs : list Document) (query : str) (e : exn) :
  _rerank_documents (F := F) docs query = Raise e -> e = ZeroDivisionError.
Proof.
  unfold _rerank_documents.
  destruct (mapM _ docs) as [scored|e0] eqn:E; cbn [bind]; [discriminate|].
  intros E'. injection E' as <-.
  exact (mapM_scored_exn _ docs (relevance_score_raises (term_set query)) E).
Qed.

(** It raises as soon as one candidate has no text and the query has a
    term. *)
Lemma rerank_documents_raises (docs : list Document) (query : str)
    (d : Document) :
  lower [] = [] ->
  In d docs -> page_content d = [] -> term_set query <> [] ->
  _rerank_documents docs query = Raise ZeroDivisionError.
Proof.
  intros Hlow Hin Hd Hq. unfold _rerank_documents.
  rewrite (mapM_scored_raises _ _ d (relevance_score_raises (term_set query))
             Hin); [reflexivity|].
  rewrite (relevance_score_empty_text d Hlow (term_set_NoDup query) Hd).
  destruct (term_set query); [contradiction|reflexivity].
Qed.

(** The sort is stable: among elements whose keys do not compare below one
    another, the input order is kept. *)
Lemma insert_desc_filter (A : Type) (key : A -> F) (p : A -> bool)
    (x : A) (l : list A) :
  (forall a b, p a = true -> p b = true -> f_ltb (key a) (key b) = false) ->
  filter p (insert_desc key x l) = filter p (x :: l).
Proof.
  intros Hp. induction l as [|y l IH]; [reflexivity|].
  cbn [insert_desc]. destruct (f_ltb (key x) (key y)) eqn:Hxy; [|reflexivity].
  cbn [filter]. rewrite IH. cbn [filter].
  destruct (p x) eqn:Hx, (p y) eqn:Hy; try reflexivity.
  rewrite (Hp x y Hx Hy) in Hxy. discriminate.
Qed.

Lemma sort_desc_stable (A : Type) (key : A -> F) (p : A -> bool) (l : list A) :
  (forall a b, p a = true -> p b = true -> f_ltb (key a) (key b) = false) ->
  filter p (sort_desc key l) = filter p l.
Proof.
  intros Hp. induction l as [|x l IH]; [reflexivity|].
  cbn [sort_desc]. rewrite (insert_desc_filter _ _ _ _ Hp). cbn [filter].
  now rewrite IH.
Qed.

End Reranking.

(** ** Deduplication in the advanced retriever *)

Section DeduplicateDocs.
Context {RT : PyRuntime}.

Lemma deduplicate_from_spec (seen : list Z) (docs : list Document) :
  NoDup (map _get_doc_id (deduplicate_from seen docs))
  /\ (forall d, In d (deduplicate_from seen docs) ->
        In d docs /\ ~ In (_get_doc_id d) seen)
  /\ (forall d, In d docs -> ~ In (_get_doc_id d) seen ->
        In (_get_doc_id d) (map _get_doc_id (deduplicate_from seen docs))).
Proof.
  revert seen. induction docs as [|d0 docs IH]; intros seen; cbn.
  - split; [constructor|]. split; [intros d []|intros d []].
  - destruct (existsb (Z.eqb (_get_doc_id d0)) seen) eqn:E.
    + apply existsb_eqb_In in E.
      destruct (IH seen) as [Hnd [Hsub Hcov]].
      split; [exact Hnd|]. split.
      * intros d Hd. destruct (Hsub d Hd). tauto.
      * intros d [<- |Hd] Hn; [contradiction|now apply Hcov].
    + assert (Hnot : ~ In (_get_doc_id d0) seen).
      { intros Hin. apply existsb_eqb_In in Hin. congruence. }
      destruct (IH (_get_doc_id d0 :: seen)) as [Hnd [Hsub Hcov]].
      split; [|split].
      * cbn. constructor; [|exact Hnd].
        intros Hin. apply in_map_iff in Hin. destruct Hin as [d [Hid Hd]].
        destruct (Hsub d Hd) as [_ Hn]. apply Hn. left. now symmetry.
      * intros d [<- |Hd]; [split; [now left|exact Hnot]|].
        destruct (Hsub d Hd) as [Hin Hn]. split; [now right|].
        intros Hs. apply Hn. now right.
      * intros d [<- |Hd] Hn; cbn; [now left|].
        destruct (Z.eq_dec (_get_doc_id d0) (_get_doc_id d)) as [Eid|Nid];
          [now left|right].
        apply Hcov; [exact Hd|]. intros [Hs|Hs]; [contradiction|contradiction].
Qed.

(** [_deduplicate_docs] keeps one document per identifier, and every
    identifier of its input. *)
Lemma deduplicate_docs_spec (docs : list Document) :
  NoDup (map _get_doc_id (_deduplicate_docs docs))
  /\ incl (_deduplicate_docs docs) docs
  /\ incl (map _get_doc_id docs) (map _get_doc_id (_deduplicate_docs docs)).
Proof.
  unfold _deduplicate_docs.
  destruct (deduplicate_from_spec [] docs) as [Hnd [Hsub Hcov]].
  split; [exact Hnd|]. split.
  - intros d Hd. now destruct (Hsub d Hd).
  - intros id Hid. apply in_map_iff in Hid. destruct Hid as [d [<- Hd]].
    apply Hcov; [exact Hd|intros []].
Qed.

End DeduplicateDocs.

(* ================================================================== *)
(** * Further properties: every query, both classes, the callers *)

(** ** [str.replace] and [in] *)

Section StrFacts.

Lemma startswith_firstn (p s : str) :
  startswith p s = true -> firstn (List.length p) s = p.
Proof.
  revert s. induction p as [|a p IH]; intros s H; [reflexivity|].
  destruct s as [|b s]; cbn in H; [discriminate|].
  apply andb_prop in H. destruct H as [Hab Hps].
  apply N.eqb_eq in Hab. subst b. cbn. f_equal. now apply IH.
Qed.

Lemma startswith_app (p s : str) : startswith p (p ++ s) = true.
Proof.
  induction p as [|a p IH]; [reflexivity|].
  cbn. now rewrite N.eqb_refl, IH.
Qed.

Lemma contains_app (sub a b : str) : contains sub (a ++ sub ++ b) = true.
Proof.
  induction a as [|c a IH].
  - cbn [app]. pose proof (startswith_app sub b) as H.
    destruct (sub ++ b); cbn [contains]; now rewrite H.
  - cbn [app contains]. rewrite IH. apply orb_true_r.
Qed.

(** Replacing an occurring pattern by a different string of the same length
    changes the string. *)
Lemma replace_from_changes (old new s : str) :
  old <> new -> List.length old = List.length new ->
  replace_from old new O s = s -> contains old s = false.
Proof.
  intros Hne Hlen. induction s as [|c s IH]; intros E.
  - cbn. destruct old as [|a old]; [|reflexivity].
    destruct new; [now contradiction Hne|discriminate].
  - cbn [replace_from] in E. cbn [contains].
    destruct (startswith old (c :: s)) eqn:Hs.
    + exfalso. apply Hne. apply startswith_firstn in Hs.
      rewrite <- Hs, <- E, Hlen.
      rewrite firstn_app, Nat.sub_diag, firstn_all. cbn.
      now rewrite app_nil_r.
    + cbn. apply IH. now injection E.
Qed.

Lemma replace_changes (old new s : str) :
  old <> [] -> old <> new -> List.length old = List.length new ->
  contains old s = true -> replace old new s <> s.
Proof.
  intros Hold Hne Hlen Hc E.
  destruct old as [|a old]; [now contradiction Hold|].
  unfold replace in E.
  rewrite (@replace_from_changes _ _ s Hne Hlen E) in Hc. discriminate.
Qed.

End StrFacts.

(** ** [_expand_query] on every query *)

Section ExpandQueryFacts.

Lemma expand_with_In (query original : str) (syns expansions : list str)
    (v : str) :
  In v (expand_with query original syns expansions) <->
  In v expansions
  \/ exists syn, In syn syns /\ v = replace original syn query.
Proof.
  unfold expand_with. revert expansions.
  induction syns as [|syn syns IH]; intros expansions; cbn [fold_left].
  - split; [now left|]. intros [H|[syn [[] _]]]. exact H.
  - rewrite IH.
    destruct (existsb (str_eqb (replace original syn query)) expansions) eqn:E.
    + apply existsb_str_eqb_In in E. split.
      * intros [H|[s [Hs ->]]]; [now left|].
        right. exists s. split; [now right|reflexivity].
      * intros [H|[s [[<- |Hs] ->]]]; [now left|now left|].
        right. now exists s.
    + rewrite in_app_iff. cbn [In]. split.
      * intros [[H|[<- |[]]]|[s [Hs ->]]]; [now left| |].
        -- right. exists syn. split; [now left|reflexivity].
        -- right. exists s. split; [now right|reflexivity].
      * intros [H|[s [[<- |Hs] ->]]]; [now left; left|left; right; now left|].
        right. now exists s.
Qed.

Lemma expand_with_length (query original : str) (syns expansions : list str) :
  (List.length (expand_with query original syns expansions)
   <= List.length expansions + List.length syns)%nat.
Proof.
  unfold expand_with. revert expansions.
  induction syns as [|syn syns IH]; intros expansions; cbn [fold_left].
  - cbn. lia.
  - etransitivity; [apply IH|].
    destruct (existsb _ expansions); [cbn; lia|].
    rewrite length_app. cbn. lia.
Qed.

Lemma expand_query_with_fold (table : list (str * list str)) (query : str) :
  expand_query_with table query = fold_left (expand_step query) table [query].
Proof. reflexivity. Qed.

Lemma expand_fold_In (table : list (str * list str)) (query : str)
    (acc : list str) (v : str) :
  In v (fold_left (expand_step query) table acc) <->
  In v acc
  \/ exists original syns syn,
       In (original, syns) table /\ contains original query = true
       /\ In syn syns /\ v = replace original syn query.
Proof.
  revert acc. induction table as [|[o ss] table IH]; intros acc; cbn [fold_left].
  - split; [now left|]. intros [H|(o & ss & s & [] & _)]. exact H.
  - rewrite IH. unfold expand_step.
    destruct (contains o query) eqn:Ho.
    + rewrite expand_with_In. split.
      * intros [[H|(s & Hs & ->)]|(o' & ss' & s & Hin & Hc & Hs & ->)].
        -- now left.
        -- right. exists o, ss, s. repeat split; auto. now left.
        -- right. exists o', ss', s. repeat split; auto. now right.
      * intros [H|(o' & ss' & s & [Heq|Hin] & Hc & Hs & ->)].
        -- now left; left.
        -- injection Heq as <- <-. left. right. now exists s.
        -- right. exists o', ss', s. repeat split; auto.
    + split.
      * intros [H|(o' & ss' & s & Hin & Hc & Hs & ->)]; [now left|].
        right. exists o', ss', s. repeat split; auto. now right.
      * intros [H|(o' & ss' & s & [Heq|Hin] & Hc & Hs & ->)]; [now left| |].
        -- injection Heq as <- <-. congruence.
        -- right. exists o', ss', s. repeat split; auto.
Qed.

Lemma expand_fold_length (table : list (str * list str)) (query : str)
    (acc : list str) :
  (List.length (fold_left (expand_step query) table acc)
   <= List.length acc
      + list_sum (map (fun entry => List.length (snd entry)) table))%nat.
Proof.
  revert acc. induction table as [|[o ss] table IH]; intros acc; cbn [fold_left].
  - cbn. lia.
  - etransitivity; [apply IH|]. unfold list_sum. cbn [map fold_right snd].
    unfold expand_step. destruct (contains o query); [|lia].
    pose proof (expand_with_length query o ss acc). lia.
Qed.

(** X1: for every query, [_expand_query] returns the query itself in first
    place, followed by variants, and no string twice. *)
Theorem X1_expand_query_original_first_no_duplicates :
  forall query : str,
  exists variants,
    _expand_query query = query :: variants
    /\ NoDup (query :: variants).
Proof. intros query. apply expand_query_with_spec. Qed.

(** X2: a string is among the variants [_expand_query] returns exactly when it
    is the query, or the query with some key of the synonym table that occurs
    in it replaced by one of that key's synonyms.  Replacements are never
    chained: each variant differs from the query in one key only. *)
Theorem X2_expand_query_variants_characterised :
  forall query v : str,
    In v (_expand_query query) <->
    v = query
    \/ exists original syns syn,
         In (original, syns) synonyms /\ contains original query = true
         /\ In syn syns /\ v = replace original syn query.
Proof.
  intros query v. unfold _expand_query.
  rewrite expand_query_with_fold, expand_fold_In. cbn [In].
  split; (intros [H|H]; [left|right; exact H]).
  - destruct H as [H|[]]. now symmetry.
  - left. now symmetry.
Qed.

(** X3: [_expand_query] returns at least one and at most twelve variants,
    whatever the query: the query and at most one string per synonym. *)
Theorem X3_expand_query_at_most_twelve_variants :
  forall query : str,
    1 <= len (_expand_query query) <= 12.
Proof.
  intros query. unfold len. split.
  - destruct (expand_query_with_spec synonyms query) as [variants [E _]].
    unfold _expand_query. rewrite E. cbn [List.length]. lia.
  - unfold _expand_query. rewrite expand_query_with_fold.
    pose proof (expand_fold_length synonyms query [query]) as H.
    assert (Hsum : list_sum (map (fun entry : str * list str =>
                                    List.length (snd entry)) synonyms) = 11%nat)
      by reflexivity.
    rewrite Hsum in H. cbn [List.length] in H. lia.
Qed.

(** X4: [_expand_query] returns the query alone exactly when none of the three
    keys of the synonym table occurs in it. *)
Theorem X4_expand_query_unchanged_iff_no_key_occurs :
  forall query : str,
    _expand_query query = [query] <->
    contains (u "股票") query = false
    /\ contains (u "公司") query = false
    /\ contains (u "表现") query = false.
Proof.
  intros query. split.
  - intros E.
    assert (Hkey : forall original syns syn,
               In (original, syns) synonyms -> In syn syns ->
               original <> [] -> original <> syn ->
               List.length original = List.length syn ->
               contains original query = false).
    { intros original syns syn Hin Hsyn Hne Hdiff Hlen.
      destruct (contains original query) eqn:Hc; [|reflexivity].
      exfalso. apply (@replace_changes _ _ query Hne Hdiff Hlen Hc).
      assert (Hv : In (replace original syn query) (_expand_query query)).
      { unfold _expand_query. rewrite expand_query_with_fold.
        apply expand_fold_In. right. now exists original, syns, syn. }
      rewrite E in Hv. destruct Hv as [Hv|[]]. now symmetry. }
    split; [|split].
    + apply (Hkey (u "股票") [u "股价"; u "股份"; u "证券"; u "投资"] (u "股价"));
        [left; reflexivity|left; reflexivity| | |reflexivity];
        intros H; vm_compute in H; discriminate.
    + apply (Hkey (u "公司") [u "企业"; u "机构"; u "组织"] (u "企业"));
        [right; left; reflexivity|left; reflexivity| | |reflexivity];
        intros H; vm_compute in H; discriminate.
    + apply (Hkey (u "表现") [u "业绩"; u "成绩"; u "结果"; u "情况"] (u "业绩"));
        [right; right; left; reflexivity|left; reflexivity| | |reflexivity];
        intros H; vm_compute in H; discriminate.
  - intros (H1 & H2 & H3). unfold _expand_query.
    apply expand_query_with_no_match.
    repeat constructor; assumption.
Qed.

End ExpandQueryFacts.

(** ** [_deduplicate_docs] as a function of the candidate list *)

Section DeduplicateFacts.
Context {RT : PyRuntime}.

Lemma existsb_eqb_ext (x : Z) (l l' : list Z) :
  (forall y, In y l <-> In y l') ->
  existsb (Z.eqb x) l = existsb (Z.eqb x) l'.
Proof.
  intros H.
  destruct (existsb (Z.eqb x) l) eqn:E, (existsb (Z.eqb x) l') eqn:E';
    try reflexivity.
  - apply existsb_eqb_In, H, existsb_eqb_In in E. congruence.
  - apply existsb_eqb_In, H, existsb_eqb_In in E'. congruence.
Qed.

Lemma deduplicate_from_ids (docs : list Document) (seen keys : list Z) :
  (forall x, In x seen <-> In x keys) ->
  fold_left add_key (map _get_doc_id docs) keys
  = keys ++ map _get_doc_id (deduplicate_from seen docs).
Proof.
  revert seen keys. induction docs as [|d docs IH]; intros seen keys Hsame.
  - cbn. now rewrite app_nil_r.
  - cbn [map fold_left deduplicate_from]. unfold add_key at 2.
    rewrite (@existsb_eqb_ext (_get_doc_id d) _ _ Hsame).
    destruct (existsb (Z.eqb (_get_doc_id d)) keys) eqn:E.
    + now apply IH.
    + rewrite (IH (_get_doc_id d :: seen) (keys ++ [_get_doc_id d])).
      * cbn [map]. now rewrite <- app_assoc.
      * intros x. rewrite in_app_iff. cbn [In]. rewrite Hsame. tauto.
Qed.

Lemma deduplicate_from_first (docs : list Document) (seen : list Z)
    (d : Document) :
  In d (deduplicate_from seen docs) ->
  first_doc (_get_doc_id d) docs = Some d.
Proof.
  revert seen. induction docs as [|d0 docs IH]; intros seen; [intros []|].
  cbn [deduplicate_from]. unfold first_doc. cbn [find].
  destruct (existsb (Z.eqb (_get_doc_id d0)) seen) eqn:E.
  - intros Hd. apply existsb_eqb_In in E.
    destruct (deduplicate_from_spec seen docs) as [_ [Hsub _]].
    destruct (Hsub d Hd) as [_ Hn].
    destruct (_get_doc_id d0 =? _get_doc_id d) eqn:Eid.
    + apply Z.eqb_eq in Eid. congruence.
    + exact (IH seen Hd).
  - intros [<- |Hd]; [now rewrite Z.eqb_refl|].
    destruct (deduplicate_from_spec (_get_doc_id d0 :: seen) docs)
      as [_ [Hsub _]].
    destruct (Hsub d Hd) as [_ Hn].
    destruct (_get_doc_id d0 =? _get_doc_id d) eqn:Eid.
    + apply Z.eqb_eq in Eid. exfalso. apply Hn. now left.
    + exact (IH _ Hd).
Qed.

Lemma deduplicate_from_fixed (docs : list Document) (seen : list Z) :
  NoDup (map _get_doc_id docs) ->
  (forall d, In d docs -> ~ In (_get_doc_id d) seen) ->
  deduplicate_from seen docs = docs.
Proof.
  revert seen. induction docs as [|d docs IH]; intros seen Hnd Hfresh;
    [reflexivity|].
  cbn [deduplicate_from]. cbn [map] in Hnd. inversion Hnd as [|? ? Hd Hnd']; subst.
  destruct (existsb (Z.eqb (_get_doc_id d)) seen) eqn:E.
  - apply existsb_eqb_In in E. now destruct (Hfresh d (or_introl eq_refl)).
  - f_equal. apply IH; [exact Hnd'|].
    intros d' Hd' [Heq|Hin].
    + apply Hd. rewrite Heq. now apply in_map.
    + apply (Hfresh d'); [now right|exact Hin].
Qed.

(** X5: [_deduplicate_docs] keeps, for every identifier of its input, the
    first document with that identifier and no other, in the order in which
    the identifiers first appear. *)
Theorem X5_deduplicate_docs_keeps_first_of_each_identifier :
  forall docs : list Document,
    let out := _deduplicate_docs docs in
    NoDup (map _get_doc_id out)
    /\ map _get_doc_id out = first_occurrences (map _get_doc_id docs)
    /\ forall d, In d out -> first_doc (_get_doc_id d) docs = Some d.
Proof.
  intros docs out. subst out. unfold _deduplicate_docs.
  split; [apply deduplicate_from_spec|]. split.
  - unfold first_occurrences.
    now rewrite (@deduplicate_from_ids docs [] []).
  - intros d. apply deduplicate_from_first.
Qed.

(** X6: [_deduplicate_docs] returns a list whose identifiers are pairwise
    distinct as it is, so deduplicating twice is deduplicating once. *)
Theorem X6_deduplicate_docs_idempotent :
  (forall docs : list Document,
      NoDup (map _get_doc_id docs) -> _deduplicate_docs docs = docs)
  /\ (forall docs : list Document,
         _deduplicate_docs (_deduplicate_docs docs) = _deduplicate_docs docs).
Proof.
  assert (Hfix : forall docs : list Document,
             NoDup (map _get_doc_id docs) -> _deduplicate_docs docs = docs).
  { intros docs Hnd. unfold _deduplicate_docs.
    apply deduplicate_from_fixed; [exact Hnd|]. intros d _ []. }
  split; [exact Hfix|].
  intros docs. apply Hfix. apply deduplicate_docs_spec.
Qed.

End DeduplicateFacts.

(** ** [_rerank_documents]: when it raises, what it returns *)

Section RerankFacts.
Context {F : Type} {FO : PyFloat F} {RT : PyRuntime}.

(** Without query terms the score is computed for every document, also for
    one without text: both set sizes are taken before any division. *)
Lemma relevance_score_no_terms (d : Document) :
  exists score, calculate_relevance_score (F := F) [] d = Ok score.
Proof.
  unfold calculate_relevance_score. cbn [set_inter filter].
  destruct (len (set_union [] (term_set (page_content d))) =? 0) eqn:E;
    [eexists; reflexivity|].
  apply Z.eqb_neq in E. rewrite (truediv_int_nonzero _ E). cbn [bind].
  destruct (lower (page_content d)) as [|c text] eqn:El.
  - exfalso. apply E. unfold term_set. rewrite El. reflexivity.
  - rewrite truediv_int_nonzero; [cbn [bind]; eexists; reflexivity|].
    unfold len. cbn [List.length]. lia.
Qed.

Lemma mapM_scored_In (f : Document -> result F) (docs : list Document)
    (scored : list (Document * F)) :
  mapM (fun d => score <- f d ;; Ok (d, score)) docs = Ok scored ->
  forall p, In p scored -> In (fst p) docs /\ f (fst p) = Ok (snd p).
Proof.
  revert scored. induction docs as [|d docs IH]; cbn; intros scored E.
  - injection E as <-. intros p [].
  - destruct (f d) as [x|e] eqn:Ed; cbn in E; [|discriminate].
    destruct (mapM (fun d0 => score <- f d0 ;; Ok (d0, score)) docs)
      as [ys|e]; cbn in E; [|discriminate].
    injection E as <-. intros p [<- |Hp]; cbn.
    + split; [now left|exact Ed].
    + destruct (IH ys eq_refl p Hp). split; [now right|assumption].
Qed.

Lemma rerank_scores_total (docs : list Document) (query : str) :
  (forall s, lower s = [] <-> s = []) ->
  term_set query = [] \/ (forall d, In d docs -> page_content d <> []) ->
  forall d, In d docs ->
  exists score, calculate_relevance_score (F := F) (term_set query) d = Ok score.
Proof.
  intros Hlow [Hq|Htext] d Hd.
  - rewrite Hq. apply relevance_score_no_terms.
  - apply relevance_score_nonempty_text. intros Hl.
    exact (Htext d Hd (proj1 (Hlow _) Hl)).
Qed.

End RerankFacts.

Lemma has_content_dec (d : Document) :
  {page_content d <> []} + {~ page_content d <> []}.
Proof.
  destruct (page_content d); [right; intros H; now apply H|left; discriminate].
Qed.

Lemma rerank_raises_iff :
  forall (F : Type) (FO : PyFloat F) (RT : PyRuntime),
    (forall s, lower s = [] <-> s = []) ->
    forall (docs : list Document) (query : str),
      _rerank_documents (F := F) docs query = Raise ZeroDivisionError <->
      term_set query <> [] /\ exists d, In d docs /\ page_content d = [].
Proof.
  intros F FO RT Hlow docs query. split.
  - intros E.
    assert (Hnot : ~ (term_set query = []
                      \/ forall d, In d docs -> page_content d <> [])).
    { intros Hcase.
      destruct (mapM_scored_total _ docs
                  (@rerank_scores_total F FO RT docs query Hlow Hcase))
        as [scored Hs].
      unfold _rerank_documents in E. rewrite Hs in E. discriminate. }
    split; [intros Hq; apply Hnot; now left|].
    destruct (Forall_Exists_dec (fun d => page_content d <> [])
                has_content_dec docs) as [Hall|Hex].
    + exfalso. apply Hnot. right. now apply Forall_forall.
    + apply Exists_exists in Hex. destruct Hex as [d [Hd Hn]].
      exists d. split; [exact Hd|].
      destruct (page_content d); [reflexivity|].
      exfalso. apply Hn. discriminate.
  - intros [Hq [d [Hd Hc]]].
    apply rerank_documents_raises with d; auto. now apply Hlow.
Qed.

(** X7: [_rerank_documents] raises [ZeroDivisionError] exactly when the query
    has at least one term and some candidate has empty content; the position
    of that candidate and the other candidates play no part. *)
Theorem X7_rerank_raises_iff_empty_candidate :
  forall (F : Type) (FO : PyFloat F) (RT : PyRuntime),
    (forall s, lower s = [] <-> s = []) ->
    forall (docs : list Document) (query : str),
      _rerank_documents (F := F) docs query = Raise ZeroDivisionError <->
      term_set query <> [] /\ exists d, In d docs /\ page_content d = [].
Proof. exact rerank_raises_iff. Qed.

(** X7, on the CPython runtime: one candidate without content among others. *)
Lemma X7_rerank_raises_iff_empty_candidate_witness :
  (forall s, lower (PyRuntime := cpython (secret_of_seed 0)) s = [] <-> s = [])
  /\ _rerank_documents (F := float) (RT := cpython (secret_of_seed 0))
       [mkdoc "alpha report"; mkdoc ""] (u "report")
     = Raise ZeroDivisionError.
Proof.
  split; [apply cpython_lower_empty|].
  apply (proj2 (@X7_rerank_raises_iff_empty_candidate float binary64
                  (cpython (secret_of_seed 0)) (cpython_lower_empty _)
                  [mkdoc "alpha report"; mkdoc ""] (u "report"))).
  split; [vm_compute; discriminate|].
  exists (mkdoc ""). split; [right; left; reflexivity|reflexivity].
Defined.

(** X8: when the query has no term, or every candidate has content,
    [_rerank_documents] returns, and what it returns is a rearrangement of the
    candidates: nothing is dropped, added or repeated. *)
Theorem X8_rerank_returns_rearrangement :
  forall (F : Type) (FO : PyFloat F) (RT : PyRuntime),
    (forall s, lower s = [] <-> s = []) ->
    forall (docs : list Document) (query : str),
      term_set query = [] \/ (forall d, In d docs -> page_content d <> []) ->
      exists out,
        _rerank_documents (F := F) docs query = Ok out
        /\ Permutation docs out
        /\ len out = len docs.
Proof.
  intros F FO RT Hlow docs query Hcase.
  destruct (mapM_scored_total _ docs
              (@rerank_scores_total F FO RT docs query Hlow Hcase))
    as [scored Hs].
  assert (Hperm : Permutation docs (map fst (sort_desc snd scored))).
  { rewrite <- (mapM_scored_fst _ _ Hs) at 1.
    apply Permutation_map. symmetry. apply sort_desc_perm. }
  exists (map fst (sort_desc snd scored)).
  split; [unfold _rerank_documents; now rewrite Hs|].
  split; [exact Hperm|].
  unfold len. f_equal. symmetry. now apply Permutation_length.
Qed.

Lemma X8_rerank_returns_rearrangement_witness :
  (forall s, lower (PyRuntime := cpython (secret_of_seed 0)) s = [] <-> s = [])
  /\ (term_set (RT := cpython (secret_of_seed 0)) (u "report") = []
      \/ forall d, In d [doc_a; doc_b] -> page_content d <> [])
  /\ exists out,
       _rerank_documents (F := float) (RT := cpython (secret_of_seed 0))
         [doc_a; doc_b] (u "report") = Ok out
       /\ Permutation [doc_a; doc_b] out
       /\ len out = len [doc_a; doc_b].
Proof.
  assert (Htext : term_set (RT := cpython (secret_of_seed 0)) (u "report") = []
                  \/ forall d, In d [doc_a; doc_b] -> page_content d <> []).
  { right. intros d [<- |[<- |[]]]; vm_compute; discriminate. }
  split; [apply cpython_lower_empty|]. split; [exact Htext|].
  exact (@X8_rerank_returns_rearrangement float binary64
           (cpython (secret_of_seed 0)) (cpython_lower_empty _)
           [doc_a; doc_b] (u "report") Htext).
Defined.

(** X9: in exact arithmetic, under the same condition, [_rerank_documents]
    returns the candidates in descending order of their relevance scores, and
    candidates with equal scores keep the order in which they came in. *)
Theorem X9_rerank_exact_descending_and_stable :
  forall (RT : PyRuntime),
    (forall s, lower s = [] <-> s = []) ->
    forall (docs : list Document) (query : str),
      term_set query = [] \/ (forall d, In d docs -> page_content d <> []) ->
      exists scored ranked,
        map fst scored = docs
        /\ (forall p, In p scored ->
              calculate_relevance_score (F := Q) (term_set query) (fst p)
              = Ok (snd p))
        /\ _rerank_documents (F := Q) docs query = Ok (map fst ranked)
        /\ Permutation ranked scored
        /\ StronglySorted (fun a b => (snd b <= snd a)%Q) ranked
        /\ forall v : Q,
             filter (fun p => Qeq_bool (snd p) v) ranked
             = filter (fun p => Qeq_bool (snd p) v) scored.
Proof.
  intros RT Hlow docs query Hcase.
  destruct (mapM_scored_total _ docs
              (@rerank_scores_total Q exact RT docs query Hlow Hcase))
    as [scored Hs].
  exists scored, (sort_desc snd scored).
  split; [exact (mapM_scored_fst _ _ Hs)|].
  split; [intros p Hp; now destruct (mapM_scored_In _ _ Hs p Hp)|].
  split; [unfold _rerank_documents; now rewrite Hs|].
  split; [apply sort_desc_perm|]. split.
  - apply descending_exact.
    apply (@sort_desc_StronglySorted Q exact _ snd (fun _ => True)).
    + exact exact_ltb_asym.
    + intros x y z _. apply exact_ltb_negtrans.
    + apply Forall_forall. intros; exact I.
  - intros v. apply sort_desc_stable. intros a b Ha Hb.
    apply Qeq_bool_iff in Ha. apply Qeq_bool_iff in Hb.
    apply exact_ltb_false. rewrite Ha, Hb. apply Qle_refl.
Qed.

Lemma X9_rerank_exact_descending_and_stable_witness :
  (forall s, lower (PyRuntime := cpython (secret_of_seed 0)) s = [] <-> s = [])
  /\ (term_set (RT := cpython (secret_of_seed 0)) (u "report") = []
      \/ forall d, In d [doc_a; doc_b] -> page_content d <> [])
  /\ exists scored ranked,
       map fst scored = [doc_a; doc_b]
       /\ (forall p, In p scored ->
             calculate_relevance_score (F := Q) (RT := cpython (secret_of_seed 0))
               (term_set (RT := cpython (secret_of_seed 0)) (u "report")) (fst p)
             = Ok (snd p))
       /\ _rerank_documents (F := Q) (RT := cpython (secret_of_seed 0))
            [doc_a; doc_b] (u "report") = Ok (map fst ranked)
       /\ Permutation ranked scored
       /\ StronglySorted (fun a b => (snd b <= snd a)%Q) ranked
       /\ forall v : Q,
            filter (fun p => Qeq_bool (snd p) v) ranked
            = filter (fun p => Qeq_bool (snd p) v) scored.
Proof.
  assert (Htext : term_set (RT := cpython (secret_of_seed 0)) (u "report") = []
                  \/ forall d, In d [doc_a; doc_b] -> page_content d <> []).
  { right. intros d [<- |[<- |[]]]; vm_compute; discriminate. }
  split; [apply cpython_lower_empty|]. split; [exact Htext|].
  exact (@X9_rerank_exact_descending_and_stable
           (cpython (secret_of_seed 0)) (cpython_lower_empty _)
           [doc_a; doc_b] (u "report") Htext).
Defined.

Section RerankNoTerms.
Context {RT : PyRuntime}.

Lemma relevance_score_no_terms_exact (d : Document) (score : Q) :
  calculate_relevance_score (F := Q) [] d = Ok score -> (score == 0)%Q.
Proof.
  unfold calculate_relevance_score. cbn [set_inter filter].
  destruct (len (set_union [] (term_set (page_content d))) =? 0) eqn:E.
  - intros H. injection H as <-. apply Qeq_refl.
  - apply Z.eqb_neq in E. rewrite (truediv_int_nonzero _ E). cbn [bind].
    unfold truediv_int.
    destruct (len (lower (page_content d)) =? 0); cbn [bind]; [discriminate|].
    intros H. injection H as <-.
    change (occurrences [] (lower (page_content d))) with 0.
    change (len (@nil str)) with 0.
    cbn [f_add f_mul f_div f_of_int f_0_7 f_0_3 exact].
    change (inject_Z 0) with 0%Q. unfold Qdiv. ring.
Qed.

End RerankNoTerms.

(** X10: in exact arithmetic, a query without any term (no letter, digit or
    underscore) leaves the candidates as they are: [_rerank_documents] never
    raises for it, also on candidates without content, and returns the list
    it was given. *)
Theorem X10_rerank_query_without_terms_is_identity :
  forall (RT : PyRuntime) (docs : list Document) (query : str),
    term_set query = [] ->
    _rerank_documents (F := Q) docs query = Ok docs.
Proof.
  intros RT docs query Hq. unfold _rerank_documents. rewrite Hq.
  destruct (mapM_scored_total (calculate_relevance_score (F := Q) []) docs
              (fun d _ => relevance_score_no_terms d)) as [scored Hs].
  rewrite Hs. cbn [bind]. f_equal.
  rewrite sort_desc_sorted; [exact (mapM_scored_fst _ _ Hs)|].
  apply StronglySorted_Sorted, StronglySorted_all. intros a b Ha Hb.
  destruct (mapM_scored_In _ _ Hs a Ha) as [_ Ea].
  destruct (mapM_scored_In _ _ Hs b Hb) as [_ Eb].
  apply relevance_score_no_terms_exact in Ea.
  apply relevance_score_no_terms_exact in Eb.
  apply exact_ltb_false. rewrite Ea, Eb. apply Qle_refl.
Qed.

Lemma X10_rerank_query_without_terms_is_identity_witness :
  term_set (RT := cpython (secret_of_seed 0)) (u "?!") = []
  /\ _rerank_documents (F := Q) (RT := cpython (secret_of_seed 0))
       [mkdoc ""; doc_a] (u "?!") = Ok [mkdoc ""; doc_a].
Proof.
  split; [reflexivity|].
  apply (@X10_rerank_query_without_terms_is_identity
           (cpython (secret_of_seed 0)) [mkdoc ""; doc_a] (u "?!")).
  reflexivity.
Defined.

(** ** [_combine_results]: what the fused list holds, when fusion fails *)

Section CombineFacts.
Context {F : Type} {FO : PyFloat F} {RT : PyRuntime}.

(** Every fused entry carries a document of one of the two hit lists. *)
Lemma fused_entry_doc_source (vector_docs : list (Document * F))
    (bm25_docs : list Document) (id : Z) (s : Scores) :
  fused_entry vector_docs bm25_docs id = Some s ->
  In (doc s) (map fst vector_docs) \/ In (doc s) bm25_docs.
Proof.
  unfold fused_entry, bm25_update.
  destruct (last_hit id vector_docs) as [h|] eqn:Hh.
  - apply last_hit_Some in Hh. destruct Hh as [Hh _].
    intros E. left.
    assert (Hdoc : doc s = fst h).
    { destruct (last_rank 0 id bm25_docs); injection E as <-; reflexivity. }
    rewrite Hdoc. now apply in_map.
  - destruct (last_rank 0 id bm25_docs); [|discriminate].
    destruct (first_doc id bm25_docs) as [d|] eqn:Hd; [|discriminate].
    intros E. injection E as <-. right. cbn.
    now destruct (first_doc_Some _ _ Hd).
Qed.

(** The first loop raises as soon as one distance is rejected. *)
Lemma vector_pass_raises (vector_docs : list (Document * F))
    (d0 : dict Scores) :
  Exists (fun h => f_eqb (f_add f_1 (snd h)) f_0 = true) vector_docs ->
  vector_pass vector_docs d0 = Raise ZeroDivisionError.
Proof.
  revert d0. induction vector_docs as [|[d score] rest IH]; intros d0 Hex.
  - inversion Hex.
  - cbn [vector_pass]. unfold truediv.
    destruct (f_eqb (f_add f_1 score) f_0) eqn:E; [reflexivity|].
    cbn [bind]. apply IH.
    inversion Hex as [? ? Hh|? ? Ht]; subst; [|exact Ht].
    cbn in Hh. congruence.
Qed.

Lemma normalizable_dec (h : Document * F) :
  {normalizable (snd h)} + {~ normalizable (snd h)}.
Proof.
  unfold normalizable. destruct (f_eqb (f_add f_1 (snd h)) f_0);
    [right; discriminate|left; reflexivity].
Qed.

Lemma insert_desc_ext (A : Type) (k1 k2 : A -> F) (x : A) (l : list A) :
  (forall b, In b l -> f_ltb (k1 x) (k1 b) = f_ltb (k2 x) (k2 b)) ->
  insert_desc k1 x l = insert_desc k2 x l.
Proof.
  induction l as [|y l IH]; intros H; [reflexivity|].
  cbn [insert_desc]. rewrite (H y (or_introl eq_refl)).
  destruct (f_ltb (k2 x) (k2 y)); [|reflexivity].
  f_equal. apply IH. intros b Hb. apply H. now right.
Qed.

(** The sort depends on the keys through their comparisons only. *)
Lemma sort_desc_ext (A : Type) (k1 k2 : A -> F) (l : list A) :
  (forall a b, In a l -> In b l -> f_ltb (k1 a) (k1 b) = f_ltb (k2 a) (k2 b)) ->
  sort_desc k1 l = sort_desc k2 l.
Proof.
  induction l as [|x l IH]; intros H; [reflexivity|].
  cbn [sort_desc]. rewrite IH by (intros a b Ha Hb; apply H; now right).
  apply insert_desc_ext. intros b Hb.
  apply H; [now left|right].
  exact (Permutation_in _ (sort_desc_perm k2 l) Hb).
Qed.

Lemma insert_desc_map (A B : Type) (g : A -> B) (key : B -> F)
    (x : A) (l : list A) :
  insert_desc key (g x) (map g l)
  = map g (insert_desc (fun a => key (g a)) x l).
Proof.
  induction l as [|y l IH]; [reflexivity|].
  cbn [map insert_desc]. destruct (f_ltb (key (g x)) (key (g y)));
    [|reflexivity].
  cbn [map]. now rewrite IH.
Qed.

Lemma sort_desc_map (A B : Type) (g : A -> B) (key : B -> F) (l : list A) :
  sort_desc key (map g l) = map g (sort_desc (fun a => key (g a)) l).
Proof.
  induction l as [|x l IH]; [reflexivity|].
  cbn [map sort_desc]. rewrite IH. apply insert_desc_map.
Qed.

(** [_combine_results] sorts the entries of the table by their combined
    score and keeps their documents. *)
Lemma combine_results_items (r : HybridRetriever.t (F := F))
    (vector_docs : list (Document * F)) (bm25_docs : list Document) :
  _combine_results r vector_docs bm25_docs =
    (doc_scores <- fuse vector_docs bm25_docs ;;
     Ok (map (fun item => doc (snd item))
           (sort_desc (fun item => combined_score r (snd item)) doc_scores))).
Proof.
  unfold _combine_results. destruct (fuse vector_docs bm25_docs) as [ds|e];
    [|reflexivity].
  cbn [bind]. f_equal. unfold scored_docs.
  rewrite (sort_desc_map
             (fun item : Z * Scores =>
                (doc (snd item), combined_score r (snd item))) snd).
  now rewrite map_map.
Qed.

End CombineFacts.

Lemma combine_results_invariants :
  forall (F : Type) (FO : PyFloat F) (RT : PyRuntime)
         (r : HybridRetriever.t (F := F))
         (vector_docs : list (Document * F)) (bm25_docs : list Document),
    Forall (fun h => normalizable (snd h)) vector_docs ->
    exists out,
      _combine_results r vector_docs bm25_docs = Ok out
      /\ NoDup (map _get_doc_id out)
      /\ (forall id, In id (map _get_doc_id out)
                     <-> In id (matched_ids vector_docs bm25_docs))
      /\ (forall d, In d out -> In d (map fst vector_docs) \/ In d bm25_docs)
      /\ len out = len (unique_matched vector_docs bm25_docs).
Proof.
  intros F FO RT r vector_docs bm25_docs Hok.
  destruct (fuse_spec bm25_docs Hok) as [ds [Hfuse [Hkeys Hget]]].
  destruct (@combine_results_perm F FO RT r vector_docs bm25_docs ds Hfuse)
    as [out [Hout Hperm]].
  assert (Hnd : NoDup (dict_keys ds))
    by exact (@fuse_keys_NoDup F FO RT vector_docs bm25_docs ds Hkeys).
  assert (Hids : Permutation (map _get_doc_id out) (dict_keys ds)).
  { rewrite (Permutation_map _get_doc_id Hperm), map_map.
    unfold dict_keys.
    rewrite (map_ext_in _ fst); [reflexivity|].
    intros item Hitem.
    exact (@fuse_item_doc_id F FO RT vector_docs bm25_docs ds
             Hkeys Hget item Hitem). }
  exists out. split; [exact Hout|]. split; [|split; [|split]].
  - apply (Permutation_NoDup (Permutation_sym Hids) Hnd).
  - intros id. split; intros Hin.
    + apply (Permutation_in _ Hids) in Hin. rewrite Hkeys in Hin.
      unfold first_occurrences in Hin. apply fold_add_key_In in Hin.
      now destruct Hin as [[]|Hin].
    + apply (Permutation_in _ (Permutation_sym Hids)). rewrite Hkeys.
      unfold first_occurrences. apply fold_add_key_In. now right.
  - intros d Hd. apply (Permutation_in _ Hperm) in Hd.
    apply in_map_iff in Hd. destruct Hd as [[id s] [<- Hitem]]. cbn [snd].
    apply (@fused_entry_doc_source F FO RT vector_docs bm25_docs id).
    rewrite <- Hget. now apply dict_In_get.
  - unfold len. f_equal.
    rewrite <- (length_map _get_doc_id out), (Permutation_length Hids), Hkeys.
    apply first_occurrences_length.
Qed.

(** X11: when every vector distance is accepted by the normalisation,
    [_combine_results] returns a list with exactly one document for each
    identifier met in the two hit lists, and each of its documents is a
    document of one of the two lists. *)
Theorem X11_combine_results_one_document_per_identifier :
  forall (F : Type) (FO : PyFloat F) (RT : PyRuntime)
         (r : HybridRetriever.t (F := F))
         (vector_docs : list (Document * F)) (bm25_docs : list Document),
    Forall (fun h => normalizable (snd h)) vector_docs ->
    exists out,
      _combine_results r vector_docs bm25_docs = Ok out
      /\ NoDup (map _get_doc_id out)
      /\ (forall id, In id (map _get_doc_id out)
                     <-> In id (matched_ids vector_docs bm25_docs))
      /\ (forall d, In d out -> In d (map fst vector_docs) \/ In d bm25_docs)
      /\ len out = len (unique_matched vector_docs bm25_docs).
Proof. exact combine_results_invariants. Qed.

Lemma X11_combine_results_one_document_per_identifier_witness :
  Forall (fun h => normalizable (snd h)) demo_vector_docs
  /\ exists out,
       _combine_results (RT := demo_runtime) demo_retriever
         demo_vector_docs demo_bm25_docs = Ok out
       /\ NoDup (map (_get_doc_id (RT := demo_runtime)) out)
       /\ (forall id, In id (map (_get_doc_id (RT := demo_runtime)) out)
                      <-> In id (matched_ids (RT := demo_runtime)
                                   demo_vector_docs demo_bm25_docs))
       /\ (forall d, In d out ->
             In d (map fst demo_vector_docs) \/ In d demo_bm25_docs)
       /\ len out = len (unique_matched (RT := demo_runtime)
                           demo_vector_docs demo_bm25_docs).
Proof.
  assert (Hok : Forall (fun h => normalizable (snd h)) demo_vector_docs)
    by (repeat constructor).
  split; [exact Hok|].
  exact (@X11_combine_results_one_document_per_identifier float binary64
           demo_runtime demo_retriever demo_vector_docs demo_bm25_docs Hok).
Defined.

Lemma combine_results_raises_iff :
  forall (F : Type) (FO : PyFloat F) (RT : PyRuntime)
         (r : HybridRetriever.t (F := F))
         (vector_docs : list (Document * F)) (bm25_docs : list Document),
    _combine_results r vector_docs bm25_docs = Raise ZeroDivisionError <->
    Exists (fun h => f_eqb (f_add f_1 (snd h)) f_0 = true) vector_docs.
Proof.
  intros F FO RT r vector_docs bm25_docs. split.
  - intros E.
    destruct (Forall_Exists_dec (fun h => normalizable (snd h))
                (@normalizable_dec F FO) vector_docs) as [Hall|Hex].
    + destruct (fuse_spec bm25_docs Hall) as [ds [Hfuse _]].
      unfold _combine_results in E. rewrite Hfuse in E. discriminate.
    + revert Hex. apply Exists_impl. intros h Hn. unfold normalizable in Hn.
      now destruct (f_eqb (f_add f_1 (snd h)) f_0).
  - intros Hex. unfold _combine_results, fuse.
    now rewrite (vector_pass_raises [] Hex).
Qed.

(** X12: [_combine_results] raises [ZeroDivisionError] exactly when some
    vector distance [d] has [1.0 + d == 0.0]; the keyword hits and the
    weights can never make it fail.  In exact arithmetic the rejected
    distance is [-1]. *)
Theorem X12_combine_results_raises_iff_rejected_distance :
  (forall (F : Type) (FO : PyFloat F) (RT : PyRuntime)
          (r : HybridRetriever.t (F := F))
          (vector_docs : list (Document * F)) (bm25_docs : list Document),
      _combine_results r vector_docs bm25_docs = Raise ZeroDivisionError <->
      Exists (fun h => f_eqb (f_add f_1 (snd h)) f_0 = true) vector_docs)
  /\ (forall (RT : PyRuntime) (r : HybridRetriever.t (F := Q))
             (vector_docs : list (Document * Q)) (bm25_docs : list Document),
         _combine_results r vector_docs bm25_docs = Raise ZeroDivisionError <->
         exists h, In h vector_docs /\ (snd h == - (1))%Q).
Proof.
  split; [exact combine_results_raises_iff|].
  intros RT r vector_docs bm25_docs.
  rewrite combine_results_raises_iff, Exists_exists.
  split; intros [h [Hin Hh]]; exists h; (split; [exact Hin|]).
  - cbn in Hh. apply Qeq_bool_iff in Hh.
    rewrite <- (Qplus_inj_l _ _ 1). rewrite Hh. reflexivity.
  - cbn. apply Qeq_bool_iff. rewrite Hh. reflexivity.
Qed.

(** ** Comparisons of rescaled scores *)

Section WeightScaling.

Lemma exact_ltb_scale (c x y x' y' : Q) :
  (0 < c)%Q -> (x' == c * x)%Q -> (y' == c * y)%Q ->
  f_ltb (PyFloat := exact) x' y' = f_ltb (PyFloat := exact) x y.
Proof.
  intros Hc Hx Hy.
  destruct (f_ltb (PyFloat := exact) x y) eqn:E.
  - apply exact_ltb_true in E. apply exact_ltb_true. rewrite Hx, Hy.
    apply Qmult_lt_l; assumption.
  - apply exact_ltb_false in E. apply exact_ltb_false. rewrite Hx, Hy.
    apply Qmult_le_l; assumption.
Qed.

End WeightScaling.

(** ** Retrieval through both classes *)

Section RetrievalFacts.
Context {F : Type} {FO : PyFloat F} {RT : PyRuntime}.

Lemma NoDup_firstn (A : Type) (n : nat) (l : list A) :
  NoDup l -> NoDup (firstn n l).
Proof.
  intros H. rewrite <- (firstn_skipn n l) in H.
  now apply NoDup_app_remove_r in H.
Qed.

Lemma In_firstn (A : Type) (n : nat) (l : list A) (x : A) :
  In x (firstn n l) -> In x l.
Proof.
  intros H. rewrite <- (firstn_skipn n l). apply in_or_app. now left.
Qed.

(** [docs[:n]] of a list with pairwise distinct identifiers. *)
Lemma slice_to_facts (l : list Document) (n : Z) :
  0 <= n -> NoDup (map _get_doc_id l) ->
  len (slice_to l n) <= n
  /\ NoDup (map _get_doc_id (slice_to l n))
  /\ incl (slice_to l n) l.
Proof.
  intros Hn Hnd. rewrite (slice_to_nonneg _ Hn).
  split; [rewrite (len_firstn _ Hn); lia|]. split.
  - rewrite <- firstn_map. now apply NoDup_firstn.
  - intros x. apply In_firstn.
Qed.

Lemma basic_retrieval (r : HybridRetriever.t (F := F)) (query : str) :
  0 <= k r ->
  Forall (fun h => normalizable (snd h)) (vectorstore r query (k r * 2)) ->
  exists out,
    HybridRetriever._get_relevant_documents r query = Ok out
    /\ len out <= k r
    /\ NoDup (map _get_doc_id out)
    /\ forall d, In d out ->
         In d (map fst (vectorstore r query (k r * 2)))
         \/ In d (bm25_retriever r query).
Proof.
  intros Hk Hok.
  destruct (@combine_results_invariants F FO RT r _ (bm25_retriever r query) Hok)
    as [out [E [Hnd [_ [Hsrc _]]]]].
  unfold HybridRetriever._get_relevant_documents. rewrite E. cbn [bind].
  eexists. split; [reflexivity|].
  destruct (@slice_to_facts _ _ Hk Hnd) as [Hlen [Hnd' Hincl]].
  split; [exact Hlen|]. split; [exact Hnd'|].
  intros d Hd. apply Hsrc, Hincl, Hd.
Qed.

Lemma retrieve_variants_spec (r : HybridRetriever.t (F := F))
    (queries : list str) (acc : list Document) :
  (forall q, In q queries ->
     Forall (fun h => normalizable (snd h)) (vectorstore r q (k r))) ->
  exists out,
    retrieve_variants r queries acc = Ok (acc ++ out)
    /\ forall d, In d out ->
         exists q, In q queries
                   /\ (In d (map fst (vectorstore r q (k r)))
                       \/ In d (bm25_retriever r q)).
Proof.
  revert acc. induction queries as [|q rest IH]; intros acc Hok.
  - exists []. split; [cbn; now rewrite app_nil_r|intros d []].
  - cbn [retrieve_variants].
    destruct (@combine_results_invariants F FO RT r _ (bm25_retriever r q)
                (Hok q (or_introl eq_refl)))
      as [c [E [_ [_ [Hsrc _]]]]].
    rewrite E. cbn [bind].
    destruct (IH (acc ++ c)) as [out [E' Hout]];
      [intros q' Hq'; apply Hok; now right|].
    exists (c ++ out). split; [rewrite E'; now rewrite app_assoc|].
    intros d Hd. apply in_app_or in Hd. destruct Hd as [Hd|Hd].
    + exists q. split; [now left|now apply Hsrc].
    + destruct (Hout d Hd) as [q' [Hq' Hs]].
      exists q'. split; [now right|exact Hs].
Qed.

Lemma advanced_retrieval (a : AdvancedHybridRetriever.t (F := F))
    (query : str) :
  (forall s, lower s = [] <-> s = []) ->
  0 <= k (base a) ->
  (forall q, In q (if query_expansion a then _expand_query query else [query]) ->
     Forall (fun h => normalizable (snd h))
       (vectorstore (base a) q (k (base a)))) ->
  (rerank a = true ->
   forall q d,
     In d (map fst (vectorstore (base a) q (k (base a))))
     \/ In d (bm25_retriever (base a) q) ->
     page_content d <> []) ->
  exists out,
    AdvancedHybridRetriever._get_relevant_documents a query = Ok out
    /\ len out <= k (base a)
    /\ NoDup (map _get_doc_id out)
    /\ forall d, In d out ->
         exists q,
           In q (if query_expansion a then _expand_query query else [query])
           /\ (In d (map fst (vectorstore (base a) q (k (base a))))
               \/ In d (bm25_retriever (base a) q)).
Proof.
  intros Hlow Hk Hok Htext.
  unfold AdvancedHybridRetriever._get_relevant_documents.
  destruct (retrieve_variants_spec (base a) _ [] Hok) as [all_docs [E Hsrc]].
  rewrite E. cbn [bind app].
  destruct (deduplicate_docs_spec all_docs) as [Hnd [Hincl _]].
  assert (Hrr : exists unique_docs,
             (if rerank a then _rerank_documents (_deduplicate_docs all_docs) query
              else Ok (_deduplicate_docs all_docs)) = Ok unique_docs
             /\ Permutation (_deduplicate_docs all_docs) unique_docs).
  { destruct (rerank a) eqn:Hr; [|eexists; split; reflexivity].
    destruct (rerank_documents_returns (F := F) (_deduplicate_docs all_docs) query)
      as [out Hout].
    - intros d Hd Hl. apply (proj1 (Hlow _)) in Hl.
      destruct (Hsrc d (Hincl d Hd)) as [q [_ Hs]].
      exact (Htext eq_refl q d Hs Hl).
    - exists out. split; [exact Hout|].
      exact (rerank_documents_permutation _ _ Hout). }
  destruct Hrr as [unique_docs [Er Hperm]]. rewrite Er. cbn [bind].
  eexists. split; [reflexivity|].
  assert (Hnd' : NoDup (map _get_doc_id unique_docs)).
  { apply (Permutation_NoDup (Permutation_map _get_doc_id Hperm) Hnd). }
  destruct (@slice_to_facts _ _ Hk Hnd') as [Hlen [Hnds Hsub]].
  split; [exact Hlen|]. split; [exact Hnds|].
  intros d Hd. apply Hsrc, Hincl.
  apply (Permutation_in _ (Permutation_sym Hperm)). now apply Hsub.
Qed.

End RetrievalFacts.

(** X15: the advanced retriever, for a non-negative [k], distances the
    normalisation accepts and (when reranking is on) hits with content,
    returns at most [k] documents with pairwise distinct identifiers, each of
    them a hit of one of the backends for one of the query variants. *)
Theorem X15_advanced_retrieval_at_most_k_distinct_hits :
  forall (F : Type) (FO : PyFloat F) (RT : PyRuntime)
         (a : AdvancedHybridRetriever.t (F := F)) (query : str),
    (forall s, lower s = [] <-> s = []) ->
    0 <= k (base a) ->
    (forall q, In q (if query_expansion a then _expand_query query else [query]) ->
       Forall (fun h => normalizable (snd h))
         (vectorstore (base a) q (k (base a)))) ->
    (rerank a = true ->
     forall q d,
       In d (map fst (vectorstore (base a) q (k (base a))))
       \/ In d (bm25_retriever (base a) q) ->
       page_content d <> []) ->
    exists out,
      AdvancedHybridRetriever._get_relevant_documents a query = Ok out
      /\ len out <= k (base a)
      /\ NoDup (map _get_doc_id out)
      /\ forall d, In d out ->
           exists q,
             In q (if query_expansion a then _expand_query query else [query])
             /\ (In d (map fst (vectorstore (base a) q (k (base a))))
                 \/ In d (bm25_retriever (base a) q)).
Proof. intros F FO RT a query. apply advanced_retrieval. Qed.

Lemma X15_advanced_retrieval_at_most_k_distinct_hits_witness :
  (forall s, lower (PyRuntime := demo_runtime) s = [] <-> s = [])
  /\ 0 <= k (base demo_advanced)
  /\ exists out,
       AdvancedHybridRetriever._get_relevant_documents (RT := demo_runtime)
         demo_advanced (u "report") = Ok out
       /\ len out <= k (base demo_advanced)
       /\ NoDup (map (_get_doc_id (RT := demo_runtime)) out)
       /\ forall d, In d out ->
            exists q,
              In q (if query_expansion demo_advanced
                    then _expand_query (u "report") else [u "report"])
              /\ (In d (map fst (vectorstore (base demo_advanced) q
                                   (k (base demo_advanced))))
                  \/ In d (bm25_retriever (base demo_advanced) q)).
Proof.
  split; [apply cpython_lower_empty|]. split; [discriminate|].
  apply (@X15_advanced_retrieval_at_most_k_distinct_hits float binary64
           demo_runtime demo_advanced (u "report")).
  - apply cpython_lower_empty.
  - discriminate.
  - intros q _. repeat constructor.
  - intros _ q d [[<- |[<- |[]]]|[<- |[<- |[]]]]; vm_compute; discriminate.
Defined.

(** ** [create_hybrid_retriever] *)

(** X16: [create_hybrid_retriever] returns no retriever, of either class and
    for any documents, weights and [k].  When the construction of the BM25
    retriever raises, that exception escapes; when it returns, the
    constructor of the retriever class raises [ValueError] at its first
    assignment. *)
Theorem X16_factory_returns_no_retriever :
  forall (F : Type) (FO : PyFloat F)
         (bm25_from_documents :
            list Document -> result (Z -> str -> list Document))
         (vs : str -> Z -> list (Document * F)) (documents : list Document)
         (vw bw : F) (kk : Z) (advanced : bool),
    (forall bm25,
        bm25_from_documents documents = Ok bm25 ->
        create_hybrid_retriever bm25_from_documents vs documents vw bw kk
          advanced = Raise ValueError)
    /\ (forall e,
           bm25_from_documents documents = Raise e ->
           create_hybrid_retriever bm25_from_documents vs documents vw bw kk
             advanced = Raise e)
    /\ (forall retriever,
           create_hybrid_retriever bm25_from_documents vs documents vw bw kk
             advanced <> Ok retriever).
Proof.
  intros F FO bm25_from_documents vs documents vw bw kk advanced.
  unfold create_hybrid_retriever.
  destruct (bm25_from_documents documents) as [bm25|e0]; cbn [bind].
  - split; [intros _ _; now destruct advanced|].
    split; [discriminate|]. intros retriever. now destruct advanced.
  - split; [discriminate|]. split; [congruence|discriminate].
Qed.

(** ** The callers: [format_docs] and [compare_retrieval_methods] *)

Section JoinFacts.

Lemma join_cons (sep p q : str) (rest : list str) :
  HybridChain.join sep (p :: q :: rest)
  = p ++ sep ++ HybridChain.join sep (q :: rest).
Proof. reflexivity. Qed.

Lemma join_length (sep : str) (parts : list str) :
  len (HybridChain.join sep parts)
  = fold_right Z.add 0 (map (fun p => len p) parts)
    + len sep * Z.max 0 (len parts - 1).
Proof.
  unfold len. induction parts as [|p [|q rest] IH].
  - cbn. lia.
  - cbn. lia.
  - rewrite join_cons, !length_app. cbn [map fold_right].
    assert (Hgap : Z.max 0 (Z.of_nat (List.length (p :: q :: rest)) - 1)
                   = Z.max 0 (Z.of_nat (List.length (q :: rest)) - 1) + 1)
      by (cbn [List.length]; lia).
    rewrite Hgap. cbn [map fold_right] in IH. lia.
Qed.

Lemma join_In (sep p : str) (parts : list str) :
  In p parts -> exists a b, HybridChain.join sep parts = a ++ p ++ b.
Proof.
  induction parts as [|p0 [|q rest] IH]; intros Hin.
  - destruct Hin.
  - destruct Hin as [<- |[]]. exists [], []. cbn. now rewrite app_nil_r.
  - rewrite join_cons. destruct Hin as [<- |Hin].
    + exists [], (sep ++ HybridChain.join sep (q :: rest)). reflexivity.
    + destruct (IH Hin) as [a [b E]]. rewrite E.
      exists (p0 ++ sep ++ a), b. now rewrite <- !app_assoc.
Qed.

Lemma join_app (sep : str) (l1 l2 : list str) :
  l1 <> [] -> l2 <> [] ->
  HybridChain.join sep (l1 ++ l2)
  = HybridChain.join sep l1 ++ sep ++ HybridChain.join sep l2.
Proof.
  intros H1 H2. induction l1 as [|p [|q rest] IH]; [now contradiction H1| |].
  - destruct l2 as [|p2 l2]; [now contradiction H2|]. reflexivity.
  - change ((p :: q :: rest) ++ l2) with (p :: q :: (rest ++ l2)).
    rewrite !join_cons.
    change (q :: rest ++ l2) with ((q :: rest) ++ l2).
    rewrite IH by discriminate. now rewrite <- !app_assoc.
Qed.

End JoinFacts.

(** X17: the context [format_docs] builds holds every retrieved chunk under
    its header, in order, with a blank line between chunks and none at the
    ends: its length is the sum over the chunks of the content length plus
    the five characters of the header, plus two per gap, and formatting a
    concatenation is formatting the parts and joining them by a blank
    line. *)
Theorem X17_format_docs_layout :
  (forall docs : list Document,
      len (HybridChain.format_docs docs)
      = fold_right Z.add 0 (map (fun d => len (page_content d) + 5) docs)
        + 2 * Z.max 0 (len docs - 1))
  /\ (forall (docs : list Document) (d : Document),
         In d docs ->
         contains (HybridChain.chunk_header ++ page_content d)
           (HybridChain.format_docs docs) = true)
  /\ (forall docs1 docs2 : list Document,
         docs1 <> [] -> docs2 <> [] ->
         HybridChain.format_docs (docs1 ++ docs2)
         = HybridChain.format_docs docs1 ++ [10%N; 10%N]
           ++ HybridChain.format_docs docs2).
Proof.
  split; [|split].
  - intros docs. unfold HybridChain.format_docs.
    rewrite join_length, map_map.
    change (len [10%N; 10%N]) with 2.
    f_equal; [f_equal; apply map_ext; intros d|].
    + unfold len. rewrite length_app.
      change (List.length HybridChain.chunk_header) with 5%nat. lia.
    + unfold len. now rewrite length_map.
  - intros docs d Hin. unfold HybridChain.format_docs.
    destruct (@join_In [10%N; 10%N]
                (HybridChain.chunk_header ++ page_content d)
                (map (fun d => HybridChain.chunk_header ++ page_content d) docs))
      as [a [b E]].
    + apply in_map_iff. now exists d.
    + rewrite E. apply contains_app.
  - intros docs1 docs2 H1 H2. unfold HybridChain.format_docs.
    rewrite map_app. apply join_app.
    + destruct docs1; [now contradiction H1|discriminate].
    + destruct docs2; [now contradiction H2|discriminate].
Qed.

Section CompareFacts.
Context {RT : PyRuntime}.

(** A hybrid method of the comparison raises what its factory call
    raises. *)
Lemma run_method_raises
    (bm25_from_documents :
       list Document -> result (Z -> str -> list Document))
    (vs : str -> Z -> list (Document * float)) (documents : list Document)
    (vw bw : float) (advanced : bool) (q : str) :
  HybridChain.run_method bm25_from_documents vs documents vw bw advanced q
  = inl (HybridChain.Raised
           match bm25_from_documents documents with
           | Ok _ => ValueError
           | Raise e => e
           end).
Proof.
  unfold HybridChain.run_method, create_hybrid_retriever.
  destruct (bm25_from_documents documents) as [bm25|e]; cbn [bind];
    [|reflexivity].
  now destruct advanced.
Qed.

End CompareFacts.

(** X18: [compare_retrieval_methods] returns no report.  Called without
    documents it raises [TypeError], before any retrieval.  Called with
    documents it raises at its first [create_hybrid_retriever] call, after
    the vector retrieval: the exception of the BM25 construction if that
    raises, [ValueError] otherwise. *)
Theorem X18_compare_retrieval_methods_returns_no_report :
  forall (RT : PyRuntime)
         (as_retriever : Z -> str -> list Document)
         (bm25_from_documents :
            list Document -> result (Z -> str -> list Document))
         (vs : str -> Z -> list (Document * float)) (q : str),
    HybridChain.compare_retrieval_methods as_retriever bm25_from_documents vs
      q None = inl HybridChain.TypeError
    /\ forall documents : list Document,
         (forall bm25,
             bm25_from_documents documents = Ok bm25 ->
             HybridChain.compare_retrieval_methods as_retriever
               bm25_from_documents vs q (Some documents)
             = inl (HybridChain.Raised ValueError))
         /\ (forall e,
                bm25_from_documents documents = Raise e ->
                HybridChain.compare_retrieval_methods as_retriever
                  bm25_from_documents vs q (Some documents)
                = inl (HybridChain.Raised e)).
Proof.
  intros RT as_retriever bm25_from_documents vs q.
  split; [reflexivity|]. intros documents.
  unfold HybridChain.compare_retrieval_methods.
  cbn [HybridChain.and_then]. rewrite run_method_raises.
  cbn [HybridChain.and_then].
  split; [intros bm25 ->|intros e ->]; reflexivity.
Qed.

(** ** When retrieval raises *)

Section RetrievalErrors.
Context {F : Type} {FO : PyFloat F} {RT : PyRuntime}.

(** The exceptions of fusion and retrieval are those of the divisions. *)
Lemma vector_pass_exn (vector_docs : list (Document * F)) (d0 : dict Scores)
    (e : exn) :
  vector_pass vector_docs d0 = Raise e -> e = ZeroDivisionError.
Proof.
  revert d0. induction vector_docs as [|[d score] rest IH]; intros d0;
    cbn [vector_pass]; [discriminate|].
  unfold truediv. destruct (f_eqb (f_add f_1 score) f_0); cbn [bind];
    [congruence|apply IH].
Qed.

Lemma bm25_pass_exn (bm25_docs : list Document) (i : Z) (d0 : dict Scores)
    (e : exn) :
  bm25_pass i bm25_docs d0 = Raise e -> e = ZeroDivisionError.
Proof.
  revert i d0. induction bm25_docs as [|d rest IH]; intros i d0;
    cbn [bm25_pass]; [discriminate|].
  unfold truediv_float_int. destruct (i + 1 =? 0); cbn [bind];
    [congruence|apply IH].
Qed.

Lemma combine_results_exn (r : HybridRetriever.t (F := F))
    (vector_docs : list (Document * F)) (bm25_docs : list Document)
    (e : exn) :
  _combine_results r vector_docs bm25_docs = Raise e -> e = ZeroDivisionError.
Proof.
  unfold _combine_results, fuse.
  destruct (vector_pass vector_docs []) as [ds|e0] eqn:Ev; cbn [bind].
  - destruct (bm25_pass 0 bm25_docs ds) as [ds'|e1] eqn:Eb; cbn [bind];
      [discriminate|].
    intros E. injection E as <-. exact (bm25_pass_exn _ _ _ Eb).
  - intros E. injection E as <-. exact (vector_pass_exn _ _ Ev).
Qed.

Lemma retrieve_variants_exn (r : HybridRetriever.t (F := F))
    (queries : list str) (acc : list Document) (e : exn) :
  retrieve_variants r queries acc = Raise e -> e = ZeroDivisionError.
Proof.
  revert acc. induction queries as [|q rest IH]; intros acc;
    cbn [retrieve_variants]; [discriminate|].
  destruct (_combine_results r (vectorstore r q (k r)) (bm25_retriever r q))
    as [c|e0] eqn:E; cbn [bind]; [apply IH|].
  intros E'. injection E' as <-. exact (combine_results_exn _ _ _ E).
Qed.

Lemma retrieve_variants_raises_iff (r : HybridRetriever.t (F := F))
    (queries : list str) (acc : list Document) :
  retrieve_variants r queries acc = Raise ZeroDivisionError <->
  exists q, In q queries
            /\ Exists (fun h => f_eqb (f_add f_1 (snd h)) f_0 = true)
                 (vectorstore r q (k r)).
Proof.
  revert acc. induction queries as [|q rest IH]; intros acc.
  - cbn. split; [discriminate|intros [q [[] _]]].
  - cbn [retrieve_variants].
    destruct (_combine_results r (vectorstore r q (k r)) (bm25_retriever r q))
      as [c|e] eqn:E; cbn [bind];
      [|pose proof (combine_results_exn _ _ _ E) as ->].
    + rewrite IH. split.
      * intros [q' [Hq' Hex]]. exists q'. split; [now right|exact Hex].
      * intros [q' [[<- |Hq'] Hex]]; [|now exists q'].
        apply (@combine_results_raises_iff F FO RT r _ (bm25_retriever r q))
          in Hex.
        congruence.
    + split; [intros _|reflexivity].
      exists q. split; [now left|].
      now apply (@combine_results_raises_iff F FO RT r _ (bm25_retriever r q)).
Qed.

End RetrievalErrors.

(** X19: retrieval fails with [ZeroDivisionError] in these cases only.  The
    basic retriever: some distance [d] among the vector hits has
    [1.0 + d == 0.0].  The advanced retriever: such a distance among the
    vector hits of one of the query variants; or else reranking is on, the
    query has a term, and a document without content is left after
    deduplication. *)
Theorem X19_retrieval_raises_in_two_cases_only :
  forall (F : Type) (FO : PyFloat F) (RT : PyRuntime),
    (forall s, lower s = [] <-> s = []) ->
    (forall (r : HybridRetriever.t (F := F)) (query : str),
        HybridRetriever._get_relevant_documents r query
        = Raise ZeroDivisionError <->
        Exists (fun h => f_eqb (f_add f_1 (snd h)) f_0 = true)
          (vectorstore r query (k r * 2)))
    /\ (forall (a : AdvancedHybridRetriever.t (F := F)) (query : str),
           let variants :=
             if query_expansion a then _expand_query query else [query] in
           AdvancedHybridRetriever._get_relevant_documents a query
           = Raise ZeroDivisionError <->
           (exists q, In q variants
                      /\ Exists (fun h => f_eqb (f_add f_1 (snd h)) f_0 = true)
                           (vectorstore (base a) q (k (base a))))
           \/ (exists all_docs,
                 retrieve_variants (base a) variants [] = Ok all_docs
                 /\ rerank a = true
                 /\ term_set query <> []
                 /\ exists d, In d (_deduplicate_docs all_docs)
                              /\ page_content d = [])).
Proof.
  intros F FO RT Hlow. split.
  - intros r query. unfold HybridRetriever._get_relevant_documents.
    rewrite <- (@combine_results_raises_iff F FO RT r _
                  (bm25_retriever r query)).
    destruct (_combine_results r (vectorstore r query (k r * 2))
                (bm25_retriever r query)) as [c|e] eqn:E; cbn [bind];
      [|pose proof (combine_results_exn _ _ _ E) as ->];
      split; intros H; try discriminate; reflexivity.
  - intros a query variants.
    unfold AdvancedHybridRetriever._get_relevant_documents. fold variants.
    destruct (retrieve_variants (base a) variants []) as [all_docs|e] eqn:E;
      cbn [bind]; [|pose proof (retrieve_variants_exn _ _ _ E) as ->].
    + assert (Hno : ~ exists q, In q variants
                /\ Exists (fun h => f_eqb (f_add f_1 (snd h)) f_0 = true)
                     (vectorstore (base a) q (k (base a)))).
      { intros Hex. apply retrieve_variants_raises_iff with (acc := []) in Hex.
        congruence. }
      destruct (rerank a) eqn:Hr.
      * pose proof (@rerank_raises_iff F FO RT Hlow
                      (_deduplicate_docs all_docs) query) as Hiff.
        destruct (_rerank_documents (_deduplicate_docs all_docs) query)
          as [u0|e] eqn:Er; cbn [bind];
          [|pose proof (rerank_documents_exn _ _ Er) as ->].
        -- split; [discriminate|].
           intros [Hex|[all' [E' [_ Hrest]]]]; [contradiction|].
           injection E' as <-. apply Hiff in Hrest. discriminate.
        -- split; [intros _|reflexivity].
           right. exists all_docs. split; [reflexivity|]. split; [reflexivity|].
           now apply Hiff.
      * cbn [bind]. split; [discriminate|].
        intros [Hex|[all' [_ [Hr' _]]]]; [contradiction|discriminate].
    + split; [intros _|reflexivity].
      left. now apply retrieve_variants_raises_iff with (acc := []).
Qed.

Lemma X19_retrieval_raises_in_two_cases_only_witness :
  (forall s, lower (PyRuntime := demo_runtime) s = [] <-> s = [])
  /\ AdvancedHybridRetriever._get_relevant_documents (RT := demo_runtime)
       {| base := {| vectorstore := fun _ _ => [(doc_a, (-1)%float)];
                     bm25_retriever := fun _ => [];
                     vector_weight := 0.7%float; bm25_weight := 0.3%float;
                     k := 2 |};
          query_expansion := true; rerank := true |}
       (u "report")
     = Raise ZeroDivisionError.
Proof.
  split; [apply cpython_lower_empty|].
  apply (proj2 (@X19_retrieval_raises_in_two_cases_only float binary64
                  demo_runtime (cpython_lower_empty _))).
  left. exists (u "report"). split; [left; reflexivity|].
  constructor. reflexivity.
Defined.

(** ** The pure-keyword configuration *)

Section SortPartition.
Context {F : Type} {FO : PyFloat F}.
Variable A : Type.
Variable key : A -> F.

Lemma insert_desc_app_high (x : A) (l1 l2 : list A) :
  (forall b, In b l2 -> f_ltb (key x) (key b) = false) ->
  insert_desc key x (l1 ++ l2) = insert_desc key x l1 ++ l2.
Proof.
  intros H. induction l1 as [|a l1 IH].
  - cbn [app insert_desc]. destruct l2 as [|b l2]; [reflexivity|].
    cbn [insert_desc]. now rewrite (H b (or_introl eq_refl)).
  - cbn [app insert_desc]. destruct (f_ltb (key x) (key a)); [|reflexivity].
    cbn [app]. now rewrite IH.
Qed.

Lemma insert_desc_app_low (x : A) (l1 l2 : list A) :
  (forall a, In a l1 -> f_ltb (key x) (key a) = true) ->
  insert_desc key x (l1 ++ l2) = l1 ++ insert_desc key x l2.
Proof.
  induction l1 as [|a l1 IH]; intros H; [reflexivity|].
  cbn [app insert_desc]. rewrite (H a (or_introl eq_refl)).
  f_equal. apply IH. intros a' Ha'. apply H. now right.
Qed.

(** When every element of one class is strictly above every element of the
    other, the sort is the sorted first class followed by the sorted
    second. *)
Lemma sort_desc_partition (p : A -> bool) (l : list A) :
  (forall a b, In a l -> In b l -> p a = true -> p b = false ->
     f_ltb (key a) (key b) = false /\ f_ltb (key b) (key a) = true) ->
  sort_desc key l
  = sort_desc key (filter p l)
    ++ sort_desc key (filter (fun a => negb (p a)) l).
Proof.
  induction l as [|x l IH]; intros H; [reflexivity|].
  cbn [sort_desc filter].
  rewrite IH by (intros a b Ha Hb; apply H; now right).
  destruct (p x) eqn:Hx; cbn [negb sort_desc].
  - apply insert_desc_app_high. intros b Hb.
    apply (Permutation_in _ (sort_desc_perm key _)) in Hb.
    apply filter_In in Hb. destruct Hb as [Hb Hpb].
    apply (H x b); [now left|now right|exact Hx|].
    now destruct (p b).
  - apply insert_desc_app_low. intros a Ha.
    apply (Permutation_in _ (sort_desc_perm key _)) in Ha.
    apply filter_In in Ha. destruct Ha as [Ha Hpa].
    apply (H a x); [now right|now left|exact Hpa|exact Hx].
Qed.

End SortPartition.

Section SortedUnique.
Variable A : Type.
Variables strict weak : A -> A -> Prop.
Hypothesis exclusive : forall a b, strict a b -> ~ weak b a.

(** A strictly ordered list is the only weakly ordered arrangement of its
    elements. *)
Lemma sorted_perm_unique (t s : list A) :
  StronglySorted strict t -> StronglySorted weak s -> Permutation s t -> s = t.
Proof.
  revert s. induction t as [|x t IH]; intros s Ht Hs Hp.
  - apply Permutation_sym in Hp. now apply Permutation_nil in Hp.
  - destruct s as [|y s];
      [now apply Permutation_nil_cons in Hp|].
    inversion Ht as [|? ? Ht' Hx]; subst.
    inversion Hs as [|? ? Hs' Hy]; subst.
    assert (E : y = x).
    { assert (Hy_in : In y (x :: t))
        by (apply (Permutation_in _ Hp); now left).
      assert (Hx_in : In x (y :: s))
        by (apply (Permutation_in _ (Permutation_sym Hp)); now left).
      destruct Hy_in as [E|Hyt]; [now symmetry|].
      destruct Hx_in as [E|Hxs]; [exact E|].
      rewrite Forall_forall in Hx, Hy.
      exfalso. exact (exclusive (Hx y Hyt) (Hy x Hxs)). }
    subst y. f_equal. apply IH; auto.
    now apply Permutation_cons_inv with x.
Qed.

End SortedUnique.

Section PureKeyword.
Context {RT : PyRuntime}.

Lemma rank_score_antitone (r r' : Z) :
  0 <= r -> r < r' ->
  (rank_score (F := Q) r' < rank_score (F := Q) r)%Q.
Proof.
  intros Hr Hlt. unfold rank_score. cbn [f_div f_1 f_of_int exact].
  destruct (r + 1) as [|n|n] eqn:E; try lia.
  destruct (r' + 1) as [|n'|n'] eqn:E'; try lia.
  unfold Qdiv, Qlt, Qmult, Qinv, inject_Z. cbn. lia.
Qed.

Lemma first_doc_NoDup (bm25_docs : list Document) (d : Document) :
  NoDup (map _get_doc_id bm25_docs) -> In d bm25_docs ->
  first_doc (_get_doc_id d) bm25_docs = Some d.
Proof.
  unfold first_doc. induction bm25_docs as [|d0 rest IH]; intros Hnd Hin;
    [destruct Hin|].
  cbn [map] in Hnd. inversion Hnd as [|? ? Hd0 Hnd']; subst.
  cbn [find]. destruct (_get_doc_id d0 =? _get_doc_id d) eqn:E.
  - destruct Hin as [-> |Hin]; [reflexivity|].
    apply Z.eqb_eq in E. exfalso. apply Hd0. rewrite E. now apply in_map.
  - destruct Hin as [-> |Hin]; [now rewrite Z.eqb_refl in E|].
    now apply IH.
Qed.

(** In a keyword list without repeated identifiers every document has its
    own rank, and the ranks grow along the list. *)
Lemma ranks_sorted (i : Z) (bm25_docs : list Document) :
  NoDup (map _get_doc_id bm25_docs) ->
  StronglySorted (ranked_before i bm25_docs) bm25_docs.
Proof.
  revert i. induction bm25_docs as [|d rest IH]; intros i Hnd; [constructor|].
  cbn [map] in Hnd. inversion Hnd as [|? ? Hd Hnd']; subst. constructor.
  - apply StronglySorted_weaken with (R := ranked_before (i + 1) rest);
      [|now apply IH].
    intros a b _ _ (r & r' & Ha & Hb & Hi & Hlt).
    exists r, r'. cbn [last_rank]. rewrite Ha, Hb.
    repeat split; auto; lia.
  - apply Forall_forall. intros b Hb.
    assert (Hnone : last_rank (i + 1) (_get_doc_id d) rest = None)
      by now apply last_rank_None.
    destruct (last_rank (i + 1) (_get_doc_id b) rest) as [r'|] eqn:Eb.
    + exists i, r'. cbn [last_rank]. rewrite Hnone, Eb, Z.eqb_refl.
      apply last_rank_Some in Eb. repeat split; auto; lia.
    + apply last_rank_None in Eb. exfalso. apply Eb. now apply in_map.
Qed.

Lemma pure_keyword_combine (r : HybridRetriever.t (F := Q))
    (vector_docs : list (Document * Q)) (bm25_docs : list Document) :
  (vector_weight r == 0)%Q -> (bm25_weight r == 1)%Q ->
  Forall (fun h => (0 <= snd h)%Q) vector_docs ->
  NoDup (map _get_doc_id bm25_docs) ->
  exists rest,
    _combine_results r vector_docs bm25_docs
    = Ok (map (kept_document vector_docs) bm25_docs ++ rest)
    /\ map _get_doc_id (map (kept_document vector_docs) bm25_docs)
       = map _get_doc_id bm25_docs
    /\ Forall (fun d =>
                 In (_get_doc_id d)
                    (map (fun h => _get_doc_id (fst h)) vector_docs)
                 /\ ~ In (_get_doc_id d) (map _get_doc_id bm25_docs)) rest.
Proof.
  intros Hvw Hbw Hpos Hnd.
  destruct (fuse_spec bm25_docs (exact_normalizable_all RT Hpos))
    as [ds [Hfuse [Hkeys Hget]]].
  set (bids := map _get_doc_id bm25_docs) in *.
  assert (Hndk : NoDup (dict_keys ds))
    by exact (@fuse_keys_NoDup Q exact RT vector_docs bm25_docs ds Hkeys).
  set (p := fun item : Z * Scores (F := Q) => existsb (Z.eqb (fst item)) bids).
  set (key := fun item : Z * Scores (F := Q) => bm25_score (snd item)).
  assert (Hitem : forall item, In item ds ->
             fused_entry vector_docs bm25_docs (fst item) = Some (snd item)).
  { intros [id s] Hin. cbn [fst snd]. rewrite <- Hget. now apply dict_In_get. }
  assert (Hmatched : forall item, In item ds ->
             In (fst item) (matched_ids vector_docs bm25_docs)).
  { intros item Hin.
    assert (Hk : In (fst item) (dict_keys ds)) by now apply in_map.
    rewrite Hkeys in Hk. unfold first_occurrences in Hk.
    apply fold_add_key_In in Hk. now destruct Hk as [[]|Hk]. }
  assert (Hkey : forall item, In item ds ->
             key item = match last_rank 0 (fst item) bm25_docs with
                        | Some rk => rank_score rk
                        | None => 0%Q
                        end).
  { intros item Hin.
    destruct (fused_entry_matched _ _ _ (Hmatched item Hin)) as [s [Hs [_ Hb]]].
    rewrite (Hitem item Hin) in Hs. injection Hs as <-. exact Hb. }
  assert (Hp_true : forall item, In item ds -> p item = true ->
             exists rk, 0 <= rk /\ key item = rank_score rk).
  { intros item Hin Hp. unfold p in Hp. apply existsb_eqb_In in Hp.
    pose proof (Hkey item Hin) as Hk.
    destruct (last_rank 0 (fst item) bm25_docs) as [rk|] eqn:E.
    - exists rk. split; [apply last_rank_Some in E; lia|exact Hk].
    - apply last_rank_None in E. contradiction. }
  assert (Hp_false : forall item, In item ds -> p item = false ->
             key item = 0%Q).
  { intros item Hin Hp. pose proof (Hkey item Hin) as Hk.
    destruct (last_rank 0 (fst item) bm25_docs) as [rk|] eqn:E; [|exact Hk].
    exfalso. destruct (in_dec Z.eq_dec (fst item) bids) as [Hi|Hn].
    - apply existsb_eqb_In in Hi. unfold p in Hp. congruence.
    - apply (proj2 (last_rank_None 0 (fst item) bm25_docs)) in Hn.
      congruence. }
  (* the sort: by the keyword score alone *)
  assert (Hsort : sort_desc (fun item => combined_score r (snd item)) ds
                  = sort_desc key ds).
  { apply sort_desc_ext. intros a b _ _.
    apply exact_ltb_scale with (c := 1%Q); [reflexivity| |];
      unfold combined_score, key; cbn [f_add f_mul exact];
      rewrite Hvw, Hbw; ring. }
  (* keyword hits first *)
  assert (Hpart : sort_desc key ds
                  = sort_desc key (filter p ds)
                    ++ sort_desc key (filter (fun a => negb (p a)) ds)).
  { apply sort_desc_partition. intros a b Ha Hb Hpa Hpb.
    destruct (Hp_true a Ha Hpa) as [rk [Hrk Hka]].
    rewrite Hka, (Hp_false b Hb Hpb).
    pose proof (rank_score_pos Hrk) as Hpos'.
    split; [apply exact_ltb_false; now apply Qlt_le_weak
           |now apply exact_ltb_true]. }
  (* the other entries stay as they are *)
  assert (Hlow : sort_desc key (filter (fun a => negb (p a)) ds)
                 = filter (fun a => negb (p a)) ds).
  { apply sort_desc_sorted, StronglySorted_Sorted, StronglySorted_all.
    intros a b Ha Hb. apply filter_In in Ha, Hb.
    destruct Ha as [Ha Hpa], Hb as [Hb Hpb].
    apply negb_true_iff in Hpa, Hpb.
    now rewrite (Hp_false a Ha Hpa), (Hp_false b Hb Hpb). }
  (* the keyword hits come out in the keyword order *)
  set (mk := fun d : Document =>
               (_get_doc_id d,
                match fused_entry vector_docs bm25_docs (_get_doc_id d) with
                | Some s => s
                | None => {| doc := d; vector_score := 0%Q; bm25_score := 0%Q |}
                end)).
  assert (Hmk : forall d, In d bm25_docs -> In (mk d) ds /\ p (mk d) = true).
  { intros d Hd.
    assert (Hm : In (_get_doc_id d) (matched_ids vector_docs bm25_docs)).
    { unfold matched_ids. apply in_or_app. right. now apply in_map. }
    destruct (fused_entry_matched _ _ _ Hm) as [s [Hs _]].
    unfold mk. rewrite Hs. split.
    - apply dict_get_In. now rewrite Hget.
    - unfold p. cbn [fst]. apply existsb_eqb_In. now apply in_map. }
  assert (Hhigh : sort_desc key (filter p ds) = map mk bm25_docs).
  { apply sorted_perm_unique
      with (strict := fun a b => (key b < key a)%Q)
           (weak := fun a b => f_ltb (key a) (key b) = false).
    - intros a b Hs Hw. apply exact_ltb_false in Hw.
      exact (Qlt_not_le _ _ Hs Hw).
    - apply StronglySorted_map.
      apply StronglySorted_weaken with (R := ranked_before 0 bm25_docs);
        [|now apply ranks_sorted].
      intros d d' Hd Hd' (rk & rk' & E & E' & H0 & Hlt).
      destruct (Hmk d Hd) as [Hin _]. destruct (Hmk d' Hd') as [Hin' _].
      rewrite (Hkey _ Hin), (Hkey _ Hin').
      change (fst (mk d)) with (_get_doc_id d).
      change (fst (mk d')) with (_get_doc_id d').
      rewrite E, E'. now apply rank_score_antitone.
    - apply (@sort_desc_StronglySorted Q exact _ key (fun _ => True)).
      + exact exact_ltb_asym.
      + intros x y z _. apply exact_ltb_negtrans.
      + apply Forall_forall. intros; exact I.
    - rewrite sort_desc_perm. apply NoDup_Permutation.
      + apply NoDup_filter. now apply (NoDup_map_inv fst).
      + apply (NoDup_map_inv fst). rewrite map_map. exact Hnd.
      + intros item. rewrite filter_In, in_map_iff. split.
        * intros [Hin Hp]. unfold p in Hp. apply existsb_eqb_In in Hp.
          apply in_map_iff in Hp. destruct Hp as [d [Hid Hd]].
          exists d. split; [|exact Hd].
          unfold mk. rewrite Hid, (Hitem item Hin). now destruct item.
        * intros [d [<- Hd]]. exact (Hmk d Hd). }
  (* the documents kept for the keyword hits *)
  assert (Hdoc : forall d, In d bm25_docs ->
             doc (snd (mk d)) = kept_document vector_docs d).
  { intros d Hd. unfold mk, kept_document, fused_entry, bm25_update.
    cbn [snd].
    destruct (last_hit (_get_doc_id d) vector_docs) as [h|];
      destruct (last_rank 0 (_get_doc_id d) bm25_docs); try reflexivity.
    rewrite (first_doc_NoDup _ _ Hnd Hd). reflexivity. }
  exists (map (fun item => doc (snd item)) (filter (fun a => negb (p a)) ds)).
  split; [|split].
  - rewrite combine_results_items, Hfuse. cbn [bind].
    rewrite Hsort, Hpart, Hlow, Hhigh, map_app, map_map.
    f_equal. f_equal. apply map_ext_in. exact Hdoc.
  - rewrite map_map. apply map_ext_in. intros d Hd.
    rewrite <- (Hdoc d Hd).
    destruct (Hmk d Hd) as [Hin _].
    exact (fused_entry_doc_id _ _ _ (Hitem _ Hin)).
  - rewrite Forall_forall. intros d Hd.
    apply in_map_iff in Hd. destruct Hd as [item [<- Hitem']].
    apply filter_In in Hitem'. destruct Hitem' as [Hin Hp].
    apply negb_true_iff in Hp.
    rewrite (fused_entry_doc_id _ _ _ (Hitem _ Hin)).
    assert (Hnb : ~ In (fst item) bids).
    { intros Hi. apply existsb_eqb_In in Hi. unfold p in Hp. congruence. }
    split; [|exact Hnb].
    pose proof (Hmatched item Hin) as Hm. unfold matched_ids in Hm.
    apply in_app_or in Hm. now destruct Hm.
Qed.

End PureKeyword.

(** X20: in exact arithmetic a retriever object with the weights [(0, 1)]
    ranks by the keyword backend alone: when the keyword hits have pairwise
    distinct identifiers, [_combine_results] returns one document per keyword
    hit in the keyword backend's order (the last vector hit with that
    identifier if there is one, the keyword hit itself otherwise), followed
    by the documents found by the vector search only. *)
Theorem X20_pure_keyword_keeps_keyword_order :
  forall (RT : PyRuntime) (r : HybridRetriever.t (F := Q))
         (vector_docs : list (Document * Q)) (bm25_docs : list Document),
    (vector_weight r == 0)%Q -> (bm25_weight r == 1)%Q ->
    Forall (fun h => (0 <= snd h)%Q) vector_docs ->
    NoDup (map _get_doc_id bm25_docs) ->
    exists rest,
      _combine_results r vector_docs bm25_docs
      = Ok (map (kept_document vector_docs) bm25_docs ++ rest)
      /\ map _get_doc_id (map (kept_document vector_docs) bm25_docs)
         = map _get_doc_id bm25_docs
      /\ Forall (fun d =>
                   In (_get_doc_id d)
                      (map (fun h => _get_doc_id (fst h)) vector_docs)
                   /\ ~ In (_get_doc_id d) (map _get_doc_id bm25_docs))
           rest.
Proof.
  intros RT r vector_docs bm25_docs Hvw Hbw Hpos Hnd.
  now apply pure_keyword_combine.
Qed.

Lemma X20_pure_keyword_keeps_keyword_order_witness :
  (vector_weight pure_keyword_retriever_exact == 0)%Q
  /\ (bm25_weight pure_keyword_retriever_exact == 1)%Q
  /\ Forall (fun h => (0 <= snd h)%Q) demo_vector_docs_exact
  /\ NoDup (map (_get_doc_id (RT := demo_runtime)) demo_bm25_docs)
  /\ exists rest,
       _combine_results (RT := demo_runtime) pure_keyword_retriever_exact
         demo_vector_docs_exact demo_bm25_docs
       = Ok (map (kept_document (RT := demo_runtime) demo_vector_docs_exact)
               demo_bm25_docs ++ rest)
       /\ map (_get_doc_id (RT := demo_runtime))
            (map (kept_document (RT := demo_runtime) demo_vector_docs_exact)
               demo_bm25_docs)
          = map (_get_doc_id (RT := demo_runtime)) demo_bm25_docs
       /\ Forall (fun d =>
                    In (_get_doc_id (RT := demo_runtime) d)
                       (map (fun h => _get_doc_id (RT := demo_runtime) (fst h))
                          demo_vector_docs_exact)
                    /\ ~ In (_get_doc_id (RT := demo_runtime) d)
                         (map (_get_doc_id (RT := demo_runtime)) demo_bm25_docs))
            rest.
Proof.
  assert (Hv : (vector_weight pure_keyword_retriever_exact == 0)%Q)
    by reflexivity.
  assert (Hb : (bm25_weight pure_keyword_retriever_exact == 1)%Q)
    by reflexivity.
  assert (H1 : Forall (fun h => (0 <= snd h)%Q) demo_vector_docs_exact)
    by (repeat constructor; discriminate).
  assert (H2 : NoDup (map (_get_doc_id (RT := demo_runtime)) demo_bm25_docs)).
  { vm_compute. repeat constructor; cbn; intuition discriminate. }
  split; [exact Hv|]. split; [exact Hb|]. split; [exact H1|]. split; [exact H2|].
  exact (@X20_pure_keyword_keeps_keyword_order demo_runtime
           pure_keyword_retriever_exact demo_vector_docs_exact demo_bm25_docs
           Hv Hb H1 H2).
Defined.

(** ** Reranking in binary64 *)

Section RerankBinary64.

Ltac cmp_split :=
  repeat match goal with
    | |- context [Pos.compare_cont Eq ?x ?y] =>
        change (Pos.compare_cont Eq x y) with (Pos.compare x y)
    | H : context [Pos.compare_cont Eq ?x ?y] |- _ =>
        change (Pos.compare_cont Eq x y) with (Pos.compare x y) in H
    end;
  repeat match goal with
    | |- context [Z.compare ?x ?y] => destruct (Z.compare_spec x y)
    | H : context [Z.compare ?x ?y] |- _ => destruct (Z.compare_spec x y)
    | |- context [Pos.compare ?x ?y] => destruct (Pos.compare_spec x y)
    | H : context [Pos.compare ?x ?y] |- _ => destruct (Pos.compare_spec x y)
    end;
  cbn in *; subst; try reflexivity; try discriminate; try lia.

Lemma SFeqb_not_ltb (a b v : spec_float) :
  SFeqb a v = true -> SFeqb b v = true -> SFltb a b = false.
Proof.
  unfold SFeqb, SFltb.
  destruct a as [sa|sa| |sa ma ea], b as [sb|sb| |sb mb eb],
    v as [sv|sv| |sv mv ev]; cbn;
    try destruct sa; try destruct sb; try destruct sv; cbn;
    try congruence; cmp_split.
Qed.

(** Scores that compare equal to the same value do not compare below one
    another. *)
Lemma binary64_eqb_not_ltb (a b v : float) :
  (a =? v)%float = true -> (b =? v)%float = true ->
  f_ltb (PyFloat := binary64) a b = false.
Proof. cbn. rewrite !eqb_spec, ltb_spec. apply SFeqb_not_ltb. Qed.

End RerankBinary64.

(** X21: in binary64, when the query has no term or every candidate has
    content, and no relevance score is NaN, [_rerank_documents] returns the
    candidates in descending order of their scores ([<] never holds from an
    earlier to a later one), candidates with equal scores in their input
    order. *)
Theorem X21_rerank_binary64_descending_and_stable :
  forall (RT : PyRuntime),
    (forall s, lower s = [] <-> s = []) ->
    forall (docs : list Document) (query : str),
      term_set query = [] \/ (forall d, In d docs -> page_content d <> []) ->
      (forall d score,
         In d docs ->
         calculate_relevance_score (F := float) (term_set query) d = Ok score ->
         is_nan score = false) ->
      exists scored ranked,
        map fst scored = docs
        /\ (forall p, In p scored ->
              calculate_relevance_score (F := float) (term_set query) (fst p)
              = Ok (snd p))
        /\ _rerank_documents (F := float) docs query = Ok (map fst ranked)
        /\ Permutation ranked scored
        /\ StronglySorted (fun a b => (snd a <? snd b)%float = false) ranked
        /\ forall v : float,
             filter (fun p => (snd p =? v)%float) ranked
             = filter (fun p => (snd p =? v)%float) scored.
Proof.
  intros RT Hlow docs query Hcase Hnan.
  destruct (mapM_scored_total _ docs
              (@rerank_scores_total float binary64 RT docs query Hlow Hcase))
    as [scored Hs].
  exists scored, (sort_desc snd scored).
  split; [exact (mapM_scored_fst _ _ Hs)|].
  split; [intros p Hp; now destruct (mapM_scored_In _ _ Hs p Hp)|].
  split; [unfold _rerank_documents; now rewrite Hs|].
  split; [apply sort_desc_perm|]. split.
  - apply (@sort_desc_StronglySorted float binary64 _ snd
             (fun x => is_nan x = false)).
    + exact binary64_ltb_asym.
    + exact binary64_ltb_negtrans.
    + apply Forall_forall. intros p Hp.
      destruct (mapM_scored_In _ _ Hs p Hp) as [Hin Hsc].
      exact (Hnan _ _ Hin Hsc).
  - intros v. apply sort_desc_stable. intros a b Ha Hb.
    exact (binary64_eqb_not_ltb Ha Hb).
Qed.

Lemma X21_rerank_binary64_descending_and_stable_witness :
  (forall s, lower (PyRuntime := demo_runtime) s = [] <-> s = [])
  /\ exists scored ranked,
       map fst scored = [doc_a; doc_b; mkdoc "report"]
       /\ _rerank_documents (F := float) (RT := demo_runtime)
            [doc_a; doc_b; mkdoc "report"] (u "report") = Ok (map fst ranked)
       /\ Permutation ranked scored
       /\ StronglySorted (fun a b => (snd a <? snd b)%float = false) ranked.
Proof.
  split; [apply cpython_lower_empty|].
  destruct (@X21_rerank_binary64_descending_and_stable demo_runtime
              (cpython_lower_empty _) [doc_a; doc_b; mkdoc "report"]
              (u "report"))
    as [scored [ranked [H1 [_ [H2 [H3 [H4 _]]]]]]].
  - right. intros d [<- |[<- |[<- |[]]]]; vm_compute; discriminate.
  - intros d score [<- |[<- |[<- |[]]]] E; vm_compute in E;
      injection E as <-; reflexivity.
  - exists scored, ranked. repeat split; assumption.
Defined.

(** ** The advanced retriever on a query without synonym keys *)

Section SingleVariant.
Context {F : Type} {FO : PyFloat F} {RT : PyRuntime}.

(** Whenever [_combine_results] returns, the identifiers of its result are
    pairwise distinct. *)
Lemma combine_results_Ok_NoDup (r : HybridRetriever.t (F := F))
    (vector_docs : list (Document * F)) (bm25_docs : list Document)
    (out : list Document) :
  _combine_results r vector_docs bm25_docs = Ok out ->
  NoDup (map _get_doc_id out).
Proof.
  intros E.
  destruct (Forall_Exists_dec (fun h => normalizable (snd h))
              (@normalizable_dec F FO) vector_docs) as [Hall|Hex].
  - destruct (@combine_results_invariants F FO RT r vector_docs bm25_docs Hall)
      as [out' [E' [Hnd _]]].
    rewrite E in E'. now injection E' as <-.
  - assert (Hr : _combine_results r vector_docs bm25_docs
                 = Raise ZeroDivisionError).
    { apply combine_results_raises_iff. revert Hex. apply Exists_impl.
      intros h Hn. unfold normalizable in Hn.
      now destruct (f_eqb (f_add f_1 (snd h)) f_0). }
    congruence.
Qed.

End SingleVariant.

(** X22: on a query in which no key of the synonym table occurs (or with
    query expansion switched off) the advanced retriever is the fusion of the
    two hit lists for that query, reranked if reranking is on, and cut to
    [k]: there is one variant, and deduplication changes nothing, since the
    fused list already has one document per identifier.  This holds for the
    errors as well. *)
Theorem X22_advanced_single_variant_is_fusion_then_rerank :
  forall (F : Type) (FO : PyFloat F) (RT : PyRuntime)
         (a : AdvancedHybridRetriever.t (F := F)) (query : str),
    query_expansion a = false
    \/ (contains (u "股票") query = false
        /\ contains (u "公司") query = false
        /\ contains (u "表现") query = false) ->
    AdvancedHybridRetriever._get_relevant_documents a query =
      (combined_docs <-
         _combine_results (base a)
           (vectorstore (base a) query (k (base a)))
           (bm25_retriever (base a) query) ;;
       unique_docs <-
         (if rerank a then _rerank_documents combined_docs query
          else Ok combined_docs) ;;
       Ok (slice_to unique_docs (k (base a)))).
Proof.
  intros F FO RT a query Hone.
  assert (Hvariants :
            (if query_expansion a then _expand_query query else [query])
            = [query]).
  { destruct (query_expansion a); [|reflexivity].
    destruct Hone as [Hoff|(H1 & H2 & H3)]; [discriminate|].
    unfold _expand_query. apply expand_query_with_no_match.
    repeat constructor; assumption. }
  unfold AdvancedHybridRetriever._get_relevant_documents.
  rewrite Hvariants. cbn [retrieve_variants].
  destruct (_combine_results (base a)
              (vectorstore (base a) query (k (base a)))
              (bm25_retriever (base a) query)) as [combined|e] eqn:E;
    [|reflexivity].
  cbn [bind app].
  assert (Hfix : _deduplicate_docs combined = combined).
  { unfold _deduplicate_docs. apply deduplicate_from_fixed.
    - exact (combine_results_Ok_NoDup _ _ _ E).
    - intros d _ []. }
  now rewrite Hfix.
Qed.

Lemma X22_advanced_single_variant_is_fusion_then_rerank_witness :
  (query_expansion demo_advanced = false
   \/ (contains (u "股票") (u "report") = false
       /\ contains (u "公司") (u "report") = false
       /\ contains (u "表现") (u "report") = false))
  /\ AdvancedHybridRetriever._get_relevant_documents (RT := demo_runtime)
       demo_advanced (u "report") =
     (combined_docs <-
        _combine_results (RT := demo_runtime) (base demo_advanced)
          (vectorstore (base demo_advanced) (u "report") (k (base demo_advanced)))
          (bm25_retriever (base demo_advanced) (u "report")) ;;
      unique_docs <-
        (if rerank demo_advanced
         then _rerank_documents (RT := demo_runtime) combined_docs (u "report")
         else Ok combined_docs) ;;
      Ok (slice_to unique_docs (k (base demo_advanced)))).
Proof.
  assert (H : query_expansion demo_advanced = false
              \/ (contains (u "股票") (u "report") = false
                  /\ contains (u "公司") (u "report") = false
                  /\ contains (u "表现") (u "report") = false)).
  { right. repeat split; reflexivity. }
  split; [exact H|].
  exact (@X22_advanced_single_variant_is_fusion_then_rerank float binary64
           demo_runtime demo_advanced (u "report") H).
Defined.

(** ** The range of the relevance score *)

Section ScoreRange.
Context {RT : PyRuntime}.

Lemma count_from_bounds (sub : str) (skip : nat) (s : str) :
  0 <= count_from sub skip s <= Z.of_nat (List.length s).
Proof.
  revert skip. induction s as [|c s IH]; intros skip; [cbn; lia|].
  cbn [count_from List.length]. destruct skip as [|n].
  - destruct (startswith sub (c :: s)).
    + specialize (IH (Nat.pred (List.length sub))). lia.
    + specialize (IH O). lia.
  - specialize (IH n). lia.
Qed.

Lemma count_bounds (sub s : str) :
  sub <> [] -> 0 <= count sub s <= len s.
Proof.
  intros Hsub. destruct sub as [|a sub]; [now contradiction Hsub|].
  unfold count, len. apply count_from_bounds.
Qed.

Lemma findall_from_nonempty (cur s t : str) :
  In t (findall_from cur s) -> t <> [].
Proof.
  revert cur. induction s as [|c s IH]; intros cur; cbn [findall_from].
  - destruct cur; cbn; [intros []|intros [<- |[]]; discriminate].
  - destruct (is_word c); [apply IH|].
    intros Hin. apply in_app_or in Hin. destruct Hin as [Hin|Hin].
    + destruct cur; cbn in Hin; [destruct Hin|].
      destruct Hin as [<- |[]]. discriminate.
    + exact (IH [] Hin).
Qed.

Lemma term_set_nonempty (s t : str) : In t (term_set s) -> t <> [].
Proof.
  unfold term_set, findall_words. intros Hin. apply nodup_In in Hin.
  exact (@findall_from_nonempty _ _ _ Hin).
Qed.

Lemma occurrences_bounds (query_terms : list str) (doc_text : str) :
  (forall t, In t query_terms -> t <> []) ->
  0 <= occurrences query_terms doc_text <= len query_terms * len doc_text.
Proof.
  unfold occurrences, len.
  induction query_terms as [|t terms IH]; intros Hne; [cbn; lia|].
  cbn [map fold_right List.length].
  pose proof (count_bounds doc_text (Hne t (or_introl eq_refl))) as Hc.
  unfold len in Hc.
  specialize (IH (fun t' Ht' => Hne t' (or_intror Ht'))). nia.
Qed.

Lemma set_inter_le_union (a b : list str) :
  NoDup a -> len (set_inter a b) <= len (set_union a b).
Proof.
  intros Hnd. unfold len. apply Nat2Z.inj_le.
  apply NoDup_incl_length.
  - unfold set_inter. now apply NoDup_filter.
  - intros t Ht. unfold set_inter in Ht. apply filter_In in Ht.
    unfold set_union. apply nodup_In, in_or_app. now left.
Qed.

Lemma ratio_bounds (a b n : Z) :
  0 <= a -> a <= n * b -> 0 < b ->
  (0 <= inject_Z a / inject_Z b)%Q
  /\ (inject_Z a / inject_Z b <= inject_Z n)%Q.
Proof.
  intros Ha Hab Hb.
  assert (Hb' : (0 < inject_Z b)%Q) by (rewrite <- (Zlt_Qlt 0); exact Hb).
  split.
  - apply Qle_shift_div_l; [exact Hb'|]. rewrite Qmult_0_l.
    rewrite <- (Zle_Qle 0). exact Ha.
  - apply Qle_shift_div_r; [exact Hb'|].
    rewrite <- inject_Z_mult, <- Zle_Qle. exact Hab.
Qed.

End ScoreRange.

(** X23: in exact arithmetic the relevance score of a document with content
    lies between 0 and [0.7 + 0.3 * n], [n] the number of query terms: the
    Jaccard part is a ratio between 0 and 1, and each term adds at most 1 to
    the density. *)
Theorem X23_relevance_score_range :
  forall (RT : PyRuntime),
    (forall s, lower s = [] <-> s = []) ->
    forall (query : str) (d : Document),
      page_content d <> [] ->
      exists score : Q,
        calculate_relevance_score (F := Q) (term_set query) d = Ok score
        /\ (0 <= score)%Q
        /\ (score <= (7 # 10) + (3 # 10) * inject_Z (len (term_set query)))%Q.
Proof.
  intros RT Hlow query d Htext.
  assert (Hl : lower (page_content d) <> []).
  { intros E. apply Htext. now apply Hlow. }
  assert (Hlen : 0 < len (lower (page_content d))).
  { unfold len. destruct (lower (page_content d)); [now contradiction Hl|].
    cbn [List.length]. lia. }
  assert (Hn : 0 <= len (term_set query)) by (unfold len; lia).
  assert (Hbound : (0 <= (7 # 10) + (3 # 10) * inject_Z (len (term_set query)))%Q).
  { apply Qle_trans with (y := ((7 # 10) + (3 # 10) * 0)%Q); [discriminate|].
    apply Qplus_le_r, Qmult_le_l; [reflexivity|].
    rewrite <- (Zle_Qle 0). exact Hn. }
  unfold calculate_relevance_score.
  destruct (len (set_union (term_set query) (term_set (page_content d))) =? 0)
    eqn:E.
  - exists 0%Q. split; [reflexivity|]. split; [discriminate|exact Hbound].
  - apply Z.eqb_neq in E.
    rewrite (truediv_int_nonzero _ E). cbn [bind].
    rewrite truediv_int_nonzero by lia. cbn [bind].
    eexists. split; [reflexivity|].
    cbn [f_add f_mul f_div f_of_int f_0_7 f_0_3 exact].
    destruct (@ratio_bounds
                (len (set_inter (term_set query) (term_set (page_content d))))
                (len (set_union (term_set query) (term_set (page_content d))))
                1) as [Hj0 Hj1].
    + unfold len. lia.
    + pose proof (@set_inter_le_union (term_set query)
                    (term_set (page_content d)) (term_set_NoDup query)). lia.
    + unfold len in *. lia.
    + destruct (@occurrences_bounds (term_set query) (lower (page_content d))
                  (@term_set_nonempty RT query)) as [Ho0 Ho1].
      destruct (@ratio_bounds _ _ _ Ho0 Ho1 Hlen) as [Hd0 Hd1].
      split.
      * rewrite <- (Qplus_0_r 0).
        apply Qplus_le_compat; apply Qmult_le_0_compat;
          [discriminate|exact Hj0|discriminate|exact Hd0].
      * apply Qplus_le_compat.
        -- rewrite <- (Qmult_1_r (7 # 10)) at 2.
           apply Qmult_le_l; [reflexivity|exact Hj1].
        -- apply Qmult_le_l; [reflexivity|exact Hd1].
Qed.

Lemma X23_relevance_score_range_witness :
  (forall s, lower (PyRuntime := demo_runtime) s = [] <-> s = [])
  /\ page_content doc_a <> []
  /\ exists score : Q,
       calculate_relevance_score (F := Q) (RT := demo_runtime)
         (term_set (RT := demo_runtime) (u "alpha beta")) doc_a = Ok score
       /\ (0 <= score)%Q
       /\ (score <= (7 # 10) + (3 # 10)
                    * inject_Z (len (term_set (RT := demo_runtime)
                                       (u "alpha beta"))))%Q.
Proof.
  split; [apply cpython_lower_empty|].
  assert (H : page_content doc_a <> []) by (vm_compute; discriminate).
  split; [exact H|].
  exact (@X23_relevance_score_range demo_runtime (cpython_lower_empty _)
           (u "alpha beta") doc_a H).
Defined.

(** ** Edge cases: no hits, a negative [k], ties *)

Section EdgeCases.
Context {F : Type} {FO : PyFloat F} {RT : PyRuntime}.

Lemma slice_to_nil (A : Type) (n : Z) : slice_to (@nil A) n = [].
Proof. unfold slice_to. destruct (n <? 0); apply firstn_nil. Qed.

Lemma retrieve_variants_no_hits (r : HybridRetriever.t (F := F))
    (queries : list str) (acc : list Document) :
  (forall q, In q queries ->
     vectorstore r q (k r) = [] /\ bm25_retriever r q = []) ->
  retrieve_variants r queries acc = Ok acc.
Proof.
  revert acc. induction queries as [|q rest IH]; intros acc H; [reflexivity|].
  cbn [retrieve_variants].
  destruct (H q (or_introl eq_refl)) as [-> ->]. cbn.
  rewrite app_nil_r. apply IH. intros q' Hq'. apply H. now right.
Qed.

(** The sort keeps the order of the entries whose scores compare equal. *)
Lemma combine_results_ties
    (Heq : forall a b v : F,
        f_eqb a v = true -> f_eqb b v = true -> f_ltb a b = false)
    (r : HybridRetriever.t (F := F))
    (vector_docs : list (Document * F)) (bm25_docs : list Document) :
  Forall (fun h => normalizable (snd h)) vector_docs ->
  exists doc_scores ranked,
    fuse vector_docs bm25_docs = Ok doc_scores
    /\ dict_keys doc_scores
       = first_occurrences (matched_ids vector_docs bm25_docs)
    /\ Permutation ranked doc_scores
    /\ _combine_results r vector_docs bm25_docs
       = Ok (map (fun item => doc (snd item)) ranked)
    /\ forall v : F,
         filter (fun item => f_eqb (combined_score r (snd item)) v) ranked
         = filter (fun item => f_eqb (combined_score r (snd item)) v)
             doc_scores.
Proof.
  intros Hok.
  destruct (fuse_spec bm25_docs Hok) as [ds [Hfuse [Hkeys _]]].
  exists ds, (sort_desc (fun item => combined_score r (snd item)) ds).
  split; [exact Hfuse|]. split; [exact Hkeys|].
  split; [apply sort_desc_perm|]. split.
  - now rewrite combine_results_items, Hfuse.
  - intros v. apply sort_desc_stable. intros a b Ha Hb.
    exact (Heq _ _ _ Ha Hb).
Qed.

End EdgeCases.

(** X24: when the backends return no hit (for the query, and in the advanced
    class for every query variant), retrieval returns the empty list and does
    not raise, whatever the weights and [k], a negative [k] included. *)
Theorem X24_no_hits_no_documents :
  forall (F : Type) (FO : PyFloat F) (RT : PyRuntime),
    (forall (r : HybridRetriever.t (F := F)) (query : str),
        vectorstore r query (k r * 2) = [] ->
        bm25_retriever r query = [] ->
        HybridRetriever._get_relevant_documents r query = Ok [])
    /\ (forall (a : AdvancedHybridRetriever.t (F := F)) (query : str),
           (forall q,
              In q (if query_expansion a then _expand_query query else [query]) ->
              vectorstore (base a) q (k (base a)) = []
              /\ bm25_retriever (base a) q = []) ->
           AdvancedHybridRetriever._get_relevant_documents a query = Ok []).
Proof.
  intros F FO RT. split.
  - intros r query Hv Hb. unfold HybridRetriever._get_relevant_documents.
    rewrite Hv, Hb. cbn. now rewrite slice_to_nil.
  - intros a query Hnone.
    unfold AdvancedHybridRetriever._get_relevant_documents.
    rewrite (retrieve_variants_no_hits (base a) _ [] Hnone). cbn [bind].
    destruct (rerank a); cbn; now rewrite slice_to_nil.
Qed.

(** X25: a negative [k] is not rejected: the basic retriever then returns the
    fused list without its last [|k|] documents, that is
    [max(0, n + k)] documents out of [n]. *)
Theorem X25_negative_k_drops_the_last_documents :
  forall (F : Type) (FO : PyFloat F) (RT : PyRuntime)
         (r : HybridRetriever.t (F := F)) (query : str),
    k r < 0 ->
    Forall (fun h => normalizable (snd h)) (vectorstore r query (k r * 2)) ->
    exists combined dropped,
      _combine_results r (vectorstore r query (k r * 2))
        (bm25_retriever r query) = Ok combined
      /\ HybridRetriever._get_relevant_documents r query
         = Ok (firstn (List.length combined - Z.to_nat (- k r)) combined)
      /\ combined
         = firstn (List.length combined - Z.to_nat (- k r)) combined ++ dropped
      /\ len dropped = Z.min (- k r) (len combined)
      /\ len (firstn (List.length combined - Z.to_nat (- k r)) combined)
         = Z.max 0 (len combined + k r).
Proof.
  intros F FO RT r query Hk Hok.
  destruct (@combine_results_invariants F FO RT r _ (bm25_retriever r query) Hok)
    as [combined [E _]].
  exists combined,
    (skipn (List.length combined - Z.to_nat (- k r)) combined).
  split; [exact E|]. split; [|split; [|split]].
  - unfold HybridRetriever._get_relevant_documents. rewrite E. cbn [bind].
    unfold slice_to. apply Z.ltb_lt in Hk. now rewrite Hk.
  - symmetry. apply firstn_skipn.
  - unfold len. rewrite length_skipn. lia.
  - unfold len. rewrite length_firstn. lia.
Qed.

Lemma X25_negative_k_drops_the_last_documents_witness :
  exists combined dropped,
    _combine_results (RT := demo_runtime)
      {| vectorstore := fun _ _ => demo_vector_docs;
         bm25_retriever := fun _ => demo_bm25_docs;
         vector_weight := 0.7%float; bm25_weight := 0.3%float; k := -1 |}
      demo_vector_docs demo_bm25_docs = Ok combined
    /\ HybridRetriever._get_relevant_documents (RT := demo_runtime)
         {| vectorstore := fun _ _ => demo_vector_docs;
            bm25_retriever := fun _ => demo_bm25_docs;
            vector_weight := 0.7%float; bm25_weight := 0.3%float; k := -1 |}
         (u "report")
       = Ok (firstn (List.length combined - 1) combined)
    /\ combined = firstn (List.length combined - 1) combined ++ dropped
    /\ len dropped = Z.min 1 (len combined)
    /\ len (firstn (List.length combined - 1) combined)
       = Z.max 0 (len combined + -1).
Proof.
  apply (@X25_negative_k_drops_the_last_documents float binary64 demo_runtime
           {| vectorstore := fun _ _ => demo_vector_docs;
              bm25_retriever := fun _ => demo_bm25_docs;
              vector_weight := 0.7%float; bm25_weight := 0.3%float; k := -1 |}
           (u "report")).
  - reflexivity.
  - repeat constructor.
Defined.

(** X26: documents whose combined scores are equal leave [_combine_results]
    in the order of the fused table, which is the order in which their
    identifiers first appear, vector hits before keyword hits.  This holds in
    exact arithmetic, and in binary64 when no combined score of the fused
    table is NaN. *)
Theorem X26_combine_results_ties_keep_table_order :
  (forall (RT : PyRuntime) (r : HybridRetriever.t (F := Q))
          (vector_docs : list (Document * Q)) (bm25_docs : list Document),
      Forall (fun h => normalizable (snd h)) vector_docs ->
      exists doc_scores ranked,
        fuse vector_docs bm25_docs = Ok doc_scores
        /\ dict_keys doc_scores
           = first_occurrences (matched_ids vector_docs bm25_docs)
        /\ Permutation ranked doc_scores
        /\ _combine_results r vector_docs bm25_docs
           = Ok (map (fun item => doc (snd item)) ranked)
        /\ forall v : Q,
             filter (fun item => Qeq_bool (combined_score r (snd item)) v)
               ranked
             = filter (fun item => Qeq_bool (combined_score r (snd item)) v)
                 doc_scores)
  /\ (forall (RT : PyRuntime) (r : HybridRetriever.t (F := float))
             (vector_docs : list (Document * float))
             (bm25_docs : list Document),
         Forall (fun h => normalizable (snd h)) vector_docs ->
         exists doc_scores,
           fuse vector_docs bm25_docs = Ok doc_scores
           /\ dict_keys doc_scores
              = first_occurrences (matched_ids vector_docs bm25_docs)
           /\ (Forall (fun item =>
                         is_nan (combined_score r (snd item)) = false)
                 doc_scores ->
               exists ranked,
                 Permutation ranked doc_scores
                 /\ _combine_results r vector_docs bm25_docs
                    = Ok (map (fun item => doc (snd item)) ranked)
                 /\ forall v : float,
                      filter (fun item =>
                                (combined_score r (snd item) =? v)%float)
                        ranked
                      = filter (fun item =>
                                  (combined_score r (snd item) =? v)%float)
                          doc_scores)).
Proof.
  split.
  - intros RT r vector_docs bm25_docs.
    apply (@combine_results_ties Q exact RT).
    intros a b v Ha Hb. cbn in Ha, Hb.
    apply Qeq_bool_iff in Ha. apply Qeq_bool_iff in Hb.
    apply exact_ltb_false. rewrite Ha, Hb. apply Qle_refl.
  - intros RT r vector_docs bm25_docs Hok.
    destruct (@combine_results_ties float binary64 RT
                (fun a b v Ha Hb => binary64_eqb_not_ltb Ha Hb)
                r vector_docs bm25_docs Hok)
      as (ds & ranked & Hfuse & Hkeys & Hperm & Hout & Hties).
    exists ds. split; [exact Hfuse|]. split; [exact Hkeys|].
    intros _. exists ranked. now repeat split.
Qed.
